(** * pyURLs: URL normalisation, validation and deduplication

    A shallow embedding of [src/crawler/utils/normalize.py],
    [src/crawler/utils/validation.py] and
    [src/crawler/utils/deduplication.py], together with the parts of
    CPython 3.11's [str], [float], [urllib.parse] and [ipaddress] that these
    files call.

    Conventions.
    - A Python [str] is a [string].  URLs handed to the program are ASCII;
      a [str] obtained by percent-decoding is held as its UTF-8 encoding, so
      byte order is code-point order and [quote] sees the bytes it encodes.
    - A function that may raise returns [Exception + A]; code that mutates
      the deduplicator runs in the monad [M] below, where the state reached
      before a raise is kept, as it is in Python.
    - Logging calls have no effect on any value and are left out. *)

From Stdlib Require Import ZArith NArith Ascii String List Bool Lia.
From stdpp Require Import base gmap sets list strings sorting.

Local Open Scope Z_scope.

(** ** Exceptions *)

Inductive Exception : Type :=
| ValueError (msg : string)
| AttributeError (msg : string)
| OverflowError (msg : string)
| LibraryError (msg : string).

(** [str(e)] *)
Definition exc_str (e : Exception) : string :=
  match e with
  | ValueError m | AttributeError m | OverflowError m | LibraryError m => m
  end.

(** ** Python [str] methods *)

Module Str.

Definition ord (c : ascii) : N := N_of_ascii c.
Definition chr (n : N) : ascii := ascii_of_N n.

Definition char_eqb (a b : ascii) : bool := Ascii.eqb a b.

Definition char_isascii (c : ascii) : bool := (ord c <? 128)%N.
Definition char_isupper (c : ascii) : bool := ((65 <=? ord c) && (ord c <=? 90))%N.
Definition char_islower (c : ascii) : bool := ((97 <=? ord c) && (ord c <=? 122))%N.
Definition char_isalpha (c : ascii) : bool := char_isupper c || char_islower c.
Definition char_isdigit (c : ascii) : bool := ((48 <=? ord c) && (ord c <=? 57))%N.

Definition char_lower (c : ascii) : ascii :=
  if char_isupper c then chr (ord c + 32) else c.

(** [s.isascii()] *)
Fixpoint isascii (s : string) : bool :=
  match s with
  | EmptyString => true
  | String c s' => char_isascii c && isascii s'
  end.

(** [s.lower()], on ASCII text *)
Fixpoint lower (s : string) : string :=
  match s with
  | EmptyString => EmptyString
  | String c s' => String (char_lower c) (lower s')
  end.

(** [all(p(c) for c in s)] *)
Fixpoint all (p : ascii -> bool) (s : string) : bool :=
  match s with
  | EmptyString => true
  | String c s' => p c && all p s'
  end.

(** [c in s] for a single character *)
Fixpoint mem (c : ascii) (s : string) : bool :=
  match s with
  | EmptyString => false
  | String d s' => char_eqb c d || mem c s'
  end.

(** [s.startswith(p)] *)
Fixpoint startswith (p s : string) : bool :=
  match p, s with
  | EmptyString, _ => true
  | String a p', String b s' => char_eqb a b && startswith p' s'
  | String _ _, EmptyString => false
  end.

Fixpoint rev_onto (s acc : string) : string :=
  match s with
  | EmptyString => acc
  | String c s' => rev_onto s' (String c acc)
  end.
Definition rev (s : string) : string := rev_onto s EmptyString.

(** [s.endswith(p)] *)
Definition endswith (p s : string) : bool := startswith (rev p) (rev s).

(** [s[n:]] and [s[:n]] for [n >= 0] *)
Fixpoint drop (n : nat) (s : string) : string :=
  match n, s with
  | O, _ => s
  | S n', String _ s' => drop n' s'
  | S _, EmptyString => EmptyString
  end.
Fixpoint take (n : nat) (s : string) : string :=
  match n, s with
  | O, _ => EmptyString
  | S n', String c s' => String c (take n' s')
  | S _, EmptyString => EmptyString
  end.

(** [p in s] for a substring [p] *)
Fixpoint contains (p s : string) : bool :=
  startswith p s ||
  match s with
  | EmptyString => false
  | String _ s' => contains p s'
  end.

(** [s.lstrip(chars)], the character set given as a predicate *)
Fixpoint lstrip (chars : ascii -> bool) (s : string) : string :=
  match s with
  | EmptyString => EmptyString
  | String c s' => if chars c then lstrip chars s' else s
  end.

(** [s.rstrip(chars)] *)
Fixpoint rstrip (chars : ascii -> bool) (s : string) : string :=
  match s with
  | EmptyString => EmptyString
  | String c s' =>
      match rstrip chars s' with
      | EmptyString => if chars c then EmptyString else String c EmptyString
      | r => String c r
      end
  end.

(** [s.replace(c, "")] for a single character [c] *)
Fixpoint remove_char (c : ascii) (s : string) : string :=
  match s with
  | EmptyString => EmptyString
  | String d s' => if char_eqb c d then remove_char c s' else String d (remove_char c s')
  end.

(** [s.replace(a, b)] for single characters *)
Fixpoint replace_char (a b : ascii) (s : string) : string :=
  match s with
  | EmptyString => EmptyString
  | String d s' => String (if char_eqb a d then b else d) (replace_char a b s')
  end.

(** [s.replace(old, new)] for a non-empty [old]: the occurrences are found
    from the left and do not overlap.  [skip] counts the characters of an
    occurrence that are still to be passed over. *)
Fixpoint replace_go (old new : string) (skip : nat) (s : string) : string :=
  match s with
  | EmptyString => EmptyString
  | String c s' =>
      match skip with
      | S k => replace_go old new k s'
      | O =>
          if startswith old s
          then new +:+ replace_go old new (String.length old - 1) s'
          else String c (replace_go old new O s')
      end
  end.
Definition replace (old new s : string) : string := replace_go old new O s.

(** [s.partition(c)]: [None] when [c] does not occur, else the text before
    and after its first occurrence. *)
Fixpoint partition (c : ascii) (s : string) : option (string * string) :=
  match s with
  | EmptyString => None
  | String d s' =>
      if char_eqb c d then Some (EmptyString, s')
      else match partition c s' with
           | Some (a, b) => Some (String d a, b)
           | None => None
           end
  end.

(** [s.rpartition(c)], around the last occurrence *)
Fixpoint rpartition (c : ascii) (s : string) : option (string * string) :=
  match s with
  | EmptyString => None
  | String d s' =>
      match rpartition c s' with
      | Some (a, b) => Some (String d a, b)
      | None => if char_eqb c d then Some (EmptyString, s') else None
      end
  end.

(** [s.split(c)]: always at least one piece *)
Fixpoint split (c : ascii) (s : string) : list string :=
  match s with
  | EmptyString => [EmptyString]
  | String d s' =>
      if char_eqb c d then EmptyString :: split c s'
      else match split c s' with
           | p :: ps => String d p :: ps
           | [] => [String d EmptyString]
           end
  end.

(** the longest prefix whose characters all satisfy [p], and the rest *)
Fixpoint span (p : ascii -> bool) (s : string) : string * string :=
  match s with
  | EmptyString => (EmptyString, EmptyString)
  | String c s' =>
      if p c then let '(a, b) := span p s' in (String c a, b)
      else (EmptyString, s)
  end.

(** [sep.join(l)] *)
Fixpoint join (sep : string) (l : list string) : string :=
  match l with
  | [] => EmptyString
  | [x] => x
  | x :: l' => x +:+ sep +:+ join sep l'
  end.

(** [re.sub(pat + "$", "", s)] for a literal [pat]: [$] matches at the end
    of the string and just before a newline that ends it. *)
Definition re_sub_at_end (pat s : string) : string :=
  if endswith pat s then take (String.length s - String.length pat) s
  else if endswith (pat +:+ String (chr 10) EmptyString) s
  then take (String.length s - String.length pat - 1) s +:+ String (chr 10) EmptyString
  else s.

(** [x in l] for a list of strings *)
Definition In_list (x : string) (l : list string) : bool :=
  existsb (String.eqb x) l.

End Str.

(** ** [ipaddress.ip_address], as far as [urllib.parse] needs it

    [urlsplit] hands the text between the brackets of a bracketed host to
    [ipaddress.ip_address] and looks only at whether it raises and at the
    version of the address. *)

Module Ipaddress.

Inductive version := V4 | V6.

Definition is_hexdigit (c : ascii) : bool :=
  Str.char_isdigit c ||
  ((65 <=? Str.ord c) && (Str.ord c <=? 70))%N ||
  ((97 <=? Str.ord c) && (Str.ord c <=? 102))%N.

Definition digit_value (c : ascii) : N := (Str.ord c - 48)%N.

(** [int(s, 10)] on a string of decimal digits *)
Definition int10 (s : string) : N :=
  fold_left (fun acc c => (acc * 10 + digit_value c)%N) (list_ascii_of_string s) 0%N.

(** [_BaseV4._parse_octet] succeeds *)
Definition parse_octet_ok (octet_str : string) : bool :=
  negb (String.eqb octet_str "")
  && (Str.isascii octet_str && Str.all Str.char_isdigit octet_str)
  && (String.length octet_str <=? 3)%nat
  && negb (negb (String.eqb octet_str "0") && Str.startswith "0" octet_str)
  && (int10 octet_str <=? 255)%N.

(** [IPv4Address(s)] succeeds *)
Definition ipv4_ok (addr_str : string) : bool :=
  negb (Str.mem "/" addr_str)
  && negb (String.eqb addr_str "")
  && (let octets := Str.split "." addr_str in
      (length octets =? 4)%nat && forallb parse_octet_ok octets).

(** [_BaseV6._parse_hextet] succeeds; [int("", 16)] raises *)
Definition parse_hextet_ok (hextet_str : string) : bool :=
  Str.all is_hexdigit hextet_str
  && (String.length hextet_str <=? 4)%nat
  && negb (String.eqb hextet_str "").

(** [_BaseV6._split_scope_id]: the address part, or [None] when it raises *)
Definition split_scope_id (ip_str : string) : option string :=
  match Str.partition "%" ip_str with
  | None => Some ip_str
  | Some (addr, scope_id) =>
      if String.eqb scope_id "" || Str.mem "%" scope_id then None else Some addr
  end.

(** the indices [i] in [range(1, len(parts) - 1)] with [parts[i]] empty *)
Definition inner_empty_indices (parts : list string) : list nat :=
  filter (fun i => bool_decide (parts !! i = Some ""))
         (seq 1 (length parts - 2)).

(** [_BaseV6._ip_int_from_string] succeeds *)
Definition ipv6_int_ok (ip_str : string) : bool :=
  if String.eqb ip_str "" then false else
  let parts := Str.split ":" ip_str in
  if (length parts <? 3)%nat then false else
  let last_part := List.last parts "" in
  let parts_opt :=
    if Str.mem "." last_part
    then if ipv4_ok last_part
         then Some (removelast parts ++ ["0"; "0"])
         else None
    else Some parts in
  match parts_opt with
  | None => false
  | Some parts =>
      if (9 <? length parts)%nat then false else
      let first_empty := bool_decide (parts !! 0%nat = Some "") in
      let last_empty := String.eqb (List.last parts "") "" in
      match inner_empty_indices parts with
      | _ :: _ :: _ => false
      | [skip_index] =>
          let parts_hi := if first_empty then (skip_index - 1)%nat else skip_index in
          let parts_lo0 := (length parts - skip_index - 1)%nat in
          let parts_lo := if last_empty then (parts_lo0 - 1)%nat else parts_lo0 in
          if first_empty && negb (parts_hi =? 0)%nat then false
          else if last_empty && negb (parts_lo =? 0)%nat then false
          else if (8 <? parts_hi + parts_lo + 1)%nat then false
          else forallb parse_hextet_ok (firstn parts_hi parts)
               && forallb parse_hextet_ok (skipn (length parts - parts_lo) parts)
      | [] =>
          if negb (length parts =? 8)%nat then false
          else if first_empty then false
          else if last_empty then false
          else forallb parse_hextet_ok parts
      end
  end.

(** [IPv6Address(s)] succeeds *)
Definition ipv6_ok (addr_str : string) : bool :=
  negb (Str.mem "/" addr_str)
  && match split_scope_id addr_str with
     | Some addr => ipv6_int_ok addr
     | None => false
     end.

Definition ip_address (address : string) : Exception + version :=
  if ipv4_ok address then inr V4
  else if ipv6_ok address then inr V6
  else inl (ValueError ("'" +:+ address +:+ "' does not appear to be an IPv4 or IPv6 address")).

End Ipaddress.

(** ** [urllib.parse] (CPython 3.11, with the bracketed-host checks) *)

Module UrllibParse.

Record ParseResult := mkParseResult {
  scheme : string;
  netloc : string;
  path : string;
  params : string;
  query : string;
  fragment : string
}.

Definition uses_netloc : list string :=
  [""; "ftp"; "http"; "gopher"; "nntp"; "telnet";
   "imap"; "wais"; "file"; "mms"; "https"; "shttp";
   "snews"; "prospero"; "rtsp"; "rtspu"; "rsync";
   "svn"; "svn+ssh"; "sftp"; "nfs"; "git"; "git+ssh";
   "ws"; "wss"].

Definition uses_params : list string :=
  [""; "ftp"; "hdl"; "prospero"; "http"; "imap";
   "https"; "shttp"; "rtsp"; "rtspu"; "sip"; "sips";
   "mms"; "sftp"; "tel"].

(** [c in scheme_chars] *)
Definition in_scheme_chars (c : ascii) : bool :=
  Str.char_isalpha c || Str.char_isdigit c || Str.mem c "+-.".

(** [c in _WHATWG_C0_CONTROL_OR_SPACE] *)
Definition is_c0_control_or_space (c : ascii) : bool := (Str.ord c <=? 32)%N.

Definition TAB : ascii := Str.chr 9.
Definition LF : ascii := Str.chr 10.
Definition CR : ascii := Str.chr 13.

(** [_check_bracketed_host] *)
Definition check_bracketed_host (hostname : string) : Exception + unit :=
  if Str.startswith "v" hostname then
    (* re.match(r"\Av[a-fA-F0-9]+\..+\Z", hostname) *)
    let '(hex, rest) := Str.span Ipaddress.is_hexdigit (Str.drop 1 hostname) in
    match rest with
    | String "." (String c rest') =>
        if negb (String.eqb hex "") && negb (Str.mem LF (String c rest'))
        then inr tt
        else inl (ValueError "IPvFuture address is invalid")
    | _ => inl (ValueError "IPvFuture address is invalid")
    end
  else
    match Ipaddress.ip_address hostname with
    | inl e => inl e
    | inr Ipaddress.V4 => inl (ValueError "An IPv4 address cannot be in brackets")
    | inr Ipaddress.V6 => inr tt
    end.

(** [_check_bracketed_netloc], called when the netloc has both brackets *)
Definition check_bracketed_netloc (netloc : string) : Exception + unit :=
  let hostname_and_port :=
    match Str.rpartition "@" netloc with
    | Some (_, h) => h
    | None => netloc
    end in
  match Str.partition "[" hostname_and_port with
  | Some (before_bracket, bracketed) =>
      if negb (String.eqb before_bracket "") then inl (ValueError "Invalid IPv6 URL")
      else
        let '(hostname, port) :=
          match Str.partition "]" bracketed with
          | Some (h, p) => (h, p)
          | None => (bracketed, "")
          end in
        if negb (String.eqb port "") && negb (Str.startswith ":" port)
        then inl (ValueError "Invalid IPv6 URL")
        else check_bracketed_host hostname
  | None =>
      let hostname :=
        match Str.partition ":" hostname_and_port with
        | Some (h, _) => h
        | None => hostname_and_port
        end in
      check_bracketed_host hostname
  end.

(** [_splitnetloc(url, 2)] on the text after the two slashes: the netloc
    runs to the first of [/], [?], [#]. *)
Definition splitnetloc (rest : string) : string * string :=
  Str.span (fun c => negb (Str.mem c "/?#")) rest.

(** the two bracket tests that [urlsplit] applies to a netloc *)
Definition check_netloc_brackets (netloc : string) : Exception + unit :=
  let lb := Str.mem "[" netloc in
  let rb := Str.mem "]" netloc in
  if (lb && negb rb) || (rb && negb lb) then inl (ValueError "Invalid IPv6 URL")
  else if lb && rb then check_bracketed_netloc netloc
  else inr tt.

(** the scheme test of [urlsplit]: a letter first, then [scheme_chars] *)
Definition is_scheme_prefix (pre : string) : bool :=
  match pre with
  | String c _ => Str.char_isascii c && Str.char_isalpha c && Str.all in_scheme_chars pre
  | EmptyString => false
  end.

(** the steps of [urlsplit], in the order of its statements *)

(** [url.lstrip(_WHATWG_C0_CONTROL_OR_SPACE)], then the removal of TAB, CR
    and LF *)
Definition cleaned (url : string) : string :=
  Str.remove_char LF (Str.remove_char CR (Str.remove_char TAB
    (Str.lstrip is_c0_control_or_space url))).

(** the scheme and what follows the colon; no scheme when the text before
    the first colon fails the scheme test *)
Definition split_scheme (url : string) : string * string :=
  match Str.partition ":" url with
  | Some (pre, post) =>
      if is_scheme_prefix pre then (Str.lower pre, post) else (EmptyString, url)
  | None => (EmptyString, url)
  end.

(** [if url[:2] == '//': netloc, url = _splitnetloc(url, 2)], with the
    bracket tests *)
Definition split_netloc (url : string) : Exception + (string * string) :=
  match url with
  | String "/" (String "/" rest) =>
      let '(netloc, url) := splitnetloc rest in
      match check_netloc_brackets netloc with
      | inl e => inl e
      | inr _ => inr (netloc, url)
      end
  | _ => inr (EmptyString, url)
  end.

(** [if c in url: url, x = url.split(c, 1)] *)
Definition split_at (c : ascii) (url : string) : string * string :=
  match Str.partition c url with
  | Some (u, x) => (u, x)
  | None => (url, EmptyString)
  end.

(** [urlsplit(url)], with the default [scheme=''] and [allow_fragments=True].
    [_checknetloc] returns at once on an ASCII netloc and is left out. *)
Definition urlsplit (url : string)
  : Exception + (string * string * string * string * string) :=
  let url := cleaned url in
  let '(scheme, url) := split_scheme url in
  match split_netloc url with
  | inl e => inl e
  | inr (netloc, url) =>
      let '(url, fragment) := split_at "#" url in
      let '(url, query) := split_at "?" url in
      inr (scheme, netloc, url, query, fragment)
  end.

(** the text after the last [/] *)
Definition last_segment (url : string) : string :=
  match Str.rpartition "/" url with
  | Some (_, last) => last
  | None => url
  end.

(** [_splitparams] *)
Definition splitparams (url : string) : string * string :=
  match Str.rpartition "/" url with
  | Some (dir, last) =>
      match Str.partition ";" last with
      | Some (a, b) => (dir +:+ "/" +:+ a, b)
      | None => (url, EmptyString)
      end
  | None =>
      match Str.partition ";" url with
      | Some (a, b) => (a, b)
      | None => (Str.take (String.length url - 1) url, url)
      end
  end.

Definition urlparse (url : string) : Exception + ParseResult :=
  match urlsplit url with
  | inl e => inl e
  | inr (scheme, netloc, url, query, fragment) =>
      let '(url, params) :=
        if Str.In_list scheme uses_params && Str.mem ";" url
        then splitparams url
        else (url, EmptyString) in
      inr (mkParseResult scheme netloc url params query fragment)
  end.

Definition urlunsplit (scheme netloc url query fragment : string) : string :=
  let url :=
    if negb (String.eqb netloc "")
       || (negb (String.eqb scheme "") && Str.In_list scheme uses_netloc
           && negb (String.eqb (Str.take 2 url) "//"))
    then
      let url := if negb (String.eqb url "") && negb (String.eqb (Str.take 1 url) "/")
                 then "/" +:+ url else url in
      "//" +:+ netloc +:+ url
    else url in
  let url := if negb (String.eqb scheme "") then scheme +:+ ":" +:+ url else url in
  let url := if negb (String.eqb query "") then url +:+ "?" +:+ query else url in
  let url := if negb (String.eqb fragment "") then url +:+ "#" +:+ fragment else url in
  url.

Definition urlunparse (scheme netloc url params query fragment : string) : string :=
  let url := if negb (String.eqb params "") then url +:+ ";" +:+ params else url in
  urlunsplit scheme netloc url query fragment.

End UrllibParse.

(** ** Percent-encoding and query strings ([urllib.parse], continued) *)

Module Query.

Definition hex_value (c : ascii) : N :=
  if Str.char_isdigit c then (Str.ord c - 48)%N
  else if (Str.ord c <? 97)%N then (Str.ord c - 55)%N
  else (Str.ord c - 87)%N.

(** [unquote_to_bytes]: a [%] followed by two hex digits becomes the byte,
    any other [%] stays. *)
Fixpoint unquote_to_bytes (s : string) : string :=
  match s with
  | EmptyString => EmptyString
  | String c s' =>
      if Str.char_eqb c "%" then
        match s' with
        | String a (String b rest) =>
            if Ipaddress.is_hexdigit a && Ipaddress.is_hexdigit b
            then String (Str.chr (hex_value a * 16 + hex_value b)) (unquote_to_bytes rest)
            else String c (unquote_to_bytes s')
        | _ => String c (unquote_to_bytes s')
        end
      else String c (unquote_to_bytes s')
  end.

(** U+FFFD in UTF-8 *)
Definition REPLACEMENT : string :=
  String (Str.chr 239) (String (Str.chr 191) (String (Str.chr 189) EmptyString)).

Definition is_cont (c : ascii) : bool := ((128 <=? Str.ord c) && (Str.ord c <=? 191))%N.

(** the range of the second byte after the lead byte [b] *)
Definition second_ok (b c : ascii) : bool :=
  let b := Str.ord b in
  let c := Str.ord c in
  (if (b =? 224) then (160 <=? c) && (c <=? 191)
   else if (b =? 237) then (128 <=? c) && (c <=? 159)
   else if (b =? 240) then (144 <=? c) && (c <=? 191)
   else if (b =? 244) then (128 <=? c) && (c <=? 143)
   else (128 <=? c) && (c <=? 191))%N.

(** [bytes.decode('utf-8', 'replace')], the result again in UTF-8: a
    well-formed sequence is kept, every ill-formed run that CPython reports
    as one error becomes U+FFFD. *)
Fixpoint decode_replace (s : string) : string :=
  match s with
  | EmptyString => EmptyString
  | String b s1 =>
      let n := Str.ord b in
      if (n <? 128)%N then String b (decode_replace s1)
      else if ((n <? 194) || (244 <? n))%N then REPLACEMENT +:+ decode_replace s1
      else
        match s1 with
        | EmptyString => REPLACEMENT
        | String c2 s2 =>
            if negb (second_ok b c2) then REPLACEMENT +:+ decode_replace s1
            else if (n <? 224)%N then String b (String c2 (decode_replace s2))
            else
              match s2 with
              | EmptyString => REPLACEMENT
              | String c3 s3 =>
                  if negb (is_cont c3) then REPLACEMENT +:+ decode_replace s2
                  else if (n <? 240)%N
                  then String b (String c2 (String c3 (decode_replace s3)))
                  else
                    match s3 with
                    | EmptyString => REPLACEMENT
                    | String c4 s4 =>
                        if negb (is_cont c4) then REPLACEMENT +:+ decode_replace s3
                        else String b (String c2 (String c3 (String c4 (decode_replace s4))))
                    end
              end
        end
  end.

(** [unquote(s)] with the defaults [encoding='utf-8', errors='replace'],
    on ASCII [s] (one run for [_asciire]) *)
Definition unquote (s : string) : string :=
  if Str.mem "%" s then decode_replace (unquote_to_bytes s) else s.

(** [parse_qsl(qs, keep_blank_values)] with the default [separator='&'] and
    [strict_parsing=False] *)
Definition parse_field (keep_blank_values : bool) (name_value : string)
  : list (string * string) :=
  if String.eqb name_value "" then [] else
  let nv :=
    match Str.partition "=" name_value with
    | Some (n, v) => Some (n, v)
    | None => if keep_blank_values then Some (name_value, EmptyString) else None
    end in
  match nv with
  | None => []
  | Some (n, v) =>
      if negb (String.eqb v "") || keep_blank_values
      then [(unquote (Str.replace_char "+" " " n), unquote (Str.replace_char "+" " " v))]
      else []
  end.

Definition parse_qsl (qs : string) (keep_blank_values : bool) : list (string * string) :=
  if String.eqb qs "" then []
  else concat (map (parse_field keep_blank_values) (Str.split "&" qs)).

(** a [dict] from [str] to a list of [str], in insertion order *)
Definition pydict := list (string * list string).

(** [if name in d: d[name].append(value) else: d[name] = [value]] *)
Fixpoint dict_add (name value : string) (d : pydict) : pydict :=
  match d with
  | [] => [(name, [value])]
  | (k, vs) :: d' =>
      if String.eqb name k then (k, vs ++ [value]) :: d'
      else (k, vs) :: dict_add name value d'
  end.

Definition parse_qs (qs : string) (keep_blank_values : bool) : pydict :=
  fold_left (fun d nv => dict_add (fst nv) (snd nv) d) (parse_qsl qs keep_blank_values) [].

(** [d.pop(key, None)] *)
Definition dict_pop (key : string) (d : pydict) : pydict :=
  filter (fun kv => negb (String.eqb key (fst kv))) d.

(** [sorted(d.items())]: the keys of a dict are distinct, so the tuples are
    ordered by key, code point by code point *)
Fixpoint insert_by_key (x : string * list string) (l : pydict) : pydict :=
  match l with
  | [] => [x]
  | y :: l' => if String.leb (fst x) (fst y) then x :: l else y :: insert_by_key x l'
  end.
Definition sorted_items (d : pydict) : pydict := foldr insert_by_key [] d.

(** [c in _ALWAYS_SAFE] *)
Definition always_safe (c : ascii) : bool :=
  Str.char_isalpha c || Str.char_isdigit c || Str.mem c "_.-~".

Definition hexdig_upper (n : N) : ascii :=
  if (n <? 10)%N then Str.chr (48 + n) else Str.chr (55 + n).

(** [quote_from_bytes(bs, safe)]: [_Quoter] maps an unsafe byte to [%XX] *)
Fixpoint quote (safe : string) (s : string) : string :=
  match s with
  | EmptyString => EmptyString
  | String c s' =>
      if always_safe c || (Str.char_isascii c && Str.mem c safe)
      then String c (quote safe s')
      else String "%" (String (hexdig_upper (Str.ord c / 16))
                         (String (hexdig_upper (Str.ord c mod 16)) (quote safe s')))
  end.

Definition quote_plus (s : string) : string :=
  if negb (Str.mem " " s) then quote "" s
  else Str.replace_char " " "+" (quote " " s).

(** [urlencode(query, doseq=True)] for a sequence of (name, list of values) *)
Definition urlencode (query : pydict) : string :=
  Str.join "&"
    (concat (map (fun kv =>
                    map (fun elt => quote_plus (fst kv) +:+ "=" +:+ quote_plus elt) (snd kv))
                 query)).

End Query.

(** ** [src/crawler/utils/normalize.py] *)

Module URLNormalizer.
Import UrllibParse.

(** [self.remove_params] *)
Definition remove_params : list string :=
  ["utm_source"; "utm_medium"; "utm_campaign";
   "utm_term"; "utm_content"; "fbclid";
   "gclid"; "ref"; "source"].

(** [self.domain_variations], in insertion order *)
Definition domain_variations : list (string * string) :=
  [("www.", ""); (".m.", "."); ("-mobile.", ".")].

(** the netloc after lower-casing, port stripping and the variation loop *)
Definition normalize_netloc (netloc : string) : string :=
  let netloc := Str.lower netloc in
  let netloc := Str.re_sub_at_end ":80" netloc in
  let netloc := Str.re_sub_at_end ":443" netloc in
  fold_left (fun netloc vr => Str.replace (fst vr) (snd vr) netloc)
            domain_variations netloc.

Definition normalize_path (path : string) : string :=
  let path := Str.lower path in
  let path := Str.rstrip (Str.char_eqb "/") path in
  if String.eqb path "" then "/" else path.

(** [sorted_params]: the parsed query without the removed names, by name *)
Definition sorted_params (query : string) : Query.pydict :=
  let query_params := Query.parse_qs query false in
  let filtered_params :=
    filter (fun kv => negb (Str.In_list (fst kv) remove_params)) query_params in
  Query.sorted_items filtered_params.

(** the body of the [try] block *)
Definition normalize_body (url : string) : Exception + string :=
  match urlparse url with
  | inl e => inl e
  | inr parsed =>
      let netloc := normalize_netloc (netloc parsed) in
      let path := normalize_path (path parsed) in
      let new_query := Query.urlencode (sorted_params (query parsed)) in
      inr (urlunparse (scheme parsed) netloc path "" new_query "")
  end.

(** [normalize]: [None] stands for the [except] branch *)
Definition normalize (url : string) : option string :=
  match normalize_body url with
  | inr normalized => Some normalized
  | inl _ => None
  end.

(** [get_domain] *)
Definition get_domain (url : string) : option string :=
  match urlparse url with
  | inl _ => None
  | inr parsed =>
      let domain := Str.lower (netloc parsed) in
      let domain := List.hd "" (Str.split ":" domain) in
      Some (fold_left (fun d vr => Str.replace (fst vr) (snd vr) d)
                      domain_variations domain)
  end.

End URLNormalizer.

(** ** [src/crawler/utils/validation.py] *)

Module URLValidator.
Import UrllibParse.

Record URLValidationResult := mkValidation {
  is_valid : bool;
  reason : string
}.

(** [tldextract.extract(url)]: the library is not part of the repository;
    the validator is stated over any extractor. *)
Record ExtractResult := mkExtract {
  subdomain : string;
  domain : string;
  suffix : string
}.

Class Tldextract := {
  extract : string -> Exception + ExtractResult
}.

Definition skip_extensions : list string :=
  [".pdf"; ".doc"; ".docx"; ".xls"; ".xlsx";
   ".zip"; ".rar"; ".tar"; ".gz"; ".jpg";
   ".jpeg"; ".png"; ".gif"; ".mp4"; ".mp3"].

Definition blocked_domains : list string :=
  ["facebook.com"; "twitter.com"; "instagram.com";
   "youtube.com"; "linkedin.com"].

(** the five checks, in the order of the source *)
Definition check_format (parsed : ParseResult) : bool :=
  negb (String.eqb (scheme parsed) "") && negb (String.eqb (netloc parsed) "").

Definition check_scheme (parsed : ParseResult) : bool :=
  Str.In_list (scheme parsed) ["http"; "https"].

Definition check_domain (ext : ExtractResult) : bool :=
  negb (Str.In_list (domain ext +:+ "." +:+ suffix ext) blocked_domains).

Definition check_extension (url : string) : bool :=
  negb (existsb (fun ext => Str.endswith ext (Str.lower url)) skip_extensions).

Definition check_length (url : string) : bool :=
  negb (2000 <? Z.of_nat (String.length url)).

Definition is_valid_url `{T : Tldextract} (url : string) : URLValidationResult :=
  match urlparse url with
  | inl e => mkValidation false ("Validation error: " +:+ exc_str e)
  | inr parsed =>
      if negb (check_format parsed) then mkValidation false "Invalid URL format"
      else if negb (check_scheme parsed) then mkValidation false "Invalid scheme"
      else
        match extract url with
        | inl e => mkValidation false ("Validation error: " +:+ exc_str e)
        | inr ext =>
            if negb (check_domain ext) then mkValidation false "Blocked domain"
            else if negb (check_extension url) then mkValidation false "Blocked file extension"
            else if negb (check_length url) then mkValidation false "URL too long"
            else mkValidation true ""
        end
  end.


End URLValidator.

(** ** [src/crawler/utils/deduplication.py] *)

Module DeduplicationResult.
Record t := mk {
  is_duplicate : bool;
  hash_value : string;
  normalized_url : string;
  reason : option string
}.
End DeduplicationResult.

(** The two packages the deduplicator imports, [mmh3] and [pybloom_live],
    are not part of the repository: the deduplicator is stated over any
    implementation of their interface.  A call that raises leaves the filter
    object as it was. *)
Class Libraries := {
  (** [mmh3.hash128(s)], an unsigned 128-bit integer *)
  hash128 : string -> Exception + N;
  (** whether [from pybloom_live import ScalableBloomFilter] succeeds *)
  pybloom_installed : bool;
  ScalableBloomFilter : Type;
  (** the type of [error_rate], a float *)
  error_rate : Type;
  (** the literal [0.01] *)
  rate_0_01 : error_rate;
  (** [ScalableBloomFilter(initial_capacity, error_rate, mode)] *)
  bloom_new : Z -> error_rate -> ScalableBloomFilter;
  (** [s in bf] *)
  bloom_contains : string -> ScalableBloomFilter -> Exception + bool;
  (** [bf.add(s)] *)
  bloom_add : string -> ScalableBloomFilter -> Exception + ScalableBloomFilter
}.

Module URLDeduplicator.
Import UrllibParse.

Record Stats := mkStats {
  total_urls : Z;
  duplicates : Z;
  unique_urls : Z;
  cache_evictions : Z
}.

Section WithLibraries.
Context `{L : Libraries}.

(** the attributes of a [URLDeduplicator]; [bloom_filter] is [None] while
    the attribute has not been set *)
Record State := mkState {
  seen_urls : gset string;
  url_frequency : list (string * Z);
  max_cache_size : Z;
  stats : Stats;
  use_bloom_filter : bool;
  bloom_filter : option ScalableBloomFilter
}.

(** *** Updates of single attributes *)

Definition set_seen_urls (v : gset string) (self : State) : State :=
  mkState v (url_frequency self) (max_cache_size self) (stats self)
          (use_bloom_filter self) (bloom_filter self).
Definition set_url_frequency (v : list (string * Z)) (self : State) : State :=
  mkState (seen_urls self) v (max_cache_size self) (stats self)
          (use_bloom_filter self) (bloom_filter self).
Definition set_stats (v : Stats) (self : State) : State :=
  mkState (seen_urls self) (url_frequency self) (max_cache_size self) v
          (use_bloom_filter self) (bloom_filter self).
Definition set_use_bloom_filter (v : bool) (self : State) : State :=
  mkState (seen_urls self) (url_frequency self) (max_cache_size self) (stats self)
          v (bloom_filter self).
Definition set_bloom_filter (v : option ScalableBloomFilter) (self : State) : State :=
  mkState (seen_urls self) (url_frequency self) (max_cache_size self) (stats self)
          (use_bloom_filter self) v.

Definition incr_total_urls (st : Stats) : Stats :=
  mkStats (total_urls st + 1) (duplicates st) (unique_urls st) (cache_evictions st).
Definition incr_duplicates (st : Stats) : Stats :=
  mkStats (total_urls st) (duplicates st + 1) (unique_urls st) (cache_evictions st).
Definition incr_unique_urls (st : Stats) : Stats :=
  mkStats (total_urls st) (duplicates st) (unique_urls st + 1) (cache_evictions st).
Definition incr_cache_evictions (st : Stats) : Stats :=
  mkStats (total_urls st) (duplicates st) (unique_urls st) (cache_evictions st + 1).

(** *** The frequency dict, in insertion order *)

(** [d[k] = v] *)
Fixpoint dict_set (k : string) (v : Z) (d : list (string * Z)) : list (string * Z) :=
  match d with
  | [] => [(k, v)]
  | (k', v') :: d' =>
      if String.eqb k k' then (k', v) :: d' else (k', v') :: dict_set k v d'
  end.

(** [d.get(k, default)] *)
Fixpoint dict_get (k : string) (default : Z) (d : list (string * Z)) : Z :=
  match d with
  | [] => default
  | (k', v') :: d' => if String.eqb k k' then v' else dict_get k default d'
  end.

(** *** The monad of the method bodies *)

Definition M (A : Type) : Type := State -> (Exception + A) * State.

Definition ret {A} (a : A) : M A := fun self => (inr a, self).
Definition bind {A B} (m : M A) (k : A -> M B) : M B :=
  fun self =>
    match m self with
    | (inr a, self') => k a self'
    | (inl e, self') => (inl e, self')
    end.
Definition lift {A} (r : Exception + A) : M A := fun self => (r, self).
Definition get : M State := fun self => (inr self, self).
Definition modify (f : State -> State) : M unit := fun self => (inr tt, f self).

Notation "x <- c1 ;; c2" := (bind c1 (fun x => c2))
  (at level 100, c1 at next level, right associativity).
Notation "c1 ;; c2" := (bind c1 (fun _ => c2))
  (at level 100, right associativity).

(** *** Methods *)

(** [_initialize_bloom_filter]: an [ImportError] switches the filter off *)
Definition _initialize_bloom_filter (size : Z) (fp_rate : error_rate) (self : State) : State :=
  if pybloom_installed
  then set_bloom_filter (Some (bloom_new size fp_rate)) self
  else set_use_bloom_filter false self.

(** [__init__] *)
Definition init (max_cache_size : Z) (use_bloom_filter : bool)
    (bloom_filter_size : Z) (bloom_filter_fp_rate : error_rate) : State :=
  let self := mkState ∅ [] max_cache_size (mkStats 0 0 0 0) use_bloom_filter None in
  if use_bloom_filter
  then _initialize_bloom_filter bloom_filter_size bloom_filter_fp_rate self
  else self.

(** [URLDeduplicator()] with the default arguments *)
Definition init_default : State := init 1000000 true 10000000 rate_0_01.

Definition hex_digit (n : N) : ascii :=
  if (n <? 10)%N then Str.chr (48 + n) else Str.chr (87 + n).

Fixpoint hex_pos (p : positive) (fuel : nat) (acc : string) : string :=
  match fuel with
  | O => acc
  | S fuel' =>
      let acc' := String (hex_digit (Npos p mod 16)) acc in
      match (Npos p / 16)%N with
      | N0 => acc'
      | Npos q => hex_pos q fuel' acc'
      end
  end.

(** [hex(n)[2:]] for [n >= 0] *)
Definition hex_tail (n : N) : string :=
  match n with
  | N0 => "0"
  | Npos p => hex_pos p (Pos.to_nat (Pos.size p)) ""
  end.

(** [_compute_url_hash] *)
Definition _compute_url_hash (url : string) : Exception + string :=
  match hash128 url with
  | inl e => inl e
  | inr n => inr (hex_tail n)
  end.

(** [_should_evict_cache] *)
Definition _should_evict_cache (self : State) : bool :=
  max_cache_size self <=? Z.of_nat (size (seen_urls self)).

(** [sorted(items, key=lambda x: x[1], reverse=True)]: a stable sort, so
    items of equal frequency keep their order *)
Fixpoint insert_desc (x : string * Z) (l : list (string * Z)) : list (string * Z) :=
  match l with
  | [] => [x]
  | y :: l' => if snd x <? snd y then y :: insert_desc x l' else x :: l
  end.
Definition sorted_by_frequency (items : list (string * Z)) : list (string * Z) :=
  foldr insert_desc [] items.

(** the float nearest to an [int] [n >= 0], itself an integer: [n] cut to
    53 significant bits, rounded to nearest, ties to even *)
Definition round53 (n : Z) : Z :=
  let bits := Z.log2 n + 1 in
  if bits <=? 53 then n
  else
    let sh := bits - 53 in
    let q := Z.shiftr n sh in
    let r := Z.land n (Z.ones sh) in
    let half := Z.shiftl 1 (sh - 1) in
    let q := if (half <? r) || ((r =? half) && Z.odd q) then q + 1 else q in
    Z.shiftl q sh.

(** the conversion of an [int] operand of a float product *)
Definition float_of_int (m : Z) : Exception + Z :=
  let x := round53 (Z.abs m) in
  if 2 ^ 1024 <=? x then inl (OverflowError "int too large to convert to float")
  else inr (Z.sgn m * x).

(** [int(max_cache_size * 0.75)]: the bound is converted to a float, the
    product (three quarters of it) is rounded to a float, and [int]
    truncates towards zero *)
Definition keep_count (max_cache_size : Z) : Exception + Z :=
  match float_of_int max_cache_size with
  | inl e => inl e
  | inr x => inr (Z.quot (Z.sgn x * round53 (3 * Z.abs x)) 4)
  end.

(** [l[:k]] *)
Definition slice_to {A} (k : Z) (l : list A) : list A :=
  if 0 <=? k then take (Z.to_nat k) l
  else take (length l - Z.to_nat (- k)) l.

(** [_evict_cache] *)
Definition _evict_cache : M unit :=
  self <- get ;;
  if negb (_should_evict_cache self) then ret tt
  else
    let sorted_urls := sorted_by_frequency (url_frequency self) in
    k <- lift (keep_count (max_cache_size self)) ;;
    let urls_to_keep : gset string := list_to_set (map fst (slice_to k sorted_urls)) in
    modify (set_seen_urls urls_to_keep) ;;
    modify (fun self =>
      set_url_frequency
        (filter (fun kv => bool_decide (fst kv ∈ urls_to_keep)) (url_frequency self)) self) ;;
    modify (fun self => set_stats (incr_cache_evictions (stats self)) self).

(** [tracking_params] of [_normalize_query_parameters] *)
Definition tracking_params : list string :=
  ["utm_source"; "utm_medium"; "utm_campaign"; "fbclid"; "ref"].

(** [_normalize_query_parameters] *)
Definition _normalize_query_parameters (url : string) : Exception + string :=
  match urlparse url with
  | inl e => inl e
  | inr parsed =>
      let query_params := Query.parse_qs (query parsed) true in
      let query_params := fold_left (fun d p => Query.dict_pop p d) tracking_params query_params in
      match query_params with
      | _ :: _ =>
          let normalized_query := Query.urlencode (Query.sorted_items query_params) in
          inr (scheme parsed +:+ "://" +:+ netloc parsed +:+ path parsed
               +:+ "?" +:+ normalized_query)
      | [] => inr (scheme parsed +:+ "://" +:+ netloc parsed +:+ path parsed)
      end
  end.

(** the filter branch of [is_duplicate]: [Some r] when it returns [r] *)
Definition bloom_fast_path (normalized_url url_hash : string)
  : M (option DeduplicationResult.t) :=
  self <- get ;;
  if use_bloom_filter self then
    bf <- lift (match bloom_filter self with
                | Some bf => inr bf
                | None => inl (AttributeError
                    "'URLDeduplicator' object has no attribute 'bloom_filter'")
                end) ;;
    present <- lift (bloom_contains normalized_url bf) ;;
    if negb present then
      bf' <- lift (bloom_add normalized_url bf) ;;
      modify (set_bloom_filter (Some bf')) ;;
      modify (fun self => set_seen_urls ({[url_hash]} ∪ seen_urls self) self) ;;
      modify (fun self => set_url_frequency (dict_set url_hash 1 (url_frequency self)) self) ;;
      modify (fun self => set_stats (incr_unique_urls (stats self)) self) ;;
      ret (Some (DeduplicationResult.mk false url_hash normalized_url None))
    else ret None
  else ret None.

(** the body of the [try] block of [is_duplicate] *)
Definition is_duplicate_try (url : string) : M DeduplicationResult.t :=
  modify (fun self => set_stats (incr_total_urls (stats self)) self) ;;
  match URLNormalizer.normalize url with
  | None | Some EmptyString =>
      ret (DeduplicationResult.mk true "" url (Some "Invalid URL format"))
  | Some normalized_url =>
      normalized_url <- lift (_normalize_query_parameters normalized_url) ;;
      url_hash <- lift (_compute_url_hash normalized_url) ;;
      fast <- bloom_fast_path normalized_url url_hash ;;
      match fast with
      | Some result => ret result
      | None =>
          self <- get ;;
          if bool_decide (url_hash ∈ seen_urls self) then
            modify (fun self =>
              set_url_frequency
                (dict_set url_hash (dict_get url_hash 0 (url_frequency self) + 1)
                          (url_frequency self)) self) ;;
            modify (fun self => set_stats (incr_duplicates (stats self)) self) ;;
            ret (DeduplicationResult.mk true url_hash normalized_url (Some "Exact duplicate"))
          else
            modify (fun self => set_seen_urls ({[url_hash]} ∪ seen_urls self) self) ;;
            modify (fun self => set_url_frequency (dict_set url_hash 1 (url_frequency self)) self) ;;
            modify (fun self => set_stats (incr_unique_urls (stats self)) self) ;;
            _evict_cache ;;
            ret (DeduplicationResult.mk false url_hash normalized_url None)
      end
  end.

(** [is_duplicate]: the [except] branch turns a raise into a result *)
Definition is_duplicate (url : string) (self : State) : DeduplicationResult.t * State :=
  match is_duplicate_try url self with
  | (inr result, self') => (result, self')
  | (inl e, self') =>
      (DeduplicationResult.mk true "" url (Some ("Error: " +:+ exc_str e)), self')
  end.

(** [clear_cache] *)
Definition clear_cache (self : State) : State :=
  let self := set_seen_urls ∅ self in
  let self := set_url_frequency [] self in
  let self := if use_bloom_filter self
              then _initialize_bloom_filter 10000000 rate_0_01 self
              else self in
  set_stats (incr_cache_evictions (stats self)) self.

(** [add_batch]: [[self.is_duplicate(url) for url in urls]] *)
Fixpoint add_batch (urls : list string) (self : State)
  : list DeduplicationResult.t * State :=
  match urls with
  | [] => ([], self)
  | url :: urls' =>
      let '(r, self') := is_duplicate url self in
      let '(rs, self'') := add_batch urls' self' in
      (r :: rs, self'')
  end.

(** [get_stats], without the timestamp *)
Definition get_stats (self : State) : Stats * Z :=
  (stats self, Z.of_nat (size (seen_urls self))).

End WithLibraries.
End URLDeduplicator.

(** ** Reference implementations of the external interfaces

    Used to run the validator and the deduplicator on concrete URLs: a filter
    that stores its keys exactly (an approximate filter that never errs), a
    polynomial hash on 128 bits, and an extractor that takes the last two
    labels of the host. *)

Module Reference.

Definition poly_hash128 (s : string) : Exception + N :=
  inr (fold_left (fun h c => ((h * 257 + Str.ord c) mod 2 ^ 128)%N)
                 (list_ascii_of_string s) 0%N).

#[export] Instance libraries : Libraries := {|
  hash128 := poly_hash128;
  pybloom_installed := true;
  ScalableBloomFilter := list string;
  error_rate := unit;
  rate_0_01 := tt;
  bloom_new := fun _ _ => [];
  bloom_contains := fun s bf => inr (Str.In_list s bf);
  bloom_add := fun s bf => inr (s :: bf)
|}.

Definition host_labels (url : string) : list string :=
  match UrllibParse.urlparse url with
  | inr parsed =>
      let hostport := match Str.rpartition "@" (UrllibParse.netloc parsed) with
                      | Some (_, h) => h
                      | None => UrllibParse.netloc parsed
                      end in
      Str.split "." (List.hd "" (Str.split ":" hostport))
  | inl _ => []
  end.

#[export] Instance tldextract : URLValidator.Tldextract := {|
  URLValidator.extract := fun url =>
    match rev (host_labels url) with
    | suffix :: domain :: sub =>
        inr (URLValidator.mkExtract (Str.join "." (rev sub)) domain suffix)
    | [domain] => inr (URLValidator.mkExtract "" domain "")
    | [] => inr (URLValidator.mkExtract "" "" "")
    end
|}.

(** a URL of 2001 characters *)
Definition long_url : string :=
  "http://example.com/" +:+ string_of_list_ascii (repeat "a"%char 1982).

End Reference.

(** ** The order of the emitted query parameters *)

(** names in ascending order, byte by byte *)
Definition key_le (x y : string * list string) : Prop := String.le (fst x) (fst y).

(** ** Notions used to state the properties of the normalizer *)

Module Shape.
Import UrllibParse.

(** neither TAB, CR nor LF: what [urlsplit] leaves in a URL *)
Definition not_ws (c : ascii) : bool :=
  negb (Str.char_eqb c TAB) && negb (Str.char_eqb c CR) && negb (Str.char_eqb c LF).

(** a character that can stand in a netloc *)
Definition host_ok (c : ascii) : bool := negb (Str.mem c "/?#") && not_ws c.

(** a character that can stand in a path *)
Definition path_ok (c : ascii) : bool := negb (Str.mem c "?#") && not_ws c.

(** a character of an encoded query: unreserved, or one of [%+=&] *)
Definition query_ok (c : ascii) : bool := Query.always_safe c || Str.mem c "%+=&".

(** a scheme as [urlsplit] returns it: empty, or lower-case and accepted by
    the scheme test *)
Definition scheme_wf (s : string) : Prop :=
  s = "" \/ (is_scheme_prefix s = true /\ Str.lower s = s).

(** a text that [urlsplit] reads as it stands: it does not begin with a
    character that is stripped, and what precedes its first colon is not a
    scheme *)
Definition headless (p : string) : Prop :=
  match p with
  | EmptyString => True
  | String c _ => is_c0_control_or_space c = false
  end
  /\ forall pre post, Str.partition ":" p = Some (pre, post) -> is_scheme_prefix pre = false.

(** the path that [urlunsplit] writes for [url] after a netloc *)
Definition rooted (url : string) : string :=
  if negb (String.eqb url "") && negb (String.eqb (Str.take 1 url) "/")
  then "/" +:+ url else url.

(** [urlunsplit] writes the two slashes *)
Definition writes_netloc (scheme netloc url : string) : bool :=
  negb (String.eqb netloc "")
  || (negb (String.eqb scheme "") && Str.In_list scheme uses_netloc
      && negb (String.eqb (Str.take 2 url) "//")).

(** what [urlunsplit] writes after the scheme, for an empty fragment *)
Definition body (s h p q : string) : string :=
  (if writes_netloc s h p then "//" +:+ h +:+ rooted p else p)
  +:+ (if String.eqb q "" then "" else String "?" q).

(** the path that is read back from [body s h p q] *)
Definition path_written (s h p : string) : string :=
  if writes_netloc s h p then rooted p else p.

(** the escape [%XX] of a byte *)
Definition percent (c : ascii) : string :=
  String "%" (String (Query.hexdig_upper (Str.ord c / 16))
                (String (Query.hexdig_upper (Str.ord c mod 16)) "")).

(** what [quote_plus] writes for one byte *)
Definition encode_char (c : ascii) : string :=
  if Query.always_safe c then String c ""
  else if Str.char_eqb c " " then "+"
  else percent c.

(** [quote_plus], byte by byte *)
Fixpoint encode (s : string) : string :=
  match s with
  | EmptyString => EmptyString
  | String c s' => encode_char c +:+ encode s'
  end.

(** one field [name=value] of an encoded query *)
Definition field (kv : string * string) : string :=
  encode (fst kv) +:+ "=" +:+ encode (snd kv).

(** a character of [encode s] *)
Definition encoded_ok (c : ascii) : bool := Query.always_safe c || Str.mem c "%+".

(** well-formed UTF-8: the decoder leaves the bytes as they are *)
Definition utf8_valid (s : string) : Prop := Query.decode_replace s = s.

(** the (name, value) pairs of a dict of lists, in order *)
Definition pairs_of (d : Query.pydict) : list (string * string) :=
  concat (map (fun kv => map (fun v => (fst kv, v)) (snd kv)) d).

(** a dict as [parse_qs(qs)] builds it: every name once, every list
    non-empty, every value non-empty, names and values well-formed *)
Definition dict_wf (d : Query.pydict) : Prop :=
  NoDup (map fst d)
  /\ Forall (fun kv => utf8_valid (fst kv) /\ snd kv <> []
                       /\ Forall (fun v => v <> "" /\ utf8_valid v) (snd kv)) d.

End Shape.

(** ** Notions used to state the properties of the deduplicator *)

Module Behaviour.
Import URLDeduplicator.

(** the keys of the frequency dict *)
Definition keys (d : list (string * Z)) : list string := map fst d.

(** the order of [sorted_by_frequency]: descending frequency *)
Definition freq_ge (x y : string * Z) : Prop := snd y <= snd x.

Section WithLibraries.
Context `{L : Libraries}.

(** the membership cache and the frequency table cover the same keys, the
    dict has each key once, and every frequency is positive *)
Definition cache_invariant (self : State) : Prop :=
  (forall h, h ∈ seen_urls self <-> h ∈ keys (url_frequency self))
  /\ NoDup (keys (url_frequency self))
  /\ Forall (fun kv => 0 < snd kv) (url_frequency self).

(** the operations a client can apply to a deduplicator *)
Inductive operation :=
| IsDuplicate (url : string)
| AddBatch (urls : list string)
| ClearCache
| EvictCache.

(** one operation: the results it returns and the state it leaves *)
Definition apply (op : operation) (self : State) : list DeduplicationResult.t * State :=
  match op with
  | IsDuplicate url => let '(r, self') := is_duplicate url self in ([r], self')
  | AddBatch urls => add_batch urls self
  | ClearCache => ([], clear_cache self)
  | EvictCache => ([], snd (_evict_cache self))
  end.

(** a sequence of operations, with all the results in order *)
Fixpoint run (ops : list operation) (self : State) : list DeduplicationResult.t * State :=
  match ops with
  | [] => ([], self)
  | op :: ops' =>
      let '(rs, self') := apply op self in
      let '(rs', self'') := run ops' self' in
      (rs ++ rs', self'')
  end.




(** the items that an eviction retains when it keeps [k] of them *)
Definition kept (k : Z) (self : State) : list (string * Z) :=
  slice_to k (sorted_by_frequency (url_frequency self)).

(** the state after an eviction that keeps [k] items *)
Definition evicted (k : Z) (self : State) : State :=
  let urls_to_keep : gset string := list_to_set (keys (kept k self)) in
  let self := set_seen_urls urls_to_keep self in
  let self :=
    set_url_frequency
      (filter (fun kv => bool_decide (fst kv ∈ urls_to_keep)) (url_frequency self)) self in
  set_stats (incr_cache_evictions (stats self)) self.

(** a bound that the float product of [_evict_cache] can take *)
Definition float_range (m : Z) : Prop := - 2 ^ 1023 < m < 2 ^ 1023.

(** the state after [total_urls += 1] *)
Definition counted (self : State) : State :=
  set_stats (incr_total_urls (stats self)) self.

(** the state after the three statements that record a new key *)
Definition recorded (url_hash : string) (self : State) : State :=
  let self := set_seen_urls ({[url_hash]} ∪ seen_urls self) self in
  let self := set_url_frequency (dict_set url_hash 1 (url_frequency self)) self in
  set_stats (incr_unique_urls (stats self)) self.

(** the state after the two statements that count a repeat *)
Definition repeated (url_hash : string) (self : State) : State :=
  let self :=
    set_url_frequency
      (dict_set url_hash (dict_get url_hash 0 (url_frequency self) + 1)
                (url_frequency self)) self in
  set_stats (incr_duplicates (stats self)) self.

(** the canonical string and key that [is_duplicate] computes for [url] *)
Definition canonical (url : string) : Exception + (string * string) :=
  match URLNormalizer.normalize url with
  | None | Some EmptyString => inl (ValueError "Invalid URL format")
  | Some normalized_url =>
      match _normalize_query_parameters normalized_url with
      | inl e => inl e
      | inr normalized_url =>
          match _compute_url_hash normalized_url with
          | inl e => inl e
          | inr url_hash => inr (normalized_url, url_hash)
          end
      end
  end.

(** the filter is switched off, or it reports [n] as possibly seen *)
Definition falls_through (n : string) (self : State) : Prop :=
  use_bloom_filter self = false
  \/ exists bf, use_bloom_filter self = true /\ bloom_filter self = Some bf
                /\ bloom_contains n bf = inr true.

(** The six ways a call of [is_duplicate] can end. *)
Inductive outcome (url : string) (self : State) : DeduplicationResult.t -> State -> Prop :=
| outcome_invalid :
    canonical url = inl (ValueError "Invalid URL format") ->
    outcome url self
      (DeduplicationResult.mk true "" url (Some "Invalid URL format"))
      (counted self)
| outcome_error (e : Exception) :
    fst (is_duplicate_try url self) = inl e ->
    outcome url self
      (DeduplicationResult.mk true "" url (Some ("Error: " +:+ exc_str e)))
      (counted self)
| outcome_overflow (n h : string) (e : Exception) :
    canonical url = inr (n, h) ->
    falls_through n self ->
    h ∉ seen_urls self ->
    fst (_evict_cache (recorded h (counted self))) = inl e ->
    outcome url self
      (DeduplicationResult.mk true "" url (Some ("Error: " +:+ exc_str e)))
      (recorded h (counted self))
| outcome_filter_new (n h : string) (bf bf' : ScalableBloomFilter) :
    canonical url = inr (n, h) ->
    use_bloom_filter self = true ->
    bloom_filter self = Some bf ->
    bloom_contains n bf = inr false ->
    bloom_add n bf = inr bf' ->
    outcome url self
      (DeduplicationResult.mk false h n None)
      (recorded h (set_bloom_filter (Some bf') (counted self)))
| outcome_repeat (n h : string) :
    canonical url = inr (n, h) ->
    falls_through n self ->
    h ∈ seen_urls self ->
    outcome url self
      (DeduplicationResult.mk true h n (Some "Exact duplicate"))
      (repeated h (counted self))
| outcome_new (n h : string) :
    canonical url = inr (n, h) ->
    falls_through n self ->
    h ∉ seen_urls self ->
    fst (_evict_cache (recorded h (counted self))) = inr tt ->
    outcome url self
      (DeduplicationResult.mk false h n None)
      (snd (_evict_cache (recorded h (counted self)))).

(** The external packages behave: hashing and the filter do not raise, a new
    filter is empty, and a key that was added is reported present. *)
Class LibrariesOK : Prop := {
  hash128_total : forall s, exists n, hash128 s = inr n;
  bloom_contains_total : forall s bf, exists b, bloom_contains s bf = inr b;
  bloom_add_total : forall s bf, exists bf', bloom_add s bf = inr bf';
  bloom_new_empty : forall size rate s, bloom_contains s (bloom_new size rate) = inr false;
  bloom_no_false_negative :
    forall s bf bf', bloom_add s bf = inr bf' -> bloom_contains s bf' = inr true
}.

End WithLibraries.
End Behaviour.

(** ** [src/crawler/middleware/user_agent.py]

    The Scrapy request is left out: [process_request] returns the value it
    stores in [request.headers['User-Agent']].  A user agent is an
    [option string], [None] being Python's [None] (what
    [config.get('custom_agent')] gives for an absent key).  A call that
    raises [IndexError] returns [None]. *)

Module UserAgentMiddleware.

(** the four keys of [config] that [__init__] reads; [None] for a key that
    is absent *)
Record Config := mkConfig {
  cfg_mode : option string;
  cfg_custom_agent : option string;
  cfg_rotate_list : option (list string);
  cfg_use_common_browsers : option bool
}.

Record State := mkState {
  mode : string;
  custom_agent : option string;
  rotate_list : list string;
  use_common_browsers : bool;
  user_agents : list (option string);
  current_index : nat
}.

Definition COMMON_BROWSERS : list string :=
  ["Mozilla/5.0 (Windows NT 10.0; Win64; x64) AppleWebKit/537.36 (KHTML, like Gecko) Chrome/119.0.0.0 Safari/537.36";
   "Mozilla/5.0 (Macintosh; Intel Mac OS X 10_15_7) AppleWebKit/605.1.15 (KHTML, like Gecko) Version/17.0 Safari/605.1.15";
   "Mozilla/5.0 (Windows NT 10.0; Win64; x64; rv:109.0) Gecko/20100101 Firefox/119.0"].

(** [_build_user_agent_list] *)
Definition _build_user_agent_list (mode : string) (custom_agent : option string)
    (rotate_list : list string) (use_common_browsers : bool) : list (option string) :=
  if String.eqb mode "single" then [custom_agent]
  else
    let ua_list := [] in
    let ua_list := match rotate_list with
                   | [] => ua_list
                   | _ :: _ => ua_list ++ map Some rotate_list
                   end in
    let ua_list := if use_common_browsers
                   then ua_list ++ map Some COMMON_BROWSERS
                   else ua_list in
    match ua_list with
    | [] => [custom_agent]
    | _ :: _ => ua_list
    end.

(** [__init__] *)
Definition init (config : Config) : State :=
  let mode := default "single" (cfg_mode config) in
  let custom_agent := cfg_custom_agent config in
  let rotate_list := default [] (cfg_rotate_list config) in
  let use_common_browsers := default true (cfg_use_common_browsers config) in
  mkState mode custom_agent rotate_list use_common_browsers
          (_build_user_agent_list mode custom_agent rotate_list use_common_browsers) 0.

(** [random.choice(seq)]: [seq[k]] for the number [k] that the generator
    draws below [len(seq)] *)
Definition choice {A} (seq : list A) (k : nat) : option A := seq !! k.

(** [process_request]; [k] is the number drawn when the mode is [random] *)
Definition process_request (k : nat) (self : State) : option (option string * State) :=
  if String.eqb (mode self) "random" then
    match choice (user_agents self) k with
    | Some user_agent => Some (user_agent, self)
    | None => None
    end
  else if String.eqb (mode self) "rotate" then
    match user_agents self !! current_index self with
    | Some user_agent =>
        Some (user_agent,
              mkState (mode self) (custom_agent self) (rotate_list self)
                      (use_common_browsers self) (user_agents self)
                      ((current_index self + 1) mod length (user_agents self)))
    | None => None
    end
  else
    match user_agents self !! 0%nat with
    | Some user_agent => Some (user_agent, self)
    | None => None
    end.

(** the requests of a spider, one after the other: the user agents they are
    given, in order *)
Fixpoint process_requests (ks : list nat) (self : State)
  : option (list (option string) * State) :=
  match ks with
  | [] => Some ([], self)
  | k :: ks' =>
      match process_request k self with
      | None => None
      | Some (ua, self') =>
          match process_requests ks' self' with
          | None => None
          | Some (uas, self'') => Some (ua :: uas, self'')
          end
      end
  end.

End UserAgentMiddleware.

(** ** [src/crawler/middleware/proxy.py]

    The request and the response are left out but for what the middleware
    reads and writes: the status of the response, and the proxy stored in
    [request.meta['proxy']]. *)

Module RotateProxyMiddleware.

Record State := mkState {
  proxies : list string;
  current_proxy : option string
}.

(** [__init__] *)
Definition init (proxy_list : list string) : State := mkState proxy_list None.

(** [from_crawler]: [None] stands for [NotConfigured]; the argument is the
    setting [PROXY_LIST], [None] when it is not set *)
Definition from_crawler (setting : option (list string)) : option State :=
  match setting with
  | None | Some [] => None
  | Some proxy_list => Some (init proxy_list)
  end.

(** [process_request]: the proxy stored in the request, if any; [k] is the
    number that [random.choice] draws *)
Definition process_request (k : nat) (self : State) : option (option string * State) :=
  match proxies self with
  | [] => Some (None, self)
  | _ :: _ =>
      match UserAgentMiddleware.choice (proxies self) k with
      | Some proxy => Some (Some proxy, mkState (proxies self) (Some proxy))
      | None => None
      end
  end.

(** [l.remove(x)]: the first occurrence goes *)
Fixpoint remove_first (x : string) (l : list string) : list string :=
  match l with
  | [] => []
  | y :: l' => if String.eqb x y then l' else y :: remove_first x l'
  end.

(** what [process_response] returns: the response, or the request to be
    scheduled again *)
Inductive Returned := Response | Request.

(** [process_response] *)
Definition process_response (status : Z) (self : State) : Returned * State :=
  if (status =? 403) || (status =? 429) then
    match current_proxy self with
    | Some proxy =>
        if Str.In_list proxy (proxies self)
        then (Request, mkState (remove_first proxy (proxies self)) (current_proxy self))
        else (Request, self)
    | None => (Request, self)
    end
  else (Response, self).

(** what the downloader does with the middleware *)
Inductive event :=
| Send (k : nat)
| Receive (status : Z).

(** the proxies given to the requests of a sequence of events, in order *)
Fixpoint run (evs : list event) (self : State) : option (list (option string) * State) :=
  match evs with
  | [] => Some ([], self)
  | Send k :: evs' =>
      match process_request k self with
      | None => None
      | Some (p, self') =>
          match run evs' self' with
          | None => None
          | Some (ps, self'') => Some (p :: ps, self'')
          end
      end
  | Receive status :: evs' => run evs' (snd (process_response status self))
  end.

End RotateProxyMiddleware.

(** ** Notions used to state further properties *)

Module Further.
Import URLDeduplicator Behaviour.

Section WithLibraries.
Context `{L : Libraries}.

(** a deduplicator without the filter whose cache is below the bound [max] *)
Definition below_bound (max : Z) (self : State) : Prop :=
  cache_invariant self /\ use_bloom_filter self = false
  /\ max_cache_size self = max /\ Z.of_nat (size (seen_urls self)) < max.

(** a deduplicator that has counted at least as many new URLs as it holds *)
Definition within_unique (self : State) : Prop :=
  cache_invariant self /\ Z.of_nat (size (seen_urls self)) <= unique_urls (stats self).

End WithLibraries.

(** a character other than [#], TAB, CR and LF *)
Definition no_fragment_char (c : ascii) : bool :=
  negb (Str.char_eqb c "#") && Shape.not_ws c.

(** a character other than [?], [#], TAB, CR and LF *)
Definition no_query_char (c : ascii) : bool :=
  negb (Str.char_eqb c "?") && no_fragment_char c.

(** a character that [lower] leaves as it is *)
Definition no_upper (c : ascii) : bool := negb (Str.char_isupper c).

(** a character other than the colon *)
Definition no_colon (c : ascii) : bool := negb (Str.char_eqb c ":").

(** a digit or one of [a] to [f] *)
Definition lower_hexdigit (c : ascii) : bool :=
  Str.char_isdigit c || ((97 <=? Str.ord c) && (Str.ord c <=? 102))%N.

(** [int(s, 16)] on a string of hexadecimal digits *)
Definition int16 (s : string) : N :=
  fold_left (fun acc c => (acc * 16 + Query.hex_value c)%N) (list_ascii_of_string s) 0%N.

End Further.

(** * Properties *)

Import URLDeduplicator Behaviour.
#[local] Arguments String.append !s1 s2 : simpl nomatch.

(** ** Strings *)

Lemma append_nil_r (s : string) : s +:+ "" = s.
Proof. induction s as [|c s IH]; simpl; [done|]. by rewrite IH. Qed.

Lemma append_assoc (a b c : string) : (a +:+ b) +:+ c = a +:+ b +:+ c.
Proof. induction a as [|x a IH]; simpl; [done|]. by rewrite IH. Qed.

Lemma append_eq_nil (a b : string) : a +:+ b = "" -> a = "" /\ b = "".
Proof. destruct a; simpl; [done|discriminate]. Qed.

Lemma append_cons (c : ascii) (a b : string) : String c a +:+ b = String c (a +:+ b).
Proof. reflexivity. Qed.

Lemma eqb_refl_true (s : string) : String.eqb s s = true.
Proof. apply String.eqb_refl. Qed.

Lemma char_eqb_eq (a b : ascii) : Str.char_eqb a b = true <-> a = b.
Proof. apply Ascii.eqb_eq. Qed.

Lemma char_eqb_neq (a b : ascii) : Str.char_eqb a b = false <-> a <> b.
Proof. apply Ascii.eqb_neq. Qed.

Lemma rstrip_nonempty_or_nil (p : ascii -> bool) (s : string) :
  Str.rstrip p s = "" \/ exists c r, Str.rstrip p s = String c r.
Proof. destruct (Str.rstrip p s); eauto. Qed.

Lemma normalize_path_nonempty (p : string) : URLNormalizer.normalize_path p <> "".
Proof.
  unfold URLNormalizer.normalize_path.
  destruct (String.eqb_spec (Str.rstrip (Str.char_eqb "/") (Str.lower p)) ""); [done|done].
Qed.

Lemma urlunsplit_nonempty scheme netloc url query fragment :
  url <> "" -> UrllibParse.urlunsplit scheme netloc url query fragment <> "".
Proof.
  intros Hurl. unfold UrllibParse.urlunsplit.
  repeat match goal with
  | |- context [if ?b then _ else _] => destruct b
  end; simpl; try done.
  all: intros Habs; repeat (apply append_eq_nil in Habs as [? Habs]); try done.
Qed.

Lemma normalize_nonempty url n : URLNormalizer.normalize url = Some n -> n <> "".
Proof.
  unfold URLNormalizer.normalize, URLNormalizer.normalize_body.
  destruct (UrllibParse.urlparse url) as [e|parsed]; [done|].
  intros [= <-]. unfold UrllibParse.urlunparse. simpl.
  apply urlunsplit_nonempty, normalize_path_nonempty.
Qed.

(** ** Query parameters *)

Lemma In_list_spec (x : string) (l : list string) : Str.In_list x l = true <-> x ∈ l.
Proof.
  unfold Str.In_list. rewrite existsb_exists. split.
  - intros (y & Hin & Heq). apply String.eqb_eq in Heq as ->. by apply list_elem_of_In.
  - intros Hin. exists x. split; [by apply list_elem_of_In|apply String.eqb_refl].
Qed.

Lemma insert_by_key_Permutation x l : Query.insert_by_key x l ≡ₚ x :: l.
Proof.
  induction l as [|y l IH]; simpl; [done|].
  destruct (String.leb (fst x) (fst y)); [done|].
  rewrite IH. apply Permutation_swap.
Qed.

Lemma sorted_items_Permutation d : Query.sorted_items d ≡ₚ d.
Proof.
  induction d as [|x d IH]; simpl; [done|].
  rewrite insert_by_key_Permutation. by rewrite IH.
Qed.

Lemma insert_by_key_sorted x l :
  StronglySorted key_le l -> StronglySorted key_le (Query.insert_by_key x l).
Proof.
  induction 1 as [|y l Hs IH Hall]; simpl.
  - repeat constructor.
  - destruct (String.leb (fst x) (fst y)) eqn:Hle.
    + constructor; [by constructor|].
      assert (key_le x y) as Hxy by (unfold key_le, String.le; by rewrite Hle).
      constructor; [done|].
      eapply Forall_impl; [exact Hall|]. intros z Hyz. unfold key_le in *. by etrans.
    + constructor; [done|].
      rewrite insert_by_key_Permutation. constructor; [|done].
      unfold key_le. destruct (String.le_total (fst x) (fst y)) as [Hxy|Hyx]; [|done].
      unfold String.le in Hxy. rewrite Hle in Hxy. destruct Hxy.
Qed.

Lemma sorted_items_sorted d : StronglySorted key_le (Query.sorted_items d).
Proof.
  induction d as [|x d IH]; simpl; [constructor|]. by apply insert_by_key_sorted.
Qed.



(** ** The frequency dict *)

Lemma elem_of_keys_dict_set h k v d :
  h ∈ keys (dict_set k v d) <-> h = k \/ h ∈ keys d.
Proof.
  unfold keys. induction d as [|[k' v'] d IH]; simpl.
  - rewrite list_elem_of_singleton, elem_of_nil. tauto.
  - destruct (String.eqb_spec k k') as [->|Hne]; simpl.
    + rewrite !elem_of_cons. tauto.
    + rewrite !elem_of_cons, IH. tauto.
Qed.

Lemma dict_set_NoDup k v d : NoDup (keys d) -> NoDup (keys (dict_set k v d)).
Proof.
  unfold keys. induction d as [|[k' v'] d IH]; simpl; intros Hnd.
  - apply NoDup_singleton.
  - destruct (String.eqb_spec k k') as [->|Hne]; simpl; [done|].
    apply NoDup_cons in Hnd as [Hnotin Hnd].
    apply NoDup_cons. split; [|auto].
    intros Hin. apply (elem_of_keys_dict_set k' k v d) in Hin as [Heq|Hin].
    + by apply Hne.
    + exact (Hnotin Hin).
Qed.

Lemma dict_set_Forall (P : string * Z -> Prop) k v d :
  (forall k', P (k', v)) -> Forall P d -> Forall P (dict_set k v d).
Proof.
  intros Hv. induction 1 as [|[k' v'] d Hx Hd IH]; simpl.
  - by repeat constructor.
  - destruct (String.eqb k k'); constructor; auto.
Qed.

Lemma dict_set_length_in k v d : k ∈ keys d -> length (dict_set k v d) = length d.
Proof.
  unfold keys. induction d as [|[k' v'] d IH]; simpl; intros Hin.
  - by apply elem_of_nil in Hin.
  - destruct (String.eqb_spec k k') as [->|Hne]; simpl; [done|].
    apply elem_of_cons in Hin as [?|?]; [congruence|]. by rewrite IH.
Qed.

Lemma dict_set_length_notin k v d : k ∉ keys d -> length (dict_set k v d) = S (length d).
Proof.
  unfold keys. induction d as [|[k' v'] d IH]; simpl; intros Hin; [done|].
  destruct (String.eqb_spec k k') as [->|Hne]; simpl.
  - exfalso. apply Hin. left.
  - rewrite IH; [done|]. intros ?. apply Hin. by right.
Qed.

(** ** Sorting by frequency *)

Lemma insert_desc_Permutation x l : insert_desc x l ≡ₚ x :: l.
Proof.
  induction l as [|y l IH]; simpl; [done|].
  destruct (snd x <? snd y); [|done].
  rewrite IH. apply Permutation_swap.
Qed.

Lemma sorted_by_frequency_Permutation l : sorted_by_frequency l ≡ₚ l.
Proof.
  induction l as [|x l IH]; simpl; [done|].
  rewrite insert_desc_Permutation. by rewrite IH.
Qed.

Lemma insert_desc_sorted x l :
  StronglySorted freq_ge l -> StronglySorted freq_ge (insert_desc x l).
Proof.
  induction 1 as [|y l Hs IH Hall]; simpl.
  - repeat constructor.
  - destruct (Z.ltb_spec (snd x) (snd y)) as [Hlt|Hge].
    + constructor; [done|].
      rewrite insert_desc_Permutation. constructor; [unfold freq_ge; lia|done].
    + constructor; [by constructor|].
      constructor; [done|].
      eapply Forall_impl; [exact Hall|]. unfold freq_ge. intros; simpl in *; lia.
Qed.

Lemma sorted_by_frequency_sorted l : StronglySorted freq_ge (sorted_by_frequency l).
Proof.
  induction l as [|x l IH]; simpl; [constructor|]. by apply insert_desc_sorted.
Qed.

(** a more frequent item precedes a less frequent one, so it is in every
    prefix that holds the less frequent one *)
Lemma sorted_prefix_closed (l : list (string * Z)) n x y :
  StronglySorted freq_ge l -> x ∈ l -> y ∈ take n l -> snd y < snd x -> x ∈ take n l.
Proof.
  intros Hs Hx Hy Hlt.
  rewrite <- (take_drop n l) in Hs, Hx.
  apply elem_of_app in Hx as [Hx|Hx]; [done|].
  pose proof (StronglySorted_app_1_elem_of _ _ _ _ _ Hs Hy Hx) as Hge.
  unfold freq_ge in Hge. lia.
Qed.

Section Dedup.
Context `{L : Libraries}.

Ltac run_body :=
  unfold is_duplicate_try, bloom_fast_path, bind, lift, modify, get, ret;
  repeat case_match; intros; simplify_eq/=.

(** ** Eviction *)

Lemma slice_to_sublist {A} (k : Z) (l : list A) : slice_to k l `sublist_of` l.
Proof. unfold slice_to. destruct (0 <=? k); apply sublist_take. Qed.

Lemma evict_idle self :
  _should_evict_cache self = false -> _evict_cache self = (inr tt, self).
Proof. unfold _evict_cache, bind, get, ret. by intros ->. Qed.

Lemma evict_run self k :
  _should_evict_cache self = true -> keep_count (max_cache_size self) = inr k ->
  _evict_cache self = (inr tt, evicted k self).
Proof. unfold _evict_cache, bind, get, lift, modify. by intros -> ->. Qed.

Lemma evict_raise self e :
  _should_evict_cache self = true -> keep_count (max_cache_size self) = inl e ->
  _evict_cache self = (inl e, self).
Proof. unfold _evict_cache, bind, get, lift. by intros -> ->. Qed.

(** the three ways [_evict_cache] can end *)
Lemma evict_cases self :
  (_should_evict_cache self = false /\ _evict_cache self = (inr tt, self))
  \/ (exists k, _should_evict_cache self = true
                /\ keep_count (max_cache_size self) = inr k
                /\ _evict_cache self = (inr tt, evicted k self))
  \/ (exists e, _should_evict_cache self = true
                /\ keep_count (max_cache_size self) = inl e
                /\ _evict_cache self = (inl e, self)).
Proof.
  destruct (_should_evict_cache self) eqn:He; [|left; split; [done|by apply evict_idle]].
  right. destruct (keep_count (max_cache_size self)) as [e|k] eqn:Hk.
  - right. exists e. by rewrite (evict_raise _ _ He Hk).
  - left. exists k. by rewrite (evict_run _ _ He Hk).
Qed.

Lemma evict_raise_inv self e self' :
  _evict_cache self = (inl e, self') ->
  self' = self /\ keep_count (max_cache_size self) = inl e.
Proof.
  destruct (evict_cases self) as [[_ H]|[(k & _ & _ & H)|(e' & _ & Hk & H)]];
    rewrite H; intros [= <- <-]; by try done.
Qed.

Lemma evict_unit self u self' : _evict_cache self = (inr u, self') -> u = tt.
Proof. by destruct u. Qed.

Lemma kept_sublist k self : kept k self ⊆ url_frequency self.
Proof.
  intros x Hx. unfold kept in Hx.
  eapply elem_of_sublist in Hx; [|apply slice_to_sublist].
  by rewrite sorted_by_frequency_Permutation in Hx.
Qed.

Lemma kept_NoDup k self : NoDup (keys (url_frequency self)) -> NoDup (keys (kept k self)).
Proof.
  intros Hnd. unfold kept, keys.
  assert (fst <$> slice_to k (sorted_by_frequency (url_frequency self))
          `sublist_of` fst <$> sorted_by_frequency (url_frequency self)) as Hsub
    by apply fmap_sublist, slice_to_sublist.
  eapply sublist_NoDup; [|exact Hsub].
  by rewrite sorted_by_frequency_Permutation.
Qed.

Lemma evicted_invariant k self : cache_invariant self -> cache_invariant (evicted k self).
Proof.
  intros (Hdom & Hnd & Hpos). unfold cache_invariant, evicted. cbn.
  split; [|split].
  - intros h. unfold keys at 2. rewrite list_elem_of_fmap. split.
    + intros Hh. pose proof Hh as Hh'.
      apply elem_of_list_to_set, list_elem_of_fmap in Hh' as ([k' v] & -> & Hkv).
      exists (k', v). split; [done|].
      apply list_elem_of_filter. split; [|by apply kept_sublist in Hkv].
      apply Is_true_true, bool_decide_eq_true. exact Hh.
    + intros ([k' v] & -> & Hkv). apply list_elem_of_filter in Hkv as [Hk _].
      by apply Is_true_true, bool_decide_eq_true in Hk.
  - unfold keys at 1. eapply sublist_NoDup; [exact Hnd|].
    apply fmap_sublist, sublist_filter.
  - apply Forall_forall. intros x Hx. apply list_elem_of_filter in Hx as [_ Hx].
    revert x Hx. by apply Forall_forall.
Qed.

Lemma evict_invariant self :
  cache_invariant self -> cache_invariant (snd (_evict_cache self)).
Proof.
  intros Hinv.
  destruct (evict_cases self) as [[_ H]|[(k & _ & _ & H)|(e & _ & _ & H)]];
    rewrite H; simpl; [done| |done].
  by apply evicted_invariant.
Qed.

(** ** The ways a call can end *)

Lemma is_duplicate_try_raise url self e self' :
  is_duplicate_try url self = (inl e, self') ->
  self' = counted self
  \/ (exists n h,
        canonical url = inr (n, h) /\ falls_through n self /\ (h ∉ seen_urls self)
        /\ _evict_cache (recorded h (counted self)) = (inl e, recorded h (counted self))
        /\ self' = recorded h (counted self)).
Proof.
  run_body; try (left; reflexivity).
  all: match goal with
       | He : _evict_cache _ = (inl _, _) |- _ =>
           pose proof (evict_raise_inv _ _ _ He) as [-> _]
       end.
  all: right.
  all: match goal with
       | Hn : URLNormalizer.normalize _ = Some ?n0,
         Hq : _normalize_query_parameters ?n0 = inr ?n,
         Hh : _compute_url_hash ?n = inr ?h |- _ =>
           exists n, h;
           assert (canonical url = inr (n, h)) as Hcan
             by (unfold canonical; rewrite Hn, Hq, Hh; reflexivity)
       end.
  all: repeat match goal with
       | Hb : negb ?b = _ |- _ => destruct b; simpl in Hb; try discriminate; clear Hb
       | Hd : bool_decide _ = false |- _ => apply bool_decide_eq_false in Hd
       end.
  all: repeat split; try done; unfold falls_through; eauto.
Qed.

Lemma is_duplicate_outcome url self :
  outcome url self (fst (is_duplicate url self)) (snd (is_duplicate url self)).
Proof.
  unfold is_duplicate.
  destruct (is_duplicate_try url self) as [[e|r] self'] eqn:Htry; simpl.
  - destruct (is_duplicate_try_raise _ _ _ _ Htry)
      as [->|(n & h & Hcan & Hft & Hnew & Hev & ->)].
    + apply outcome_error. by rewrite Htry.
    + eapply outcome_overflow; eauto. by rewrite Hev.
  - revert Htry. run_body.
    all: try (apply outcome_invalid; unfold canonical;
              match goal with Hn : URLNormalizer.normalize _ = _ |- _ => by rewrite Hn end).
    all: match goal with
         | Hn : URLNormalizer.normalize _ = Some ?n0,
           Hq : _normalize_query_parameters ?n0 = inr ?n,
           Hh : _compute_url_hash ?n = inr ?h |- _ =>
             assert (canonical url = inr (n, h)) as Hcan
               by (unfold canonical; rewrite Hn, Hq, Hh; reflexivity)
         end.
    all: repeat match goal with
         | Hb : negb ?b = _ |- _ => destruct b; simpl in Hb; try discriminate; clear Hb
         | Hd : bool_decide _ = true |- _ => apply bool_decide_eq_true in Hd
         | Hd : bool_decide _ = false |- _ => apply bool_decide_eq_false in Hd
         end.
    all: try match goal with
         | He : _evict_cache ?s = (inr ?u, ?s') |- _ =>
             destruct u;
             assert (fst (_evict_cache s) = inr tt) as Hfst by (by rewrite He);
             replace s' with (snd (_evict_cache s)) by (by rewrite He)
         end.
    all: first [ by eapply outcome_filter_new; eauto
               | by apply outcome_repeat; auto; unfold falls_through; eauto
               | by apply outcome_new; auto; try exact Hfst; unfold falls_through; eauto ].
Qed.

(** ** The invariant of the cache *)

Lemma dict_get_nonneg k d : Forall (fun kv : string * Z => 0 < snd kv) d -> 0 <= dict_get k 0 d.
Proof.
  induction 1 as [|[k' v'] d Hx Hd IH]; simpl; [lia|].
  destruct (String.eqb k k'); simpl in *; lia.
Qed.

Lemma recorded_invariant h self : cache_invariant self -> cache_invariant (recorded h self).
Proof.
  intros (Hdom & Hnd & Hpos). unfold cache_invariant, recorded; simpl.
  split; [|split].
  - intros k. rewrite elem_of_keys_dict_set, elem_of_union, elem_of_singleton, Hdom. tauto.
  - by apply dict_set_NoDup.
  - apply dict_set_Forall; [simpl; lia|done].
Qed.

Lemma repeated_invariant h self :
  h ∈ seen_urls self -> cache_invariant self -> cache_invariant (repeated h self).
Proof.
  intros Hh (Hdom & Hnd & Hpos). unfold cache_invariant, repeated; simpl.
  split; [|split].
  - intros k. rewrite elem_of_keys_dict_set, Hdom. split; [tauto|].
    intros [Hk|Hk]; [rewrite Hk; by apply Hdom|done].
  - by apply dict_set_NoDup.
  - apply dict_set_Forall; [|done].
    intros k'. simpl. pose proof (dict_get_nonneg h _ Hpos). lia.
Qed.

Lemma outcome_invariant url self r self' :
  outcome url self r self' -> cache_invariant self -> cache_invariant self'.
Proof.
  destruct 1; intros Hinv; try done.
  - by apply recorded_invariant.
  - by apply recorded_invariant.
  - by apply repeated_invariant.
  - by apply evict_invariant, recorded_invariant.
Qed.

Lemma is_duplicate_invariant url self :
  cache_invariant self -> cache_invariant (snd (is_duplicate url self)).
Proof. apply outcome_invariant with url (fst (is_duplicate url self)), is_duplicate_outcome. Qed.

Lemma add_batch_invariant urls self :
  cache_invariant self -> cache_invariant (snd (add_batch urls self)).
Proof.
  revert self. induction urls as [|url urls IH]; intros self Hinv; simpl; [done|].
  pose proof (is_duplicate_invariant url self Hinv) as Hstep.
  destruct (is_duplicate url self) as [r self1]; simpl in Hstep.
  specialize (IH self1 Hstep). by destruct (add_batch urls self1).
Qed.

Lemma clear_cache_invariant self : cache_invariant (clear_cache self).
Proof.
  unfold cache_invariant, clear_cache, _initialize_bloom_filter.
  destruct (use_bloom_filter _), pybloom_installed; simpl;
    (split; [intros h; rewrite elem_of_nil, elem_of_empty; tauto | split; constructor]).
Qed.

Lemma init_invariant max use size rate : cache_invariant (init max use size rate).
Proof.
  unfold cache_invariant, init, _initialize_bloom_filter.
  destruct use, pybloom_installed; simpl;
    (split; [intros h; rewrite elem_of_nil, elem_of_empty; tauto | split; constructor]).
Qed.

Lemma apply_invariant op self :
  cache_invariant self -> cache_invariant (snd (apply op self)).
Proof.
  intros Hinv. destruct op as [url|urls| |]; simpl.
  - pose proof (is_duplicate_invariant url self Hinv). by destruct (is_duplicate url self).
  - by apply add_batch_invariant.
  - apply clear_cache_invariant.
  - by apply evict_invariant.
Qed.

Lemma run_invariant ops self :
  cache_invariant self -> cache_invariant (snd (run ops self)).
Proof.
  revert self. induction ops as [|op ops IH]; intros self Hinv; simpl; [done|].
  pose proof (apply_invariant op self Hinv) as Hstep.
  destruct (apply op self) as [rs self1]; simpl in Hstep.
  specialize (IH self1 Hstep). by destruct (run ops self1).
Qed.

(** C9. From construction on, through every [is_duplicate], [add_batch],
    [clear_cache] and eviction, a hash is in [seen_urls] exactly when it is a
    key of [url_frequency] (which holds each key once), and every stored
    frequency is positive. *)
Theorem cache_and_frequency_table_agree max use size rate ops :
  let self := snd (run ops (init max use size rate)) in
  (forall h, h ∈ seen_urls self <-> h ∈ keys (url_frequency self))
  /\ NoDup (keys (url_frequency self))
  /\ Forall (fun kv => 0 < snd kv) (url_frequency self).
Proof. apply run_invariant, init_invariant. Qed.

(** ** What an eviction retains *)

Lemma keys_functional (d : list (string * Z)) k v1 v2 :
  NoDup (keys d) -> (k, v1) ∈ d -> (k, v2) ∈ d -> v1 = v2.
Proof.
  unfold keys. induction d as [|[k' v'] d IH]; simpl; intros Hnd H1 H2.
  - by apply elem_of_nil in H1.
  - apply NoDup_cons in Hnd as [Hnotin Hnd].
    apply elem_of_cons in H1 as [H1|H1]; apply elem_of_cons in H2 as [H2|H2].
    + congruence.
    + exfalso. apply Hnotin. injection H1 as -> ->.
      apply list_elem_of_fmap. by exists (k', v2).
    + exfalso. apply Hnotin. injection H2 as -> ->.
      apply list_elem_of_fmap. by exists (k', v1).
    + by apply IH.
Qed.

Lemma invariant_size self :
  cache_invariant self -> size (seen_urls self) = length (url_frequency self).
Proof.
  intros (Hdom & Hnd & _).
  assert (seen_urls self = list_to_set (keys (url_frequency self))) as ->.
  { apply set_eq. intros h. by rewrite elem_of_list_to_set. }
  rewrite size_list_to_set by done. unfold keys. by rewrite length_fmap.
Qed.

(** *** The float product *)

Lemma round53_small n : 0 <= n < 2 ^ 53 -> round53 n = n.
Proof.
  intros [Hlo Hhi]. unfold round53.
  assert (Z.log2 n + 1 <= 53) as Hbits.
  { destruct (Z.eq_dec n 0) as [->|Hne]; [done|].
    assert (Z.log2 n < 53) by (apply Z.log2_lt_pow2; lia). lia. }
  by apply Z.leb_le in Hbits as ->.
Qed.

Lemma round53_bound n b : 0 <= n < 2 ^ b -> 53 <= b -> round53 n <= 2 ^ b.
Proof.
  intros [Hlo Hhi] Hb. unfold round53.
  destruct (Z.leb_spec (Z.log2 n + 1) 53) as [_|Hbits]; [lia|].
  assert (0 < n) as Hpos.
  { destruct (Z.eq_dec n 0) as [->|]; [|lia]. by rewrite Z.log2_nonpos in Hbits. }
  set (sh := Z.log2 n + 1 - 53) in *.
  assert (0 < sh) as Hsh by lia.
  assert (Z.log2 n < b) as Hlog by (apply Z.log2_lt_pow2; lia).
  destruct (Z.log2_spec n Hpos) as [_ Hup]. rewrite <- Z.add_1_r in Hup.
  assert (2 ^ (Z.log2 n + 1) = 2 ^ sh * 2 ^ 53) as Hsplit.
  { rewrite <- Z.pow_add_r by lia. f_equal. lia. }
  assert (Z.shiftr n sh < 2 ^ 53) as Hq.
  { rewrite Z.shiftr_div_pow2 by lia.
    apply Z.div_lt_upper_bound; [apply Z.pow_pos_nonneg; lia|]. by rewrite <- Hsplit. }
  set (q := Z.shiftr n sh) in *.
  assert ((if (Z.shiftl 1 (sh - 1) <? Z.land n (Z.ones sh))
              || ((Z.land n (Z.ones sh) =? Z.shiftl 1 (sh - 1)) && Z.odd q)
           then q + 1 else q) <= 2 ^ 53) as Hq'.
  { destruct (_ || _); lia. }
  rewrite Z.shiftl_mul_pow2 by lia.
  assert (0 < 2 ^ sh) as Hpow by (apply Z.pow_pos_nonneg; lia).
  assert (2 ^ (Z.log2 n + 1) <= 2 ^ b) as Hmono by (apply Z.pow_le_mono_r; lia).
  rewrite Hsplit in Hmono. nia.
Qed.

Lemma keep_count_in_range m : float_range m -> exists k, keep_count m = inr k.
Proof.
  intros Hm. unfold float_range in Hm. unfold keep_count, float_of_int.
  assert (round53 (Z.abs m) <= 2 ^ 1023) as Hr by (apply round53_bound; lia).
  assert (2 ^ 1023 < 2 ^ 1024) as Hlt by (apply Z.pow_lt_mono_r; lia).
  destruct (Z.leb_spec (2 ^ 1024) (round53 (Z.abs m))) as [Hbig|_]; [lia|].
  by eexists.
Qed.

Lemma keep_count_floor m : 0 <= m < 2 ^ 51 -> keep_count m = inr (3 * m / 4).
Proof.
  intros [Hlo Hhi]. unfold keep_count, float_of_int.
  assert (2 ^ 53 = 4 * 2 ^ 51) as H53 by (change 53 with (2 + 51); by rewrite Z.pow_add_r).
  assert (2 ^ 53 < 2 ^ 1024) as Hlt by (apply Z.pow_lt_mono_r; lia).
  rewrite (Z.abs_eq m), (round53_small m) by lia.
  destruct (Z.leb_spec (2 ^ 1024) m) as [Hbig|_]; [lia|]. f_equal.
  destruct (Z.eq_dec m 0) as [->|Hne]; [done|].
  rewrite (Z.sgn_pos m), Z.mul_1_l, (Z.sgn_pos m), Z.mul_1_l by lia.
  rewrite (Z.abs_eq m), (round53_small (3 * m)) by lia.
  apply Z.quot_div_nonneg; lia.
Qed.

Lemma kept_length self :
  cache_invariant self -> 0 <= max_cache_size self -> _should_evict_cache self = true ->
  Z.of_nat (length (kept (3 * max_cache_size self / 4) self)) = 3 * max_cache_size self / 4.
Proof.
  intros Hinv Hmax He. unfold _should_evict_cache in He. apply Z.leb_le in He.
  rewrite (invariant_size _ Hinv) in He.
  unfold kept, slice_to.
  assert (0 <= 3 * max_cache_size self / 4 <= max_cache_size self) as [Hlo Hhi].
  { split; [apply Z.div_pos; lia|]. apply Z.div_le_upper_bound; lia. }
  destruct (Z.leb_spec 0 (3 * max_cache_size self / 4)) as [_|]; [|lia].
  rewrite length_take_le.
  - lia.
  - rewrite (Permutation_length (sorted_by_frequency_Permutation _)). lia.
Qed.

(** C4. When an eviction takes place (on a cache that agrees with its
    frequency table, with a bound in the range where the float product is
    exact), it retains exactly floor(max_cache_size * 0.75) keys, in the
    membership cache and in the frequency table alike, each with the
    frequency it had; and whenever a key survives, every key of strictly
    higher frequency survives too. *)
Theorem eviction_keeps_the_most_frequent self :
  cache_invariant self ->
  0 <= max_cache_size self < 2 ^ 51 ->
  _should_evict_cache self = true ->
  let self' := snd (_evict_cache self) in
  fst (_evict_cache self) = inr tt
  /\ Z.of_nat (size (seen_urls self')) = 3 * max_cache_size self / 4
  /\ length (url_frequency self') = size (seen_urls self')
  /\ (forall h, h ∈ seen_urls self' <-> h ∈ keys (url_frequency self'))
  /\ (forall h, h ∈ seen_urls self' -> h ∈ seen_urls self)
  /\ (forall kv, kv ∈ url_frequency self' -> kv ∈ url_frequency self)
  /\ (forall h1 f1 h2 f2,
        (h1, f1) ∈ url_frequency self -> (h2, f2) ∈ url_frequency self ->
        f2 < f1 -> h2 ∈ seen_urls self' -> h1 ∈ seen_urls self').
Proof.
  intros Hinv Hmax He self'.
  pose proof (evict_invariant _ Hinv) as Hinv'. fold self' in Hinv'.
  pose proof Hinv as (Hdom & Hnd & Hpos).
  pose proof (evict_run _ _ He (keep_count_floor _ Hmax)) as Hrun.
  set (k := 3 * max_cache_size self / 4) in *.
  assert (Hself : self' = evicted k self) by (unfold self'; by rewrite Hrun).
  assert (Hseen : seen_urls self' = list_to_set (keys (kept k self)))
    by (by rewrite Hself).
  split; [by rewrite Hrun|].
  split; [|split; [|split; [|split; [|split]]]].
  - rewrite Hseen, size_list_to_set by (by apply kept_NoDup).
    unfold keys. rewrite length_fmap. apply kept_length; [done|lia|done].
  - symmetry. by apply invariant_size.
  - apply Hinv'.
  - intros h. rewrite Hseen, elem_of_list_to_set. unfold keys.
    intros ([k' v] & -> & Hkv)%list_elem_of_fmap.
    apply Hdom, list_elem_of_fmap. exists (k', v). split; [done|]. by apply kept_sublist in Hkv.
  - intros kv. rewrite Hself. unfold evicted. cbn.
    by intros [_ Hkv]%list_elem_of_filter.
  - intros h1 f1 h2 f2 H1 H2 Hlt. rewrite Hseen, !elem_of_list_to_set. unfold keys.
    intros ([k' v] & Hk & Hkv)%list_elem_of_fmap. simpl in Hk. subst k'.
    assert (v = f2) as -> by (eapply keys_functional; [exact Hnd| |exact H2];
                               by apply kept_sublist in Hkv).
    apply list_elem_of_fmap. exists (h1, f1). split; [done|].
    unfold kept, slice_to in *.
    assert (0 <= k) by (apply Z.div_pos; lia).
    destruct (Z.leb_spec 0 k); [|lia].
    eapply sorted_prefix_closed; [apply sorted_by_frequency_sorted| |exact Hkv|done].
    by rewrite sorted_by_frequency_Permutation.
Qed.

(** ** The bound is never changed *)

Lemma evict_max self : max_cache_size (snd (_evict_cache self)) = max_cache_size self.
Proof.
  destruct (evict_cases self) as [[_ H]|[(k & _ & _ & H)|(e & _ & _ & H)]];
    by rewrite H.
Qed.





(** ** The counters *)

Lemma evict_counters self :
  total_urls (stats (snd (_evict_cache self))) = total_urls (stats self)
  /\ duplicates (stats (snd (_evict_cache self))) = duplicates (stats self)
  /\ unique_urls (stats (snd (_evict_cache self))) = unique_urls (stats self).
Proof.
  destruct (evict_cases self) as [[_ H]|[(k & _ & _ & H)|(e & _ & _ & H)]];
    by rewrite H.
Qed.














Lemma init_fields max use size rate :
  seen_urls (init max use size rate) = ∅
  /\ url_frequency (init max use size rate) = []
  /\ max_cache_size (init max use size rate) = max.
Proof.
  unfold init, _initialize_bloom_filter.
  by destruct use, pybloom_installed.
Qed.


(** ** Failures leave the cache alone *)


(** ** A URL submitted twice *)

Lemma init_filter_on max use size rate :
  use_bloom_filter (init max use size rate) = true ->
  bloom_filter (init max use size rate) = Some (bloom_new size rate).
Proof.
  unfold init, _initialize_bloom_filter.
  by destruct use, pybloom_installed.
Qed.

(** C2, amended. On a new deduplicator whose filter is in use, or whose
    bound is at least 2, with libraries that behave, an ASCII URL that
    normalises and passes the second query pass is new at its first
    submission and an exact duplicate at its second. *)
Theorem second_submission_is_exact_duplicate `{OK : !LibrariesOK} max use size rate url n0 n :
  Str.isascii url = true ->
  use_bloom_filter (init max use size rate) = true \/ 2 <= max ->
  URLNormalizer.normalize url = Some n0 ->
  _normalize_query_parameters n0 = inr n ->
  exists h,
    _compute_url_hash n = inr h
    /\ fst (is_duplicate url (init max use size rate))
       = DeduplicationResult.mk false h n None
    /\ fst (is_duplicate url (snd (is_duplicate url (init max use size rate))))
       = DeduplicationResult.mk true h n (Some "Exact duplicate").
Proof.
  intros _ Hcfg Hn Hq.
  pose proof (normalize_nonempty _ _ Hn) as Hne.
  destruct (hash128_total n) as [x Hx].
  exists (hex_tail x).
  assert (Hh : _compute_url_hash n = inr (hex_tail x))
    by (unfold _compute_url_hash; by rewrite Hx).
  split; [done|].
  destruct (init_fields max use size rate) as (Hseen & Hfreq & Hmax).
  set (s0 := init max use size rate) in *.
  destruct n0 as [|c n0']; [done|].
  destruct (use_bloom_filter s0) eqn:Huse.
  - pose proof (init_filter_on _ _ _ _ Huse) as Hbf. fold s0 in Hbf.
    destruct (bloom_add_total n (bloom_new size rate)) as [bf' Hadd].
    pose proof (bloom_new_empty size rate n) as Hnew.
    pose proof (bloom_no_false_negative _ _ _ Hadd) as Hpresent.
    assert (is_duplicate url s0
            = (DeduplicationResult.mk false (hex_tail x) n None,
               recorded (hex_tail x) (set_bloom_filter (Some bf') (counted s0)))) as H1.
    { unfold is_duplicate, is_duplicate_try, bloom_fast_path, bind, lift, modify, get, ret.
      rewrite Hn, Hq, Hh. simpl. rewrite Huse, Hbf, Hnew. simpl. by rewrite Hadd. }
    rewrite H1. simpl fst. simpl snd. split; [done|].
    unfold is_duplicate, is_duplicate_try, bloom_fast_path, bind, lift, modify, get, ret.
    rewrite Hn, Hq, Hh. simpl. rewrite Huse, Hpresent. simpl.
    rewrite bool_decide_eq_true_2; [done|].
    by apply elem_of_union_l, elem_of_singleton.
  - destruct Hcfg as [?|Hcfg]; [done|].
    assert (is_duplicate url s0
            = (DeduplicationResult.mk false (hex_tail x) n None,
               recorded (hex_tail x) (counted s0))) as H1.
    { unfold is_duplicate, is_duplicate_try, bloom_fast_path, bind, lift, modify, get, ret.
      rewrite Hn, Hq, Hh. simpl. rewrite Huse. simpl.
      rewrite bool_decide_eq_false_2 by (rewrite Hseen; apply not_elem_of_empty).
      simpl. rewrite evict_idle; [done|].
      unfold _should_evict_cache. simpl.
      rewrite Hseen, Hmax. apply Z.leb_gt.
      rewrite union_empty_r_L, size_singleton. lia. }
    rewrite H1. simpl fst. simpl snd. split; [done|].
    unfold is_duplicate, is_duplicate_try, bloom_fast_path, bind, lift, modify, get, ret.
    rewrite Hn, Hq, Hh. simpl. rewrite Huse. simpl.
    rewrite bool_decide_eq_true_2; [done|].
    by apply elem_of_union_l, elem_of_singleton.
Qed.
End Dedup.

(** ** The validator *)

Lemma lower_rev_onto s acc :
  Str.lower (Str.rev_onto s acc) = Str.rev_onto (Str.lower s) (Str.lower acc).
Proof. revert acc. induction s as [|c s IH]; intros acc; simpl; [done|]. by rewrite IH. Qed.

Lemma startswith_lower p s :
  Str.startswith p s = true -> Str.startswith (Str.lower p) (Str.lower s) = true.
Proof.
  revert s. induction p as [|a p IH]; intros [|b s]; simpl; try done.
  intros [Hab Hps]%andb_true_iff. apply char_eqb_eq in Hab as ->.
  apply andb_true_iff. split; [by apply char_eqb_eq|auto].
Qed.

Lemma endswith_lower p s :
  Str.endswith p s = true -> Str.endswith (Str.lower p) (Str.lower s) = true.
Proof.
  unfold Str.endswith, Str.rev. intros Hps%startswith_lower.
  by rewrite !lower_rev_onto in Hps.
Qed.

Lemma pdf_is_blocked url :
  Str.endswith ".pdf" url = true -> URLValidator.check_extension url = false.
Proof.
  intros Hpdf%endswith_lower. unfold URLValidator.check_extension.
  apply negb_false_iff. simpl. change (Str.lower ".pdf") with ".pdf" in Hpdf.
  unfold URLValidator.skip_extensions. simpl existsb. by rewrite Hpdf.
Qed.

(** C8. On an ASCII URL that [urlparse] accepts, [is_valid_url] applies its
    checks in the declared order and returns the reason of the first that
    fails: [ftp://example.com] has an invalid
    scheme; a URL that passes the format, scheme and domain checks and ends
    in [.pdf] has a blocked extension; one that also passes the extension
    check and is longer than 2000 characters is too long. *)
Theorem checks_in_declared_order `{T : URLValidator.Tldextract} url parsed :
  Str.isascii url = true ->
  UrllibParse.urlparse url = inr parsed ->
  URLValidator.is_valid_url "ftp://example.com"
    = URLValidator.mkValidation false "Invalid scheme"
  /\ (URLValidator.check_format parsed = false ->
      URLValidator.is_valid_url url = URLValidator.mkValidation false "Invalid URL format")
  /\ (URLValidator.check_format parsed = true ->
      URLValidator.check_scheme parsed = false ->
      URLValidator.is_valid_url url = URLValidator.mkValidation false "Invalid scheme")
  /\ (forall ext,
        URLValidator.check_format parsed = true ->
        URLValidator.check_scheme parsed = true ->
        URLValidator.extract url = inr ext ->
        (URLValidator.check_domain ext = false ->
         URLValidator.is_valid_url url = URLValidator.mkValidation false "Blocked domain")
        /\ (URLValidator.check_domain ext = true ->
            Str.endswith ".pdf" url = true ->
            URLValidator.is_valid_url url
              = URLValidator.mkValidation false "Blocked file extension")
        /\ (URLValidator.check_domain ext = true ->
            URLValidator.check_extension url = false ->
            URLValidator.is_valid_url url
              = URLValidator.mkValidation false "Blocked file extension")
        /\ (URLValidator.check_domain ext = true ->
            URLValidator.check_extension url = true ->
            (2000 < String.length url)%nat ->
            URLValidator.is_valid_url url = URLValidator.mkValidation false "URL too long")
        /\ (URLValidator.check_domain ext = true ->
            URLValidator.check_extension url = true ->
            (String.length url <= 2000)%nat ->
            URLValidator.is_valid_url url = URLValidator.mkValidation true "")).
Proof.
  intros _ Hparse. split; [reflexivity|].
  unfold URLValidator.is_valid_url. rewrite Hparse.
  split; [by intros ->|]. split; [by intros -> ->|].
  intros ext -> -> ->. simpl.
  split; [by intros ->|]. split; [intros -> Hpdf; by rewrite (pdf_is_blocked _ Hpdf)|].
  split; [by intros -> ->|].
  unfold URLValidator.check_length.
  split; intros -> -> Hlen; simpl.
  - by rewrite (proj2 (Z.ltb_lt _ _)) by lia.
  - by rewrite (proj2 (Z.ltb_ge _ _)) by lia.
Qed.

(** ** More on strings: membership, [all], splitting *)

Lemma all_app P a b : Str.all P (a +:+ b) = Str.all P a && Str.all P b.
Proof. induction a as [|c a IH]; simpl; [done|]. by rewrite IH, andb_assoc. Qed.

Lemma mem_app c a b : Str.mem c (a +:+ b) = Str.mem c a || Str.mem c b.
Proof. induction a as [|d a IH]; simpl; [done|]. by rewrite IH, orb_assoc. Qed.

Lemma all_impl (P Q : ascii -> bool) s :
  (forall c, P c = true -> Q c = true) -> Str.all P s = true -> Str.all Q s = true.
Proof.
  intros HPQ. induction s as [|c s IH]; simpl; [done|].
  intros [Hc Hs]%andb_true_iff. rewrite (HPQ _ Hc). simpl. auto.
Qed.

Lemma all_mem P c s : Str.all P s = true -> P c = false -> Str.mem c s = false.
Proof.
  intros Hall Hc. induction s as [|d s IH]; simpl in *; [done|].
  apply andb_true_iff in Hall as [Hd Hs]. unfold Str.char_eqb.
  destruct (Ascii.eqb_spec c d) as [->|Hne]; [congruence|]. simpl. auto.
Qed.

Lemma mem_all c s :
  Str.mem c s = false -> Str.all (fun d => negb (Str.char_eqb c d)) s = true.
Proof.
  induction s as [|d s IH]; simpl; [done|].
  intros [Hd Hs]%orb_false_iff. rewrite Hd. simpl. auto.
Qed.

Lemma partition_None c s : Str.partition c s = None <-> Str.mem c s = false.
Proof.
  induction s as [|d s IH]; simpl; [done|].
  destruct (Str.char_eqb c d); simpl; [done|].
  destruct (Str.partition c s) as [[a b]|]; [|tauto].
  split; [done|]. intros H. by apply IH in H.
Qed.

Lemma partition_Some c s a b :
  Str.partition c s = Some (a, b) -> s = a +:+ String c b /\ Str.mem c a = false.
Proof.
  revert a. induction s as [|d s IH]; intros a; simpl; [done|].
  unfold Str.char_eqb. destruct (Ascii.eqb_spec c d) as [->|Hne].
  - by intros [= <- <-].
  - destruct (Str.partition c s) as [[a' b']|]; [|done].
    intros [= <- <-]. destruct (IH a' eq_refl) as [-> Hmem]. simpl.
    split; [done|]. rewrite Hmem. unfold Str.char_eqb.
    by apply Ascii.eqb_neq in Hne as ->.
Qed.

Lemma partition_app c a b :
  Str.mem c a = false -> Str.partition c (a +:+ String c b) = Some (a, b).
Proof.
  induction a as [|d a IH]; simpl.
  - intros _. unfold Str.char_eqb. by rewrite Ascii.eqb_refl.
  - intros [-> Ha]%orb_false_iff. by rewrite IH.
Qed.

Lemma rpartition_None c s : Str.rpartition c s = None <-> Str.mem c s = false.
Proof.
  induction s as [|d s IH]; simpl; [done|].
  destruct (Str.rpartition c s) as [[a b]|].
  - split; [done|]. intros [_ H]%orb_false_iff. by apply IH in H.
  - destruct (Str.char_eqb c d); simpl; [done|]. tauto.
Qed.

Lemma rpartition_Some c s a b :
  Str.rpartition c s = Some (a, b) -> s = a +:+ String c b /\ Str.mem c b = false.
Proof.
  revert a. induction s as [|d s IH]; intros a; simpl; [done|].
  destruct (Str.rpartition c s) as [[a' b']|] eqn:Hr.
  - intros [= <- <-]. destruct (IH a' eq_refl) as [-> Hmem]. by simpl.
  - unfold Str.char_eqb. destruct (Ascii.eqb_spec c d) as [->|Hne]; [|done].
    intros [= <- <-]. split; [done|]. by apply rpartition_None.
Qed.

Lemma rpartition_app c a b :
  Str.mem c b = false -> Str.rpartition c (a +:+ String c b) = Some (a, b).
Proof.
  intros Hb. induction a as [|d a IH]; simpl.
  - apply rpartition_None in Hb as ->. unfold Str.char_eqb. by rewrite Ascii.eqb_refl.
  - by rewrite IH.
Qed.

Lemma span_app P a rest :
  Str.all P a = true ->
  match rest with EmptyString => True | String c _ => P c = false end ->
  Str.span P (a +:+ rest) = (a, rest).
Proof.
  intros Ha Hrest. induction a as [|d a IH]; simpl in *.
  - destruct rest as [|c r]; simpl; [done|]. by rewrite Hrest.
  - apply andb_true_iff in Ha as [-> Ha]. by rewrite IH.
Qed.

Lemma span_inv P s a b :
  Str.span P s = (a, b) ->
  s = a +:+ b /\ Str.all P a = true
  /\ match b with EmptyString => True | String c _ => P c = false end.
Proof.
  revert a. induction s as [|d s IH]; intros a; simpl.
  - by intros [= <- <-].
  - destruct (P d) eqn:Hd.
    + destruct (Str.span P s) as [a' b'] eqn:Hs. intros [= <- <-].
      destruct (IH a' eq_refl) as (-> & Ha & Hb). simpl. by rewrite Hd, Ha.
    + by intros [= <- <-].
Qed.

Lemma lstrip_noop P s :
  match s with EmptyString => True | String c _ => P c = false end ->
  Str.lstrip P s = s.
Proof. destruct s as [|c s]; simpl; [done|]. by intros ->. Qed.

Lemma lstrip_head P s :
  match Str.lstrip P s with EmptyString => True | String c _ => P c = false end.
Proof.
  induction s as [|c s IH]; simpl; [done|].
  destruct (P c) eqn:Hc; [done|]. exact Hc.
Qed.

Lemma lstrip_suffix P s : exists z, s = z +:+ Str.lstrip P s.
Proof.
  induction s as [|c s [z IH]]; simpl; [by exists ""|].
  destruct (P c); [|by exists ""]. exists (String c z). simpl. by rewrite <- IH.
Qed.

Lemma remove_char_noop c s : Str.mem c s = false -> Str.remove_char c s = s.
Proof.
  induction s as [|d s IH]; simpl; [done|].
  intros [-> Hs]%orb_false_iff. by rewrite IH.
Qed.

Lemma remove_char_mem c s : Str.mem c (Str.remove_char c s) = false.
Proof.
  induction s as [|d s IH]; simpl; [done|].
  destruct (Str.char_eqb c d) eqn:Hcd; simpl; [done|]. by rewrite Hcd.
Qed.

Lemma remove_char_all P c s : Str.all P s = true -> Str.all P (Str.remove_char c s) = true.
Proof.
  induction s as [|d s IH]; simpl; [done|].
  intros [Hd Hs]%andb_true_iff. destruct (Str.char_eqb c d); simpl; [auto|].
  rewrite Hd. simpl. auto.
Qed.

Lemma remove_char_mem_other c d s :
  Str.mem d s = false -> Str.mem d (Str.remove_char c s) = false.
Proof.
  intros H. eapply all_mem with (P := fun x => negb (Str.char_eqb d x)).
  - by apply remove_char_all, mem_all.
  - unfold Str.char_eqb. by rewrite Ascii.eqb_refl.
Qed.

Lemma remove_char_head P c s :
  P c = true ->
  match s with EmptyString => True | String x _ => P x = false end ->
  match Str.remove_char c s with EmptyString => True | String x _ => P x = false end.
Proof.
  intros Hc. destruct s as [|d s]; simpl; [done|]. intros Hd.
  unfold Str.char_eqb. destruct (Ascii.eqb_spec c d) as [->|Hne]; [congruence|]. exact Hd.
Qed.


Lemma startswith_inv p s : Str.startswith p s = true -> exists t, s = p +:+ t.
Proof.
  revert s. induction p as [|c p IH]; intros s; simpl; [by exists s|].
  destruct s as [|d s]; [done|].
  intros [Hcd Hps]%andb_true_iff. apply char_eqb_eq in Hcd as ->.
  destruct (IH _ Hps) as [t ->]. by exists t.
Qed.

(** ** Characters and lower-casing *)

Ltac by_cases_on_char c :=
  destruct c as [[] [] [] [] [] [] [] []]; vm_compute; reflexivity.

Lemma char_lower_idem c : Str.char_lower (Str.char_lower c) = Str.char_lower c.
Proof. by_cases_on_char c. Qed.

Lemma char_lower_isascii c : Str.char_isascii (Str.char_lower c) = Str.char_isascii c.
Proof. by_cases_on_char c. Qed.

Lemma char_lower_isalpha c : Str.char_isalpha (Str.char_lower c) = Str.char_isalpha c.
Proof. by_cases_on_char c. Qed.

Lemma char_lower_in_scheme_chars c :
  UrllibParse.in_scheme_chars (Str.char_lower c) = UrllibParse.in_scheme_chars c.
Proof. by_cases_on_char c. Qed.

Lemma char_lower_upper_alpha c :
  Str.char_isupper c = true -> Str.char_isalpha (Str.char_lower c) = true.
Proof. destruct c as [[] [] [] [] [] [] [] []]; vm_compute; done. Qed.

Lemma char_lower_not_upper c : Str.char_isupper c = false -> Str.char_lower c = c.
Proof. unfold Str.char_lower. by intros ->. Qed.

(** a character that is not a letter is the lower-case form of itself only *)
Lemma char_lower_eqb c d :
  Str.char_isalpha c = false -> Str.char_eqb c (Str.char_lower d) = Str.char_eqb c d.
Proof.
  intros Hc. unfold Str.char_eqb.
  destruct (Str.char_isupper d) eqn:Hd.
  - pose proof (char_lower_upper_alpha d Hd) as Hl.
    assert (Str.char_isalpha d = true) as Hd' by (unfold Str.char_isalpha; by rewrite Hd).
    destruct (Ascii.eqb_spec c (Str.char_lower d)) as [->|_]; [congruence|].
    destruct (Ascii.eqb_spec c d) as [->|_]; [congruence|done].
  - by rewrite char_lower_not_upper.
Qed.

Lemma lower_idem s : Str.lower (Str.lower s) = Str.lower s.
Proof. induction s as [|c s IH]; simpl; [done|]. by rewrite char_lower_idem, IH. Qed.

Lemma lower_app a b : Str.lower (a +:+ b) = Str.lower a +:+ Str.lower b.
Proof. induction a as [|c a IH]; simpl; [done|]. by rewrite IH. Qed.

Lemma lower_mem c s : Str.char_isalpha c = false -> Str.mem c (Str.lower s) = Str.mem c s.
Proof.
  intros Hc. induction s as [|d s IH]; simpl; [done|].
  by rewrite char_lower_eqb, IH.
Qed.

Lemma lower_all P s :
  (forall c, P (Str.char_lower c) = P c) -> Str.all P (Str.lower s) = Str.all P s.
Proof. intros HP. induction s as [|c s IH]; simpl; [done|]. by rewrite HP, IH. Qed.

Lemma lower_nil s : Str.lower s = "" -> s = "".
Proof. by destruct s. Qed.

Lemma lower_isascii s : Str.isascii (Str.lower s) = Str.isascii s.
Proof. induction s as [|c s IH]; simpl; [done|]. by rewrite char_lower_isascii, IH. Qed.

Lemma is_scheme_prefix_lower s :
  UrllibParse.is_scheme_prefix (Str.lower s) = UrllibParse.is_scheme_prefix s.
Proof.
  destruct s as [|c s]; simpl; [done|].
  rewrite char_lower_isascii, char_lower_isalpha, char_lower_in_scheme_chars.
  by rewrite (lower_all _ _ char_lower_in_scheme_chars).
Qed.

(** ** [rstrip] *)

Lemma rstrip_split P s : exists z, s = Str.rstrip P s +:+ z /\ Str.all P z = true.
Proof.
  induction s as [|c s (z & Hs & Hz)]; simpl; [by exists ""|].
  destruct (Str.rstrip P s) as [|d r] eqn:Hr.
  - destruct (P c) eqn:Hc.
    + exists (String c s). split; [done|]. simpl in Hs |- *. rewrite Hc. by subst z.
    + exists z. simpl in Hs |- *. split; [by f_equal|done].
  - exists z. split; [|done]. simpl in Hs |- *. by f_equal.
Qed.

Lemma rstrip_idem P s : Str.rstrip P (Str.rstrip P s) = Str.rstrip P s.
Proof.
  induction s as [|c s IH]; simpl; [done|].
  destruct (Str.rstrip P s) as [|d r] eqn:Hr.
  - destruct (P c) eqn:Hc; simpl; [done|]. by rewrite Hc.
  - simpl in *. by rewrite IH.
Qed.

Lemma rstrip_all Q P s : Str.all Q s = true -> Str.all Q (Str.rstrip P s) = true.
Proof.
  intros Hs. destruct (rstrip_split P s) as (z & Heq & _).
  rewrite Heq, all_app in Hs. by apply andb_true_iff in Hs as [? _].
Qed.

Lemma rstrip_mem c P s : Str.mem c s = false -> Str.mem c (Str.rstrip P s) = false.
Proof.
  intros Hs. destruct (rstrip_split P s) as (z & Heq & _).
  rewrite Heq, mem_app in Hs. by apply orb_false_iff in Hs as [? _].
Qed.

(** a string that [rstrip] leaves alone, with something put in front *)
Lemma rstrip_fixed_app P a s :
  s <> "" -> Str.rstrip P s = s -> Str.rstrip P (a +:+ s) = a +:+ s.
Proof.
  intros Hne Hs. induction a as [|c a IH]; simpl; [done|].
  rewrite IH. destruct (a +:+ s) eqn:Heq; [|done].
  apply append_eq_nil in Heq as [_ ?]. done.
Qed.

(** ** [replace] and [re.sub] keep a character class *)

Lemma replace_go_all P old new k s :
  Str.all P new = true -> Str.all P s = true ->
  Str.all P (Str.replace_go old new k s) = true.
Proof.
  intros Hnew. revert k. induction s as [|c s IH]; intros k; simpl; [done|].
  intros [Hc Hs]%andb_true_iff. destruct k as [|k]; [|auto].
  match goal with |- context [if ?b then _ else _] => destruct b end.
  - rewrite all_app, Hnew. simpl. auto.
  - simpl. rewrite Hc. simpl. auto.
Qed.

Lemma take_all P n s : Str.all P s = true -> Str.all P (Str.take n s) = true.
Proof.
  revert n. induction s as [|c s IH]; intros [|n]; simpl; try done.
  intros [-> Hs]%andb_true_iff. simpl. auto.
Qed.

Lemma mem_rev_onto c a acc :
  Str.mem c (Str.rev_onto a acc) = Str.mem c a || Str.mem c acc.
Proof.
  revert acc. induction a as [|x a IH]; intros acc; simpl; [done|].
  rewrite IH. simpl. destruct (Str.char_eqb c x), (Str.mem c a), (Str.mem c acc); done.
Qed.

Lemma mem_rev c s : Str.mem c (Str.rev s) = Str.mem c s.
Proof. unfold Str.rev. rewrite mem_rev_onto. simpl. apply orb_false_r. Qed.

Lemma endswith_mem c p s :
  Str.endswith p s = true -> Str.mem c p = true -> Str.mem c s = true.
Proof.
  unfold Str.endswith. intros [t Ht]%startswith_inv Hp.
  rewrite <- (mem_rev c s), Ht, mem_app, mem_rev, Hp. done.
Qed.

Lemma re_sub_at_end_all P pat s :
  Str.all P s = true -> Str.mem (Str.chr 10) s = false ->
  Str.all P (Str.re_sub_at_end pat s) = true.
Proof.
  intros Hs Hlf. unfold Str.re_sub_at_end.
  destruct (Str.endswith pat s); [by apply take_all|].
  destruct (Str.endswith (pat +:+ String (Str.chr 10) "") s) eqn:He; [|done].
  exfalso. apply (endswith_mem (Str.chr 10)) in He; [congruence|].
  rewrite mem_app. simpl. apply orb_true_r.
Qed.

(** ** What [urlparse] returns *)

Import UrllibParse Shape.

Lemma char_eqb_sym a b : Str.char_eqb a b = Str.char_eqb b a.
Proof. apply Ascii.eqb_sym. Qed.

Lemma not_ws_of_mem s :
  Str.mem TAB s = false -> Str.mem CR s = false -> Str.mem LF s = false ->
  Str.all not_ws s = true.
Proof.
  induction s as [|c s IH]; [done|].
  cbn [Str.mem Str.all].
  intros [H1 ?]%orb_false_iff [H2 ?]%orb_false_iff [H3 ?]%orb_false_iff.
  rewrite IH by done.
  assert (not_ws c = true) as ->; [|done].
  unfold not_ws. by rewrite (char_eqb_sym c TAB), H1, (char_eqb_sym c CR), H2,
    (char_eqb_sym c LF), H3.
Qed.

Lemma all_and P Q s :
  Str.all (fun c => P c && Q c) s = Str.all P s && Str.all Q s.
Proof.
  induction s as [|c s IH]; simpl; [done|]. rewrite IH.
  destruct (P c), (Q c), (Str.all P s), (Str.all Q s); done.
Qed.

Lemma all_not_mem c s :
  Str.all (fun d => negb (Str.char_eqb d c)) s = negb (Str.mem c s).
Proof.
  induction s as [|d s IH]; simpl; [done|]. rewrite IH.
  unfold Str.char_eqb. rewrite (Ascii.eqb_sym d c).
  by destruct (Ascii.eqb c d), (Str.mem c s).
Qed.

Lemma cleaned_not_ws url : Str.all not_ws (cleaned url) = true.
Proof.
  unfold cleaned. apply not_ws_of_mem.
  - by apply remove_char_mem_other, remove_char_mem_other, remove_char_mem.
  - by apply remove_char_mem_other, remove_char_mem.
  - apply remove_char_mem.
Qed.

Lemma cleaned_head url :
  match cleaned url with
  | EmptyString => True
  | String c _ => is_c0_control_or_space c = false
  end.
Proof.
  unfold cleaned. repeat apply remove_char_head; try reflexivity. apply lstrip_head.
Qed.

Lemma cleaned_isascii url : Str.isascii url = true -> Str.isascii (cleaned url) = true.
Proof.
  intros Hurl. unfold cleaned.
  assert (forall s, Str.isascii s = Str.all Str.char_isascii s) as Hall
    by (induction s as [|c s IH]; simpl; [done|]; by rewrite IH).
  rewrite Hall in *. repeat apply remove_char_all.
  destruct (lstrip_suffix is_c0_control_or_space url) as [z Hz].
  rewrite Hz, all_app in Hurl. by apply andb_true_iff in Hurl as [_ ?].
Qed.

(** *** The steps of [urlsplit] *)

Lemma is_scheme_prefix_chars pre :
  is_scheme_prefix pre = true -> pre <> "" /\ Str.all in_scheme_chars pre = true.
Proof.
  destruct pre as [|c pre]; [done|]. unfold is_scheme_prefix.
  intros [_ H]%andb_true_iff. done.
Qed.

Lemma split_scheme_inv x s rest :
  split_scheme x = (s, rest) ->
  scheme_wf s
  /\ (exists z, x = z +:+ rest)
  /\ (s = "" -> rest = x
               /\ forall pre post, Str.partition ":" x = Some (pre, post) ->
                                   is_scheme_prefix pre = false).
Proof.
  unfold split_scheme.
  destruct (Str.partition ":" x) as [[pre post]|] eqn:Hpart.
  - destruct (is_scheme_prefix pre) eqn:Hpre; intros [= <- <-].
    + split; [right; by rewrite is_scheme_prefix_lower, lower_idem|].
      apply partition_Some in Hpart as [-> _].
      split; [exists (pre +:+ ":"); by rewrite append_assoc|].
      intros Hnil%lower_nil. by apply is_scheme_prefix_chars in Hpre as [? _].
    + split; [by left|]. split; [by exists ""|]. intros _. split; [done|].
      by intros pre' post' [= <- <-].
  - intros [= <- <-]. split; [by left|]. split; [by exists ""|]. by intros _.
Qed.

Lemma check_netloc_brackets_nil : check_netloc_brackets "" = inr tt.
Proof. reflexivity. Qed.

Lemma split_netloc_inv rest nl u1 :
  split_netloc rest = inr (nl, u1) ->
  check_netloc_brackets nl = inr tt
  /\ ((nl = "" /\ u1 = rest /\ Str.startswith "//" rest = false)
      \/ (rest = "//" +:+ nl +:+ u1
          /\ Str.all (fun c => negb (Str.mem c "/?#")) nl = true
          /\ match u1 with
             | EmptyString => True
             | String c _ => Str.mem c "/?#" = true
             end)).
Proof.
  unfold split_netloc.
  assert (Hplain : Str.startswith "//" rest = false ->
                   inr (EmptyString, rest) = inr (nl, u1) :> Exception + _ ->
                   check_netloc_brackets nl = inr tt
                   /\ ((nl = "" /\ u1 = rest /\ Str.startswith "//" rest = false) \/
                       (rest = "//" +:+ nl +:+ u1
                        /\ Str.all (fun c => negb (Str.mem c "/?#")) nl = true
                        /\ match u1 with
                           | EmptyString => True
                           | String c _ => Str.mem c "/?#" = true
                           end))).
  { intros Hs [= <- <-]. split; [done|]. by left. }
  destruct rest as [|c1 rest]; [by apply Hplain|].
  destruct (Ascii.eqb_spec c1 "/") as [->|Hne1]; cycle 1.
  { destruct c1 as [[] [] [] [] [] [] [] []]; try (by apply Hplain); by destruct Hne1. }
  destruct rest as [|c2 rest]; [by apply Hplain|].
  destruct (Ascii.eqb_spec c2 "/") as [->|Hne2]; cycle 1.
  { destruct c2 as [[] [] [] [] [] [] [] []]; try (by apply Hplain); by destruct Hne2. }
  clear Hplain. unfold splitnetloc.
  destruct (Str.span _ rest) as [nl' u1'] eqn:Hspan.
  destruct (check_netloc_brackets nl') as [e|[]] eqn:Hbr; [done|].
  intros [= <- <-]. split; [done|]. right.
  apply span_inv in Hspan as (-> & Hall & Hhead).
  split; [done|]. split; [done|].
  destruct u1' as [|c u1']; [done|]. by apply negb_false_iff in Hhead.
Qed.

Lemma split_at_inv c u a b :
  split_at c u = (a, b) ->
  Str.mem c a = false
  /\ ((u = a /\ b = "") \/ u = a +:+ String c b).
Proof.
  unfold split_at. destruct (Str.partition c u) as [[a' b']|] eqn:Hpart.
  - intros [= <- <-]. apply partition_Some in Hpart as [-> Hmem]. split; [done|by right].
  - intros [= <- <-]. apply partition_None in Hpart. split; [done|by left].
Qed.

Lemma headless_prefix a b : headless (a +:+ b) -> headless a.
Proof.
  intros [Hhead Hsch]. split.
  - destruct a; [done|exact Hhead].
  - intros pre post Hpart. apply (Hsch pre (post +:+ b)).
    apply partition_Some in Hpart as [-> Hmem].
    rewrite append_assoc. simpl. by apply partition_app.
Qed.

Lemma headless_slash p : Str.startswith "/" p = true -> headless p.
Proof.
  intros [t ->]%startswith_inv. split; [reflexivity|].
  simpl. destruct (Str.partition ":" t) as [[a b]|]; [|done].
  by intros pre post [= <- <-].
Qed.

Lemma headless_nil : headless "".
Proof. split; [done|]. by intros pre post. Qed.

Lemma take_prefix n s : exists z, s = Str.take n s +:+ z.
Proof.
  revert n. induction s as [|c s IH]; intros [|n]; simpl; try (by eexists).
  destruct (IH n) as [z Hz]. exists z. by rewrite <- Hz.
Qed.

Lemma splitparams_prefix u : exists z, u = fst (splitparams u) +:+ z.
Proof.
  unfold splitparams.
  destruct (Str.rpartition "/" u) as [[dir last]|] eqn:Hr.
  - apply rpartition_Some in Hr as [-> _].
    destruct (Str.partition ";" last) as [[a b]|] eqn:Hp; simpl.
    + apply partition_Some in Hp as [-> _]. exists (String ";" b).
      by rewrite !append_assoc.
    + exists "". by rewrite append_nil_r.
  - destruct (Str.partition ";" u) as [[a b]|] eqn:Hp; simpl.
    + apply partition_Some in Hp as [-> _]. by exists (String ";" b).
    + apply take_prefix.
Qed.

Lemma prefix_startswith c a z :
  Str.startswith (String c "") (a +:+ z) = true -> a = "" \/ Str.startswith (String c "") a = true.
Proof. destruct a as [|d a]; [by left|]. simpl. by right. Qed.

Lemma isascii_all s : Str.isascii s = Str.all Str.char_isascii s.
Proof. induction s as [|c s IH]; simpl; [done|]. by rewrite IH. Qed.

Lemma all_suffix P z s : Str.all P (z +:+ s) = true -> Str.all P s = true.
Proof. rewrite all_app. by intros [_ ?]%andb_true_iff. Qed.

Lemma all_prefix P a z : Str.all P (a +:+ z) = true -> Str.all P a = true.
Proof. rewrite all_app. by intros [? _]%andb_true_iff. Qed.

Lemma all_not_in2 a b t :
  Str.mem a t = false -> Str.mem b t = false ->
  Str.all (fun c => negb (Str.mem c (String a (String b "")))) t = true.
Proof.
  induction t as [|c t IH]; [done|]. simpl.
  intros [H1 ?]%orb_false_iff [H2 ?]%orb_false_iff.
  rewrite (char_eqb_sym c a), H1, (char_eqb_sym c b), H2. simpl. by apply IH.
Qed.

Lemma head_is_slash c :
  Str.mem c "/?#" = true -> path_ok c = true -> Str.char_eqb "/" c = true.
Proof. destruct c as [[] [] [] [] [] [] [] []]; vm_compute; done. Qed.

(** the components that [urlsplit] returns *)
Lemma urlsplit_shape url s nl u q f :
  urlsplit url = inr (s, nl, u, q, f) ->
  scheme_wf s
  /\ Str.all host_ok nl = true
  /\ check_netloc_brackets nl = inr tt
  /\ Str.all path_ok u = true
  /\ (nl <> "" -> u = "" \/ Str.startswith "/" u = true)
  /\ (s = "" -> headless u)
  /\ (forall P, Str.all P (cleaned url) = true -> Str.all P q = true).
Proof.
  unfold urlsplit. pose proof (cleaned_not_ws url) as Hws.
  pose proof (cleaned_head url) as Hhead.
  set (x := cleaned url) in *.
  destruct (split_scheme x) as [s' rest] eqn:Hsch.
  destruct (split_netloc rest) as [e|[nl' u1]] eqn:Hnl; [done|].
  destruct (split_at "#" u1) as [u2 f'] eqn:Hf.
  destruct (split_at "?" u2) as [u3 q'] eqn:Hq.
  intros [= <- <- <- <- <-].
  apply split_scheme_inv in Hsch as (Hwf & [z Hz] & Hnos).
  apply split_netloc_inv in Hnl as (Hbr & Hnl).
  apply split_at_inv in Hf as (Hf1 & Hf2).
  apply split_at_inv in Hq as (Hq1 & Hq2).
  assert (forall P, Str.all P x = true -> Str.all P rest = true) as Hrest.
  { intros P. rewrite Hz. apply all_suffix. }
  assert (forall P, Str.all P rest = true -> Str.all P nl' = true /\ Str.all P u1 = true)
    as Hu1.
  { intros P HP. destruct Hnl as [(-> & -> & _)|(-> & _)]; [done|].
    apply (all_suffix _ "//") in HP. rewrite all_app in HP.
    by apply andb_true_iff in HP. }
  assert (forall P, Str.all P u1 = true -> Str.all P u2 = true) as Hu2.
  { intros P HP. destruct Hf2 as [[-> _]| ->]; [done|]. by apply all_prefix in HP. }
  assert (forall P, Str.all P u2 = true -> Str.all P u3 = true /\ Str.all P q' = true)
    as Hu3.
  { intros P HP. destruct Hq2 as [[-> ->]| ->]; [done|].
    rewrite all_app in HP. apply andb_true_iff in HP as [? HP]. simpl in HP.
    by apply andb_true_iff in HP as [_ ?]. }
  assert (Str.mem "#" u3 = false) as Hq3.
  { destruct Hq2 as [[-> _]| ->]; [done|]. rewrite mem_app in Hf1.
    by apply orb_false_iff in Hf1 as [? _]. }
  assert (Str.all path_ok u3 = true) as Hpath.
  { unfold path_ok. rewrite all_and. apply andb_true_iff. split.
    - by apply (all_not_in2 "?" "#").
    - by apply Hu3, Hu2, Hu1, Hrest. }
  assert (exists tail, u1 = u3 +:+ tail) as [tail Htail].
  { destruct Hf2 as [[Hf2 _]|Hf2]; destruct Hq2 as [[Hq2 _]|Hq2]; subst u1 u2; eexists;
      rewrite ?append_assoc; try reflexivity. by rewrite append_nil_r. }
  split; [done|]. split; [|split; [done|split; [done|split; [|split]]]].
  - unfold host_ok. rewrite all_and. apply andb_true_iff. split.
    + destruct Hnl as [(-> & _)|(_ & ? & _)]; done.
    + by apply Hu1, Hrest.
  - intros Hne. destruct Hnl as [(-> & _)|(_ & _ & Hh)]; [done|].
    rewrite Htail in Hh. destruct u3 as [|c u3]; [by left|]. right.
    cbn [Str.all] in Hpath. apply andb_true_iff in Hpath as [Hc _].
    cbn [String.append] in Hh. cbn [Str.startswith].
    by rewrite (head_is_slash c Hh Hc).
  - intros ->. destruct (Hnos eq_refl) as [-> Hno].
    destruct Hnl as [(-> & -> & _)|(Heq & _ & Hh)].
    + apply headless_prefix with tail. by rewrite <- Htail.
    + rewrite Htail in Hh. destruct u3 as [|c u3]; [apply headless_nil|].
      apply headless_slash.
      cbn [Str.all] in Hpath. apply andb_true_iff in Hpath as [Hc _].
      cbn [String.append] in Hh. cbn [Str.startswith].
      by rewrite (head_is_slash c Hh Hc).
  - intros P HP. by apply Hu3, Hu2, Hu1, Hrest.
Qed.

Lemma urlparse_shape url parsed :
  urlparse url = inr parsed ->
  scheme_wf (scheme parsed)
  /\ Str.all host_ok (netloc parsed) = true
  /\ check_netloc_brackets (netloc parsed) = inr tt
  /\ Str.all path_ok (path parsed) = true
  /\ (netloc parsed <> "" -> path parsed = "" \/ Str.startswith "/" (path parsed) = true)
  /\ (scheme parsed = "" -> headless (path parsed))
  /\ (forall P, Str.all P (cleaned url) = true -> Str.all P (query parsed) = true).
Proof.
  unfold urlparse.
  destruct (urlsplit url) as [e|[[[[s nl] u] q] f]] eqn:Hsplit; [done|].
  apply urlsplit_shape in Hsplit as (Hs & Hnl & Hbr & Hu & Hroot & Hhl & Hq).
  destruct (splitparams_prefix u) as [z Hz].
  assert (exists p ps, (if Str.In_list s uses_params && Str.mem ";" u
                        then splitparams u else (u, "")) = (p, ps)
                       /\ exists z, u = p +:+ z) as (p & ps & -> & z' & Hz').
  { destruct (Str.In_list s uses_params && Str.mem ";" u).
    - destruct (splitparams u) as [p ps]. by eauto.
    - exists u, "". split; [done|]. exists "". by rewrite append_nil_r. }
  intros [= <-]. cbn [scheme netloc path query].
  split; [done|]. split; [done|]. split; [done|].
  split; [|split; [|split; [|done]]].
  - rewrite Hz' in Hu. by apply all_prefix in Hu.
  - intros Hne. destruct (Hroot Hne) as [Hnil|Hsl].
    + left. rewrite Hz' in Hnil. by apply append_eq_nil in Hnil as [? _].
    + rewrite Hz' in Hsl. by apply prefix_startswith with z'.
  - intros Hs0. apply headless_prefix with z'. rewrite <- Hz'. by apply Hhl.
Qed.

(** ** The normalised netloc and path *)

Lemma host_ok_lower c : host_ok (Str.char_lower c) = host_ok c.
Proof. by_cases_on_char c. Qed.

Lemma path_ok_lower c : path_ok (Str.char_lower c) = path_ok c.
Proof. by_cases_on_char c. Qed.

Lemma is_c0_lower c :
  is_c0_control_or_space (Str.char_lower c) = is_c0_control_or_space c.
Proof. by_cases_on_char c. Qed.

Lemma host_ok_not_lf s : Str.all host_ok s = true -> Str.mem LF s = false.
Proof. intros H. by apply (all_mem host_ok). Qed.

Lemma normalize_netloc_shape nl :
  Str.all host_ok nl = true -> Str.all host_ok (URLNormalizer.normalize_netloc nl) = true.
Proof.
  intros Hnl. unfold URLNormalizer.normalize_netloc, URLNormalizer.domain_variations.
  cbn [fold_left fst snd]. unfold Str.replace.
  repeat (apply replace_go_all; [reflexivity|]).
  assert (Str.all host_ok (Str.lower nl) = true) as H1
    by (by rewrite (lower_all _ _ host_ok_lower)).
  assert (Str.all host_ok (Str.re_sub_at_end ":80" (Str.lower nl)) = true) as H2
    by (apply re_sub_at_end_all; [done|by apply host_ok_not_lf]).
  apply re_sub_at_end_all; [done|by apply host_ok_not_lf].
Qed.

Lemma partition_lower c x :
  Str.char_isalpha c = false ->
  Str.partition c (Str.lower x)
  = match Str.partition c x with
    | Some (a, b) => Some (Str.lower a, Str.lower b)
    | None => None
    end.
Proof.
  intros Hc. induction x as [|d x IH]; simpl; [done|].
  rewrite char_lower_eqb by done. destruct (Str.char_eqb c d); [done|].
  rewrite IH. by destruct (Str.partition c x) as [[a b]|].
Qed.

Lemma headless_lower x : headless x -> headless (Str.lower x).
Proof.
  intros [Hhead Hsch]. split.
  - destruct x as [|c x]; [done|]. simpl. by rewrite is_c0_lower.
  - intros pre post. rewrite partition_lower by reflexivity.
    destruct (Str.partition ":" x) as [[a b]|] eqn:Hp; [|done].
    intros [= <- <-]. rewrite is_scheme_prefix_lower. by apply (Hsch a b).
Qed.

Lemma normalize_path_cases path :
  let p := URLNormalizer.normalize_path path in
  p = "/"
  \/ (p <> "" /\ p = Str.rstrip (Str.char_eqb "/") (Str.lower path)
      /\ Str.lower p = p /\ Str.rstrip (Str.char_eqb "/") p = p).
Proof.
  unfold URLNormalizer.normalize_path.
  destruct (String.eqb_spec (Str.rstrip (Str.char_eqb "/") (Str.lower path)) "") as [|Hne];
    [by left|right].
  split; [done|]. split; [done|]. split; [|apply rstrip_idem].
  destruct (rstrip_split (Str.char_eqb "/") (Str.lower path)) as (z & Hz & _).
  pose proof (lower_idem path) as Hl. rewrite Hz, lower_app in Hl at 1.
  rewrite Hz in Hl at 2.
  assert (forall a b c d : string, String.length a = String.length c ->
            a +:+ b = c +:+ d -> a = c) as Hinj.
  { induction a as [|x a IH]; intros b [|y c] d; simpl; try done.
    intros [= Hlen] [= -> Heq]. f_equal. by apply (IH b c d). }
  apply (Hinj _ _ _ _) in Hl; [done|].
  clear. induction (Str.rstrip _ _) as [|c s IH]; simpl; [done|]. by rewrite IH.
Qed.

Lemma normalize_path_fixed path :
  URLNormalizer.normalize_path (URLNormalizer.normalize_path path)
  = URLNormalizer.normalize_path path.
Proof.
  destruct (normalize_path_cases path) as [->|(Hne & _ & Hl & Hr)]; [reflexivity|].
  unfold URLNormalizer.normalize_path at 1. rewrite Hl, Hr.
  by apply String.eqb_neq in Hne as ->.
Qed.

Lemma normalize_path_shape path :
  Str.all path_ok path = true ->
  Str.all path_ok (URLNormalizer.normalize_path path) = true.
Proof.
  intros Hp. destruct (normalize_path_cases path) as [->|(_ & -> & _)]; [reflexivity|].
  apply rstrip_all. by rewrite (lower_all _ _ path_ok_lower).
Qed.

Lemma normalize_path_headless path :
  headless path -> headless (URLNormalizer.normalize_path path).
Proof.
  intros Hp. destruct (normalize_path_cases path) as [->|(_ & -> & _)];
    [by apply headless_slash|].
  destruct (rstrip_split (Str.char_eqb "/") (Str.lower path)) as (z & Hz & _).
  apply headless_prefix with z. rewrite <- Hz. by apply headless_lower.
Qed.

Lemma normalize_path_rooted path :
  path = "" \/ Str.startswith "/" path = true ->
  Str.startswith "/" (URLNormalizer.normalize_path path) = true.
Proof.
  intros Hp. destruct (normalize_path_cases path) as [->|(Hne & Heq & _)]; [reflexivity|].
  destruct Hp as [->|[t ->]%startswith_inv]; [by rewrite Heq in Hne|].
  rewrite Heq in Hne |- *. simpl in Hne |- *.
  destruct (Str.rstrip _ (Str.lower t)); [|done].
  by destruct (Str.char_eqb "/" (Str.char_lower "/")).
Qed.

(** ** Percent-encoding *)


Lemma replace_char_app a b s t :
  Str.replace_char a b (s +:+ t) = Str.replace_char a b s +:+ Str.replace_char a b t.
Proof. induction s as [|c s IH]; simpl; [done|]. by rewrite IH. Qed.

Lemma quote_cons safe c s :
  Query.quote safe (String c s)
  = (if Query.always_safe c || (Str.char_isascii c && Str.mem c safe)
     then String c "" else percent c) +:+ Query.quote safe s.
Proof. cbn [Query.quote]. by destruct (_ || _). Qed.

Lemma encode_char_not_space c :
  Str.char_eqb " " c = false ->
  encode_char c = if Query.always_safe c then String c "" else percent c.
Proof.
  intros Hc. unfold encode_char. rewrite (char_eqb_sym c " "), Hc. done.
Qed.

Lemma always_safe_not_space c : Query.always_safe c = true -> Str.char_eqb " " c = false.
Proof. destruct c as [[] [] [] [] [] [] [] []]; vm_compute; done. Qed.

Lemma percent_no_space c : Str.replace_char " " "+" (percent c) = percent c.
Proof. by_cases_on_char c. Qed.

Lemma quote_no_space s :
  Str.mem " " s = false -> Query.quote "" s = encode s.
Proof.
  induction s as [|c s IH]; [done|]. cbn [Str.mem encode].
  intros [Hc Hs]%orb_false_iff. rewrite quote_cons, IH by done.
  rewrite (encode_char_not_space c Hc). cbn [Str.mem].
  by rewrite andb_false_r, orb_false_r.
Qed.

Lemma quote_space s :
  Str.replace_char " " "+" (Query.quote " " s) = encode s.
Proof.
  induction s as [|c s IH]; [done|]. cbn [encode].
  rewrite quote_cons, replace_char_app, IH. f_equal.
  destruct (Str.char_eqb " " c) eqn:Hc.
  - apply char_eqb_eq in Hc as <-. reflexivity.
  - rewrite (encode_char_not_space c Hc). cbn [Str.mem].
    rewrite (char_eqb_sym c " "), Hc. cbn [orb]. rewrite andb_false_r, orb_false_r.
    destruct (Query.always_safe c) eqn:Hsafe.
    + cbn [Str.replace_char]. by rewrite Hc.
    + apply percent_no_space.
Qed.

Lemma quote_plus_encode s : Query.quote_plus s = encode s.
Proof.
  unfold Query.quote_plus. destruct (Str.mem " " s) eqn:Hs; cbn [negb].
  - apply quote_space.
  - by apply quote_no_space.
Qed.

(** *** Decoding what was encoded *)

Lemma decode_encode_char c t :
  Query.unquote_to_bytes (Str.replace_char "+" " " (encode_char c +:+ t))
  = String c (Query.unquote_to_bytes (Str.replace_char "+" " " t)).
Proof. destruct c as [[] [] [] [] [] [] [] []]; reflexivity. Qed.

Lemma decode_encode k :
  Query.unquote_to_bytes (Str.replace_char "+" " " (encode k)) = k.
Proof.
  induction k as [|c k IH]; [done|]. cbn [encode].
  by rewrite decode_encode_char, IH.
Qed.

Lemma encode_char_plain c :
  Str.mem "%" (encode_char c) = false ->
  Str.replace_char "+" " " (encode_char c) = String c "".
Proof.
  destruct c as [[] [] [] [] [] [] [] []]; vm_compute; intros H;
    first [reflexivity | discriminate H].
Qed.

Lemma replace_char_mem c a b s :
  Str.char_eqb c a = false -> Str.char_eqb c b = false ->
  Str.mem c (Str.replace_char a b s) = Str.mem c s.
Proof.
  intros Ha Hb. induction s as [|d s IH]; [done|]. cbn [Str.replace_char Str.mem].
  rewrite IH. f_equal. destruct (Str.char_eqb a d) eqn:Had; [|done].
  apply char_eqb_eq in Had as <-. by rewrite Ha, Hb.
Qed.

Lemma encode_plain k :
  Str.mem "%" (encode k) = false -> Str.replace_char "+" " " (encode k) = k.
Proof.
  induction k as [|c k IH]; [done|]. cbn [encode].
  rewrite mem_app. intros [Hc Hk]%orb_false_iff.
  by rewrite replace_char_app, (encode_char_plain c Hc), IH.
Qed.

(** the decoder restores a well-formed string from its encoding *)
Lemma unquote_encode k :
  utf8_valid k -> Query.unquote (Str.replace_char "+" " " (encode k)) = k.
Proof.
  intros Hk. unfold Query.unquote.
  rewrite (replace_char_mem "%" "+" " ") by reflexivity.
  destruct (Str.mem "%" (encode k)) eqn:Hm.
  - by rewrite decode_encode.
  - by apply encode_plain.
Qed.

(** *** The UTF-8 decoder on its own output *)

Lemma decode_replace_cons b s1 :
  Query.decode_replace (String b s1)
  = let n := Str.ord b in
    if (n <? 128)%N then String b (Query.decode_replace s1)
    else if ((n <? 194) || (244 <? n))%N then Query.REPLACEMENT +:+ Query.decode_replace s1
    else
      match s1 with
      | EmptyString => Query.REPLACEMENT
      | String c2 s2 =>
          if negb (Query.second_ok b c2) then Query.REPLACEMENT +:+ Query.decode_replace s1
          else if (n <? 224)%N then String b (String c2 (Query.decode_replace s2))
          else
            match s2 with
            | EmptyString => Query.REPLACEMENT
            | String c3 s3 =>
                if negb (Query.is_cont c3) then Query.REPLACEMENT +:+ Query.decode_replace s2
                else if (n <? 240)%N
                then String b (String c2 (String c3 (Query.decode_replace s3)))
                else
                  match s3 with
                  | EmptyString => Query.REPLACEMENT
                  | String c4 s4 =>
                      if negb (Query.is_cont c4)
                      then Query.REPLACEMENT +:+ Query.decode_replace s3
                      else String b (String c2 (String c3 (String c4
                             (Query.decode_replace s4))))
                  end
            end
      end.
Proof. destruct s1 as [|c2 [|c3 [|c4 s4]]]; reflexivity. Qed.

Lemma decode_replace_replacement t :
  Query.decode_replace (Query.REPLACEMENT +:+ t)
  = Query.REPLACEMENT +:+ Query.decode_replace t.
Proof. reflexivity. Qed.

Lemma decode_replace_idem_bounded n :
  forall s, (String.length s <= n)%nat ->
    Query.decode_replace (Query.decode_replace s) = Query.decode_replace s.
Proof.
  induction n as [|n IH]; intros s Hlen.
  - destruct s; [done|simpl in Hlen; lia].
  - destruct s as [|b s1]; [done|]. simpl in Hlen.
    assert (forall t, (String.length t <= String.length s1)%nat ->
              Query.decode_replace (Query.decode_replace t) = Query.decode_replace t) as IH'.
    { intros t Ht. apply IH. lia. }
    rewrite (decode_replace_cons b s1). cbv zeta.
    destruct (Str.ord b <? 128)%N eqn:H1.
    { rewrite decode_replace_cons. cbv zeta. rewrite H1. by rewrite IH'. }
    destruct ((Str.ord b <? 194) || (244 <? Str.ord b))%N eqn:H2.
    { by rewrite decode_replace_replacement, IH'. }
    destruct s1 as [|c2 s2]; [reflexivity|].
    destruct (negb (Query.second_ok b c2)) eqn:H3.
    { by rewrite decode_replace_replacement, IH'. }
    destruct (Str.ord b <? 224)%N eqn:H4.
    { rewrite decode_replace_cons. cbv zeta. rewrite H1, H2, H3, H4.
      rewrite IH'; [done|simpl; lia]. }
    destruct s2 as [|c3 s3]; [reflexivity|].
    destruct (negb (Query.is_cont c3)) eqn:H5.
    { rewrite decode_replace_replacement, IH'; [done|simpl; lia]. }
    destruct (Str.ord b <? 240)%N eqn:H6.
    { rewrite decode_replace_cons. cbv zeta. rewrite H1, H2, H3, H4, H5, H6.
      rewrite IH'; [done|simpl; lia]. }
    destruct s3 as [|c4 s4]; [reflexivity|].
    destruct (negb (Query.is_cont c4)) eqn:H7.
    { rewrite decode_replace_replacement, IH'; [done|simpl; lia]. }
    rewrite decode_replace_cons. cbv zeta. rewrite H1, H2, H3, H4, H5, H6, H7.
    rewrite IH'; [done|simpl; lia].
Qed.

Lemma decode_replace_valid s : utf8_valid (Query.decode_replace s).
Proof. apply (decode_replace_idem_bounded (String.length s)). lia. Qed.

Lemma ascii_valid s : Str.isascii s = true -> utf8_valid s.
Proof.
  unfold utf8_valid. induction s as [|c s IH]; [done|]. cbn [Str.isascii].
  intros [Hc Hs]%andb_true_iff. rewrite decode_replace_cons. cbv zeta.
  unfold Str.char_isascii in Hc. by rewrite Hc, IH.
Qed.

Lemma unquote_valid x : Str.isascii x = true -> utf8_valid (Query.unquote x).
Proof.
  intros Hx. unfold Query.unquote. destruct (Str.mem "%" x).
  - apply decode_replace_valid.
  - by apply ascii_valid.
Qed.

(** ** Query strings: parsing what [urlencode] wrote *)

Lemma encode_char_ok c : Str.all encoded_ok (encode_char c) = true.
Proof. by_cases_on_char c. Qed.

Lemma encode_ok k : Str.all encoded_ok (encode k) = true.
Proof.
  induction k as [|c k IH]; [done|]. cbn [encode].
  by rewrite all_app, encode_char_ok, IH.
Qed.

Lemma encode_char_nonempty c : encode_char c <> "".
Proof. destruct c as [[] [] [] [] [] [] [] []]; vm_compute; done. Qed.

Lemma encode_nonempty k : k <> "" -> encode k <> "".
Proof.
  destruct k as [|c k]; [done|]. intros _. cbn [encode].
  intros [? _]%append_eq_nil. by apply (encode_char_nonempty c).
Qed.

Lemma encode_mem c k : encoded_ok c = false -> Str.mem c (encode k) = false.
Proof. intros Hc. apply (all_mem encoded_ok); [apply encode_ok|done]. Qed.

Lemma split_plain c a : Str.mem c a = false -> Str.split c a = [a].
Proof.
  induction a as [|d a IH]; [done|]. cbn [Str.mem Str.split].
  intros [-> Ha]%orb_false_iff. by rewrite IH.
Qed.

Lemma split_app c a rest :
  Str.mem c a = false -> Str.split c (a +:+ String c rest) = a :: Str.split c rest.
Proof.
  induction a as [|d a IH]; cbn [Str.mem Str.split String.append].
  - intros _. unfold Str.char_eqb. by rewrite Ascii.eqb_refl.
  - intros [-> Ha]%orb_false_iff. by rewrite IH.
Qed.

Lemma split_join c l :
  l <> [] -> Forall (fun x => Str.mem c x = false) l ->
  Str.split c (Str.join (String c "") l) = l.
Proof.
  induction l as [|x l IH]; [done|]. intros _ Hall.
  apply Forall_cons in Hall as [Hx Hl].
  destruct l as [|y l]; [by apply split_plain|].
  cbn [Str.join]. change (String c "" +:+ ?t) with (String c t).
  rewrite split_app by done. f_equal. by apply IH.
Qed.

Lemma join_nonempty sep x l : x <> "" -> Str.join sep (x :: l) <> "".
Proof.
  intros Hx. destruct l as [|y l]; [done|]. cbn [Str.join].
  by intros [? _]%append_eq_nil.
Qed.

Lemma parse_field_field k v :
  utf8_valid k -> utf8_valid v -> v <> "" ->
  Query.parse_field false (field (k, v)) = [(k, v)].
Proof.
  intros Hk Hv Hne. unfold Query.parse_field, field. cbn [fst snd].
  change ("=" +:+ encode v) with (String "=" (encode v)).
  destruct (String.eqb_spec (encode k +:+ String "=" (encode v)) "") as [Heq|_].
  { by apply append_eq_nil in Heq as [_ ?]. }
  rewrite partition_app by (by apply encode_mem).
  destruct (String.eqb_spec (encode v) "") as [Heq|_].
  { by apply encode_nonempty in Heq. }
  cbn [negb orb]. by rewrite !unquote_encode.
Qed.

Lemma field_no_amp kv : Str.mem "&" (field kv) = false.
Proof.
  unfold field. change ("=" +:+ ?t) with (String "=" t).
  rewrite mem_app. cbn [Str.mem]. rewrite !encode_mem by reflexivity. reflexivity.
Qed.

Lemma field_nonempty kv : field kv <> "".
Proof. unfold field. by intros [_ ?]%append_eq_nil. Qed.

Lemma urlencode_fields d :
  Query.urlencode d = Str.join "&" (map field (pairs_of d)).
Proof.
  unfold Query.urlencode, pairs_of. f_equal.
  induction d as [|[k vs] d IH]; [done|]. cbn [map concat fst snd].
  rewrite map_app, IH. f_equal.
  rewrite map_map. apply map_ext. intros v. unfold field. cbn [fst snd].
  by rewrite !quote_plus_encode.
Qed.

Lemma parse_qsl_urlencode d :
  Forall (fun kv => utf8_valid (fst kv) /\ utf8_valid (snd kv) /\ snd kv <> "") (pairs_of d) ->
  Query.parse_qsl (Query.urlencode d) false = pairs_of d.
Proof.
  intros Hwf. rewrite urlencode_fields. unfold Query.parse_qsl.
  destruct (pairs_of d) as [|kv l] eqn:Hp; [done|].
  destruct (String.eqb_spec (Str.join "&" (map field (kv :: l))) "") as [Heq|_].
  { by apply join_nonempty in Heq; [|apply field_nonempty]. }
  rewrite split_join; [|done|].
  - clear Hp. induction Hwf as [|[k v] l' (Hk & Hv & Hne) Hl IH]; [done|].
    cbn [map concat]. rewrite parse_field_field by done. cbn [app]. f_equal. exact IH.
  - apply Forall_forall. intros x [kv' [-> _]]%list_elem_of_fmap. apply field_no_amp.
Qed.

(** *** Grouping pairs into a dict *)

Lemma dict_add_new k v (d : Query.pydict) :
  k ∉ map fst d -> Query.dict_add k v d = d ++ [(k, [v])].
Proof.
  induction d as [|[k' vs] d IH]; [done|]. cbn [map fst Query.dict_add].
  intros Hk. apply not_elem_of_cons in Hk as [Hne Hk].
  apply String.eqb_neq in Hne as ->. by rewrite IH.
Qed.

Lemma dict_add_last k v ws (d : Query.pydict) :
  k ∉ map fst d -> Query.dict_add k v (d ++ [(k, ws)]) = d ++ [(k, ws ++ [v])].
Proof.
  induction d as [|[k' vs] d IH]; cbn [map fst Query.dict_add app].
  - intros _. by rewrite String.eqb_refl.
  - intros Hk. apply not_elem_of_cons in Hk as [Hne Hk].
    apply String.eqb_neq in Hne as ->. by rewrite IH.
Qed.

Lemma fold_dict_add_same k vs ws (d : Query.pydict) :
  k ∉ map fst d ->
  fold_left (fun d nv => Query.dict_add (fst nv) (snd nv) d)
            (map (fun v => (k, v)) vs) (d ++ [(k, ws)])
  = d ++ [(k, ws ++ vs)].
Proof.
  intros Hk. revert ws. induction vs as [|v vs IH]; intros ws; cbn [map fold_left fst snd].
  - by rewrite app_nil_r.
  - rewrite dict_add_last by done. rewrite IH. by rewrite <- app_assoc.
Qed.

Lemma fold_dict_add_pairs (d0 d : Query.pydict) :
  NoDup (map fst (d0 ++ d)) -> Forall (fun kv => snd kv <> []) d ->
  fold_left (fun d nv => Query.dict_add (fst nv) (snd nv) d) (pairs_of d) d0 = d0 ++ d.
Proof.
  revert d0. induction d as [|[k vs] d IH]; intros d0 Hnd Hne.
  - by rewrite app_nil_r.
  - apply Forall_cons in Hne as [Hvs Hne]. cbn [snd] in Hvs.
    destruct vs as [|v vs]; [done|].
    unfold pairs_of. cbn [map concat fst snd]. rewrite fold_left_app.
    fold (pairs_of d). cbn [fold_left fst snd].
    assert (k ∉ map fst d0) as Hk.
    { rewrite map_app in Hnd. apply NoDup_app in Hnd as (_ & Hdisj & _).
      intros Hin. apply (Hdisj k Hin). left. }
    rewrite dict_add_new by done.
    rewrite fold_dict_add_same by done. cbn [app].
    rewrite (IH (d0 ++ [(k, v :: vs)])); [by rewrite <- app_assoc| |done].
    by rewrite <- app_assoc.
Qed.

Lemma parse_qs_urlencode d :
  dict_wf d -> Query.parse_qs (Query.urlencode d) false = d.
Proof.
  intros (Hnd & Hall). unfold Query.parse_qs. rewrite parse_qsl_urlencode.
  - apply (fold_dict_add_pairs [] d); [done|].
    eapply Forall_impl; [exact Hall|]. by intros kv (_ & ? & _).
  - unfold pairs_of. apply Forall_concat, Forall_fmap.
    eapply Forall_impl; [exact Hall|]. intros [k vs] (Hk & _ & Hvs). cbn [fst snd] in *.
    apply Forall_fmap. eapply Forall_impl; [exact Hvs|].
    intros v [? ?]. by cbn.
Qed.

(** *** What [parse_qs] builds *)

Lemma dict_add_keys k v (d : Query.pydict) h :
  h ∈ map fst (Query.dict_add k v d) <-> h = k \/ h ∈ map fst d.
Proof.
  induction d as [|[k' vs] d IH]; cbn [map fst Query.dict_add].
  - rewrite list_elem_of_singleton, elem_of_nil. tauto.
  - destruct (String.eqb_spec k k') as [->|Hne]; cbn [map fst].
    + rewrite !elem_of_cons. tauto.
    + rewrite !elem_of_cons, IH. tauto.
Qed.

Lemma dict_add_wf k v d :
  utf8_valid k -> v <> "" -> utf8_valid v -> dict_wf d -> dict_wf (Query.dict_add k v d).
Proof.
  intros Hk Hne Hv (Hnd & Hall). split.
  - clear Hall. induction d as [|[k' vs] d IH]; cbn [map fst Query.dict_add].
    + apply NoDup_singleton.
    + cbn [map fst] in Hnd. apply NoDup_cons in Hnd as [Hnotin Hnd].
      destruct (String.eqb_spec k k') as [->|Hneq]; cbn [map fst].
      * by apply NoDup_cons.
      * apply NoDup_cons. split; [|by apply IH].
        intros [Heq|Hin]%dict_add_keys; [by apply Hneq|done].
  - induction Hall as [|[k' vs] d (Hk' & Hvs' & Hvs) Hall IH]; cbn [Query.dict_add].
    + constructor; [|constructor]. cbn [fst snd].
      split; [done|]. split; [done|]. by repeat constructor.
    + cbn [fst snd] in *. apply NoDup_cons in Hnd as [_ Hnd].
      destruct (String.eqb k k').
      * constructor; [|done]. cbn [fst snd].
        split; [done|]. split; [by destruct vs|].
        apply Forall_app. split; [done|]. by repeat constructor.
      * constructor; [done|]. by apply IH.
Qed.

Lemma split_all P c s :
  Str.all P s = true -> Forall (fun x => Str.all P x = true) (Str.split c s).
Proof.
  induction s as [|d s IH]; [by repeat constructor|]. cbn [Str.all Str.split].
  intros [Hd Hs]%andb_true_iff. specialize (IH Hs).
  destruct (Str.char_eqb c d); [by constructor|].
  destruct (Str.split c s) as [|p ps]; [by repeat constructor; cbn; rewrite Hd|].
  apply Forall_cons in IH as [Hp Hps]. constructor; [|done]. cbn. by rewrite Hd, Hp.
Qed.

Lemma replace_char_all P a b s :
  P b = true -> Str.all P s = true -> Str.all P (Str.replace_char a b s) = true.
Proof.
  intros Hb. induction s as [|d s IH]; [done|]. cbn [Str.all Str.replace_char].
  intros [Hd Hs]%andb_true_iff. rewrite IH by done.
  by destruct (Str.char_eqb a d); rewrite ?Hb, ?Hd.
Qed.

Lemma unquote_to_bytes_nonempty x : x <> "" -> Query.unquote_to_bytes x <> "".
Proof.
  destruct x as [|c x]; [done|]. intros _. cbn [Query.unquote_to_bytes].
  destruct (Str.char_eqb c "%"); [|done].
  destruct x as [|a [|b r]]; try done. by destruct (_ && _).
Qed.

Lemma decode_replace_nonempty x : x <> "" -> Query.decode_replace x <> "".
Proof.
  destruct x as [|b s1]; [done|]. intros _. rewrite decode_replace_cons. cbv zeta.
  repeat match goal with
  | |- context [if ?c then _ else _] => destruct c
  | |- context [match ?s with EmptyString => _ | String _ _ => _ end] => destruct s
  end; done.
Qed.

Lemma unquote_nonempty x : x <> "" -> Query.unquote x <> "".
Proof.
  intros Hx. unfold Query.unquote. destruct (Str.mem "%" x); [|done].
  by apply decode_replace_nonempty, unquote_to_bytes_nonempty.
Qed.

Lemma replace_char_nonempty a b x : x <> "" -> Str.replace_char a b x <> "".
Proof. by destruct x. Qed.

Lemma parse_field_wf x :
  Str.isascii x = true ->
  Forall (fun kv => utf8_valid (fst kv) /\ snd kv <> "" /\ utf8_valid (snd kv))
         (Query.parse_field false x).
Proof.
  intros Hx. unfold Query.parse_field.
  destruct (String.eqb x ""); [constructor|].
  destruct (Str.partition "=" x) as [[n v]|] eqn:Hp; cbn [orb]; [|constructor].
  destruct (String.eqb_spec v "") as [|Hne]; cbn [negb]; [constructor|].
  apply partition_Some in Hp as [-> _].
  rewrite isascii_all, all_app in Hx. apply andb_true_iff in Hx as [Hn Hv].
  cbn [Str.all] in Hv. apply andb_true_iff in Hv as [_ Hv].
  repeat constructor; cbn [fst snd].
  - apply unquote_valid. rewrite isascii_all. by apply replace_char_all.
  - by apply unquote_nonempty, replace_char_nonempty.
  - apply unquote_valid. rewrite isascii_all. by apply replace_char_all.
Qed.

Lemma parse_qs_wf q : Str.isascii q = true -> dict_wf (Query.parse_qs q false).
Proof.
  intros Hq. unfold Query.parse_qs.
  assert (Forall (fun kv => utf8_valid (fst kv) /\ snd kv <> "" /\ utf8_valid (snd kv))
                 (Query.parse_qsl q false)) as Hpairs.
  { unfold Query.parse_qsl. destruct (String.eqb q ""); [constructor|].
    apply Forall_concat, Forall_fmap.
    rewrite isascii_all in Hq.
    eapply Forall_impl; [apply (split_all _ "&" _ Hq)|].
    intros x Hx. apply parse_field_wf. by rewrite isascii_all. }
  assert (dict_wf []) as Hnil by (split; constructor).
  revert Hnil. generalize (@nil (string * list string)).
  induction Hpairs as [|[k v] l (Hk & Hne & Hv) Hl IH]; intros d Hd; [done|].
  cbn [fold_left fst snd]. apply IH. by apply dict_add_wf.
Qed.

(** *** The sorted parameters, parsed again *)

Lemma sorted_items_fixed d : StronglySorted key_le d -> Query.sorted_items d = d.
Proof.
  induction 1 as [|x d Hs IH Hall]; [done|]. cbn [Query.sorted_items foldr].
  fold (Query.sorted_items d). rewrite IH.
  destruct d as [|y d]; [done|]. cbn [Query.insert_by_key].
  apply Forall_cons in Hall as [Hxy _]. unfold key_le, String.le in Hxy.
  by destruct (String.leb (fst x) (fst y)).
Qed.

Lemma filter_fixed {A} (P : A -> Prop) `{forall x, Decision (P x)} (l : list A) :
  Forall P l -> filter P l = l.
Proof.
  induction 1 as [|x l Hx Hl IH]; [done|].
  rewrite filter_cons_True by done. by rewrite IH.
Qed.

Lemma dict_wf_sublist d d' : d' `sublist_of` d -> dict_wf d -> dict_wf d'.
Proof.
  intros Hsub (Hnd & Hall). split.
  - eapply sublist_NoDup; [exact Hnd|]. by apply fmap_sublist.
  - apply Forall_forall. intros x Hx. eapply Forall_forall in Hall; [exact Hall|].
    by eapply elem_of_sublist.
Qed.

Lemma dict_wf_Permutation d d' : d ≡ₚ d' -> dict_wf d -> dict_wf d'.
Proof.
  intros Hp (Hnd & Hall). split.
  - by rewrite <- Hp.
  - by rewrite <- Hp.
Qed.

Lemma sorted_params_wf q :
  Str.isascii q = true ->
  dict_wf (URLNormalizer.sorted_params q)
  /\ StronglySorted key_le (URLNormalizer.sorted_params q)
  /\ Forall (fun kv => negb (Str.In_list (fst kv) URLNormalizer.remove_params))
            (URLNormalizer.sorted_params q).
Proof.
  intros Hq. unfold URLNormalizer.sorted_params. split; [|split].
  - eapply dict_wf_Permutation; [symmetry; apply sorted_items_Permutation|].
    eapply dict_wf_sublist; [apply sublist_filter|]. by apply parse_qs_wf.
  - apply sorted_items_sorted.
  - rewrite sorted_items_Permutation. apply Forall_forall.
    by intros x [Hx _]%list_elem_of_filter.
Qed.

Lemma sorted_params_urlencode q :
  Str.isascii q = true ->
  URLNormalizer.sorted_params (Query.urlencode (URLNormalizer.sorted_params q))
  = URLNormalizer.sorted_params q.
Proof.
  intros Hq. destruct (sorted_params_wf q Hq) as (Hwf & Hsorted & Hkept).
  unfold URLNormalizer.sorted_params at 1.
  rewrite parse_qs_urlencode by done.
  rewrite (filter_fixed _ _ Hkept). by apply sorted_items_fixed.
Qed.

Lemma join_all P sep l :
  Str.all P sep = true -> Forall (fun x => Str.all P x = true) l ->
  Str.all P (Str.join sep l) = true.
Proof.
  intros Hsep. induction 1 as [|x l Hx Hl IH]; [done|].
  destruct l as [|y l]; [by cbn|].
  change (Str.join sep (x :: y :: l)) with (x +:+ sep +:+ Str.join sep (y :: l)).
  by rewrite !all_app, Hx, Hsep, IH.
Qed.

Lemma encoded_query_ok c : encoded_ok c = true -> query_ok c = true.
Proof. destruct c as [[] [] [] [] [] [] [] []]; vm_compute; done. Qed.

Lemma urlencode_ok d : Str.all query_ok (Query.urlencode d) = true.
Proof.
  rewrite urlencode_fields. apply join_all; [reflexivity|].
  apply Forall_fmap, Forall_forall. intros kv _. unfold field. cbn.
  rewrite !all_app. cbn [Str.all].
  rewrite !(all_impl _ _ _ encoded_query_ok (encode_ok _)). reflexivity.
Qed.

(** ** Parsing what [urlunparse] wrote *)


Lemma urlunparse_body s h p q :
  urlunparse s h p "" q ""
  = (if String.eqb s "" then "" else s +:+ ":") +:+ body s h p q.
Proof.
  unfold urlunparse, urlunsplit, body, writes_netloc, rooted. cbn [String.eqb negb].
  destruct (String.eqb s ""), (String.eqb q ""); cbn [negb andb orb];
    rewrite ?append_nil_r, ?append_assoc; try reflexivity.
  all: destruct (negb (String.eqb h "") || _); rewrite ?append_assoc; reflexivity.
Qed.

(** *** Character classes of the parts *)

Lemma scheme_char_not_ws c : in_scheme_chars c = true -> not_ws c = true.
Proof. destruct c as [[] [] [] [] [] [] [] []]; vm_compute; done. Qed.

Lemma host_ok_not_ws c : host_ok c = true -> not_ws c = true.
Proof. unfold host_ok. by intros [_ ?]%andb_true_iff. Qed.

Lemma path_ok_not_ws c : path_ok c = true -> not_ws c = true.
Proof. unfold path_ok. by intros [_ ?]%andb_true_iff. Qed.

Lemma query_ok_not_ws c : query_ok c = true -> not_ws c = true.
Proof. destruct c as [[] [] [] [] [] [] [] []]; vm_compute; done. Qed.

Lemma scheme_wf_chars s :
  scheme_wf s -> s <> "" ->
  is_scheme_prefix s = true /\ Str.lower s = s /\ Str.all in_scheme_chars s = true
  /\ Str.mem ":" s = false.
Proof.
  intros [->|[Hpre Hlow]] Hne; [done|].
  destruct (is_scheme_prefix_chars s Hpre) as [_ Hall].
  repeat split; try done. by apply (all_mem in_scheme_chars).
Qed.

Lemma rooted_cons c p :
  rooted (String c p) = if Ascii.eqb c "/" then String c p else String "/" (String c p).
Proof. unfold rooted. cbn. by destruct (Ascii.eqb c "/"). Qed.

Lemma rooted_startswith p : p <> "" -> Str.startswith "/" (rooted p) = true.
Proof.
  intros Hp. destruct p as [|c p]; [done|]. rewrite rooted_cons.
  destruct (Ascii.eqb_spec c "/") as [->|Hne]; reflexivity.
Qed.

Lemma rooted_cases p : rooted p = p \/ (rooted p = "/" +:+ p /\ Str.startswith "/" p = false).
Proof.
  destruct p as [|c p]; [by left|]. rewrite rooted_cons.
  destruct (Ascii.eqb_spec c "/") as [->|Hne]; [by left|].
  right. split; [done|]. cbn [Str.startswith]. unfold Str.char_eqb.
  destruct (Ascii.eqb_spec "/" c) as [<-|]; done.
Qed.

Lemma rooted_all P p : P "/"%char = true -> Str.all P p = true -> Str.all P (rooted p) = true.
Proof.
  intros HP Hp. destruct (rooted_cases p) as [->|[-> _]]; [done|].
  cbn [String.append Str.all]. by rewrite HP.
Qed.

Lemma body_not_ws s h p q :
  Str.all host_ok h = true -> Str.all path_ok p = true -> Str.all query_ok q = true ->
  Str.all not_ws (body s h p q) = true.
Proof.
  intros Hh Hp Hq. unfold body. rewrite all_app. apply andb_true_iff. split.
  - destruct (writes_netloc s h p).
    + change ("//" +:+ h +:+ rooted p) with (String "/" (String "/" (h +:+ rooted p))).
      cbn [Str.all]. rewrite all_app.
      rewrite (all_impl _ _ _ host_ok_not_ws Hh).
      rewrite (rooted_all not_ws p); [done|done|].
      by apply (all_impl _ _ _ path_ok_not_ws).
    + by apply (all_impl _ _ _ path_ok_not_ws).
  - destruct (String.eqb q ""); [done|]. cbn [Str.all].
    by rewrite (all_impl _ _ _ query_ok_not_ws Hq).
Qed.

Lemma not_ws_cleaned x :
  Str.all not_ws x = true ->
  match x with EmptyString => True | String c _ => is_c0_control_or_space c = false end ->
  cleaned x = x.
Proof.
  intros Hws Hhead. unfold cleaned. rewrite lstrip_noop by done.
  assert (Str.mem TAB x = false) as H1 by (by apply (all_mem not_ws)).
  assert (Str.mem CR x = false) as H2 by (by apply (all_mem not_ws)).
  assert (Str.mem LF x = false) as H3 by (by apply (all_mem not_ws)).
  by rewrite (remove_char_noop TAB), (remove_char_noop CR), (remove_char_noop LF).
Qed.

(** *** The steps of [urlsplit] on the written text *)

Lemma partition_app_inv c a b pre post :
  Str.partition c (a +:+ b) = Some (pre, post) ->
  (exists y, Str.partition c a = Some (pre, y))
  \/ (Str.mem c a = false /\ exists pre', Str.partition c b = Some (pre', post)).
Proof.
  revert pre. induction a as [|d a IH]; intros pre; cbn [String.append Str.partition Str.mem].
  - intros H. right. split; [done|]. by exists pre.
  - destruct (Str.char_eqb c d); [intros [= <- <-]; left; by eexists|].
    destruct (Str.partition c (a +:+ b)) as [[x y]|] eqn:Hp; [|done].
    intros [= <- <-]. destruct (IH x eq_refl) as [[y' Hy]|[Hm [pre' Hb]]].
    + left. rewrite Hy. by eexists.
    + right. cbn [orb]. split; [done|]. by exists pre'.
Qed.

Lemma query_part_no_colon q :
  Str.all query_ok q = true ->
  Str.mem ":" (if String.eqb q "" then "" else String "?" q) = false.
Proof.
  intros Hq. destruct (String.eqb q ""); [done|]. cbn [Str.mem].
  by rewrite (all_mem query_ok ":" q Hq).
Qed.

Lemma writes_netloc_noscheme h p : writes_netloc "" h p = negb (String.eqb h "").
Proof. unfold writes_netloc. cbn. apply orb_false_r. Qed.

Lemma split_scheme_written s h p q :
  scheme_wf s -> Str.all query_ok q = true ->
  (s = "" -> h = "" -> headless p) ->
  split_scheme ((if String.eqb s "" then "" else s +:+ ":") +:+ body s h p q)
  = (s, body s h p q).
Proof.
  intros Hs Hq Hhl. destruct (String.eqb_spec s "") as [->|Hne].
  - cbn [String.append]. unfold split_scheme.
    destruct (Str.partition ":" (body "" h p q)) as [[pre post]|] eqn:Hpart; [|done].
    assert (is_scheme_prefix pre = false) as ->; [|done].
    unfold body in Hpart. rewrite writes_netloc_noscheme in Hpart.
    destruct (String.eqb_spec h "") as [->|Hh]; cbn [negb] in Hpart.
    + apply partition_app_inv in Hpart as [[y Hy]|[_ [pre' Hq']]].
      * destruct (Hhl eq_refl eq_refl) as [_ Hno]. by apply (Hno pre y).
      * pose proof (query_part_no_colon q Hq) as Hm.
        apply partition_None in Hm. congruence.
    + change ("//" +:+ h +:+ rooted p) with (String "/" (String "/" (h +:+ rooted p)))
        in Hpart.
      cbn [String.append Str.partition] in Hpart.
      change (Str.char_eqb ":" "/") with false in Hpart.
      destruct (Str.partition ":" _) as [[x y]|]; [|done].
      by injection Hpart as <- <-.
  - destruct (scheme_wf_chars s Hs Hne) as (Hpre & Hlow & _ & Hmem).
    rewrite append_assoc. change (":" +:+ ?t) with (String ":" t).
    unfold split_scheme. rewrite partition_app by done. by rewrite Hpre, Hlow.
Qed.

Lemma split_netloc_plain x :
  Str.startswith "//" x = false -> split_netloc x = inr ("", x).
Proof.
  destruct x as [|c1 x]; [done|].
  destruct (Ascii.eqb_spec c1 "/") as [->|Hne1]; cycle 1.
  { intros _. destruct c1 as [[] [] [] [] [] [] [] []]; try reflexivity. by destruct Hne1. }
  destruct x as [|c2 x]; [done|].
  destruct (Ascii.eqb_spec c2 "/") as [->|Hne2]; [done|].
  intros _. destruct c2 as [[] [] [] [] [] [] [] []]; try reflexivity. by destruct Hne2.
Qed.

Lemma startswith2_app p t :
  p <> "" -> Str.startswith "//" p = false ->
  match t with EmptyString => True | String c _ => c = "?"%char end ->
  Str.startswith "//" (p +:+ t) = false.
Proof.
  intros Hp Hs Ht. destruct p as [|c [|d p]]; [done| |exact Hs].
  cbn [String.append Str.startswith]. destruct (Str.char_eqb "/" c); [|done].
  destruct t as [|e t]; [done|]. by subst e.
Qed.

Lemma host_ok_netloc_chars h :
  Str.all host_ok h = true -> Str.all (fun c => negb (Str.mem c "/?#")) h = true.
Proof. apply all_impl. unfold host_ok. by intros c [? _]%andb_true_iff. Qed.

Lemma split_netloc_written s h p q :
  Str.all host_ok h = true -> check_netloc_brackets h = inr tt ->
  p <> "" -> (h <> "" \/ Str.startswith "//" p = false) ->
  split_netloc (body s h p q)
  = inr (h, path_written s h p +:+ (if String.eqb q "" then "" else String "?" q)).
Proof.
  intros Hh Hbr Hp Hd. unfold body, path_written.
  destruct (writes_netloc s h p) eqn:Hw.
  - rewrite !append_assoc.
    change ("//" +:+ ?t) with (String "/" (String "/" t)).
    cbn [split_netloc]. unfold splitnetloc.
    rewrite span_app; [by rewrite Hbr|by apply host_ok_netloc_chars|].
    pose proof (rooted_startswith p Hp) as Hr.
    destruct (rooted p) as [|c r]; [done|]. cbn [String.append].
    cbn [Str.startswith] in Hr. apply andb_true_iff in Hr as [Hc _].
    apply char_eqb_eq in Hc as <-. reflexivity.
  - assert (h = "") as ->.
    { unfold writes_netloc in Hw. apply orb_false_iff in Hw as [Hw _].
      apply negb_false_iff in Hw. by apply String.eqb_eq. }
    destruct Hd as [?|Hd]; [done|].
    apply split_netloc_plain, startswith2_app; [done|done|].
    by destruct (String.eqb q "").
Qed.

Lemma split_fragment_written pw q :
  Str.all path_ok pw = true -> Str.all query_ok q = true ->
  split_at "#" (pw +:+ (if String.eqb q "" then "" else String "?" q))
  = (pw +:+ (if String.eqb q "" then "" else String "?" q), "").
Proof.
  intros Hp Hq. unfold split_at.
  assert (Str.mem "#" (pw +:+ (if String.eqb q "" then "" else String "?" q)) = false) as Hm.
  { rewrite mem_app, (all_mem path_ok "#" pw Hp) by reflexivity.
    destruct (String.eqb q ""); [done|]. cbn [Str.mem orb].
    by rewrite (all_mem query_ok "#" q Hq). }
  by apply partition_None in Hm as ->.
Qed.

Lemma split_query_written pw q :
  Str.all path_ok pw = true ->
  split_at "?" (pw +:+ (if String.eqb q "" then "" else String "?" q)) = (pw, q).
Proof.
  intros Hp. unfold split_at.
  assert (Str.mem "?" pw = false) as Hm by (by apply (all_mem path_ok)).
  destruct (String.eqb_spec q "") as [->|Hne].
  - rewrite append_nil_r. by apply partition_None in Hm as ->.
  - by rewrite partition_app.
Qed.

Lemma path_written_ok s h p :
  Str.all path_ok p = true -> Str.all path_ok (path_written s h p) = true.
Proof.
  intros Hp. unfold path_written. destruct (writes_netloc s h p); [|done].
  by apply rooted_all.
Qed.

Lemma urlsplit_written s h p q :
  scheme_wf s -> Str.all host_ok h = true -> check_netloc_brackets h = inr tt ->
  p <> "" -> Str.all path_ok p = true -> Str.all query_ok q = true ->
  (h <> "" \/ Str.startswith "//" p = false) ->
  (s = "" -> headless p) ->
  urlsplit (urlunparse s h p "" q "") = inr (s, h, path_written s h p, q, "").
Proof.
  intros Hs Hh Hbr Hp Hpok Hq Hd Hhl. rewrite urlunparse_body. unfold urlsplit.
  rewrite not_ws_cleaned.
  - rewrite split_scheme_written by auto.
    rewrite split_netloc_written by done.
    rewrite split_fragment_written by (by try apply path_written_ok).
    by rewrite split_query_written by (by apply path_written_ok).
  - rewrite all_app, body_not_ws by done.
    destruct (String.eqb_spec s "") as [->|Hne]; [done|].
    destruct (scheme_wf_chars s Hs Hne) as (_ & _ & Hall & _).
    rewrite all_app, (all_impl _ _ _ scheme_char_not_ws Hall). reflexivity.
  - destruct (String.eqb_spec s "") as [->|Hne].
    + cbn [String.append]. unfold body. rewrite writes_netloc_noscheme.
      destruct (String.eqb_spec h "") as [->|Hne]; cbn [negb]; [|reflexivity].
      destruct (Hhl eq_refl) as [Hhead _]. by destruct p.
    + destruct (scheme_wf_chars s Hs Hne) as (Hpre & _).
      destruct s as [|c s]; [done|]. cbn [String.append].
      unfold is_scheme_prefix in Hpre.
      apply andb_true_iff in Hpre as [Hc _]. apply andb_true_iff in Hc as [_ Hc].
      revert Hc. clear. destruct c as [[] [] [] [] [] [] [] []]; vm_compute; done.
Qed.

(** *** The parameters of the last segment *)

Lemma last_segment_rooted p : last_segment (rooted p) = last_segment p.
Proof.
  destruct (rooted_cases p) as [H|[H Hs]]; rewrite H; [done|].
  unfold last_segment. change ("/" +:+ p) with (String "/" p).
  cbn [Str.rpartition]. destruct (Str.rpartition "/" p) as [[a b]|]; reflexivity.
Qed.

Lemma last_segment_path_written s h p :
  last_segment (path_written s h p) = last_segment p.
Proof.
  unfold path_written. destruct (writes_netloc s h p); [|done]. apply last_segment_rooted.
Qed.

Lemma splitparams_plain u :
  Str.mem ";" u = true -> Str.mem ";" (last_segment u) = false -> splitparams u = (u, "").
Proof.
  unfold last_segment, splitparams. intros Hu Hl.
  destruct (Str.rpartition "/" u) as [[dir last]|].
  - by apply partition_None in Hl as ->.
  - congruence.
Qed.

Lemma urlparse_written s h p q :
  scheme_wf s -> Str.all host_ok h = true -> check_netloc_brackets h = inr tt ->
  p <> "" -> Str.all path_ok p = true -> Str.all query_ok q = true ->
  (h <> "" \/ Str.startswith "//" p = false) ->
  (s = "" -> headless p) ->
  (Str.In_list s uses_params = true -> Str.mem ";" (last_segment p) = false) ->
  urlparse (urlunparse s h p "" q "")
  = inr (mkParseResult s h (path_written s h p) "" q "").
Proof.
  intros Hs Hh Hbr Hp Hpok Hq Hd Hhl Hsemi. unfold urlparse.
  rewrite urlsplit_written by done.
  destruct (Str.In_list s uses_params) eqn:Hin; [|done].
  destruct (Str.mem ";" (path_written s h p)) eqn:Hm; [|done].
  cbn [andb]. rewrite splitparams_plain; [done|done|].
  rewrite last_segment_path_written. by apply Hsemi.
Qed.

(** *** Normalising what was written *)

Lemma take1_startswith p : String.eqb (Str.take 1 p) "/" = Str.startswith "/" p.
Proof.
  destruct p as [|c p]; [done|]. cbn [Str.take Str.startswith].
  destruct p; destruct c as [[] [] [] [] [] [] [] []]; reflexivity.
Qed.

Lemma rooted_rooted p : rooted (rooted p) = rooted p.
Proof.
  destruct (rooted_cases p) as [H|[H Hs]]; [by rewrite !H|].
  rewrite H. reflexivity.
Qed.

Lemma writes_netloc_rooted s h p :
  writes_netloc s h p = true -> writes_netloc s h (rooted p) = true.
Proof.
  destruct (rooted_cases p) as [H|[H Hs]]; rewrite H; [done|].
  unfold writes_netloc. destruct (negb (String.eqb h "")); [done|]. cbn [orb].
  intros [[-> ->]%andb_true_iff _]%andb_true_iff. cbn [andb].
  destruct p as [|c p]; [done|]. cbn [Str.startswith] in Hs.
  change ("/" +:+ String c p) with (String "/" (String c p)). cbn [Str.take].
  revert Hs. destruct c as [[] [] [] [] [] [] [] []]; vm_compute; done.
Qed.

Lemma body_path_written s h p q : body s h (path_written s h p) q = body s h p q.
Proof.
  unfold body, path_written. destruct (writes_netloc s h p) eqn:Hw; [|by rewrite Hw].
  by rewrite writes_netloc_rooted, rooted_rooted.
Qed.

Lemma normalize_path_written s h x p :
  p = URLNormalizer.normalize_path x ->
  URLNormalizer.normalize_path (path_written s h p) = path_written s h p.
Proof.
  intros Hp. unfold path_written.
  assert (URLNormalizer.normalize_path p = p) as Hfixed
    by (rewrite Hp; apply normalize_path_fixed).
  destruct (writes_netloc s h p); [|done].
  destruct (rooted_cases p) as [H|[H Hs]]; rewrite H; [done|].
  pose proof (normalize_path_cases x) as Hc. cbv zeta in Hc. rewrite <- Hp in Hc.
  destruct Hc as [Hroot|(Hne & _ & Hlow & Hfix)].
  { by rewrite Hroot in Hs. }
  unfold URLNormalizer.normalize_path.
  rewrite lower_app, Hlow. change (Str.lower "/") with "/".
  rewrite rstrip_fixed_app by done. reflexivity.
Qed.

(** C7 (amended). [normalize] is idempotent on the ASCII URLs it settles in one
    pass: when the rewritten host is a fixed point of the host rewriting and
    still passes the bracket check, the rewritten path does not begin with two
    slashes unless a host is written before it, and, for a scheme that takes
    parameters, the last segment of the rewritten path holds no semicolon,
    then [normalize] succeeds on [url] and returns its own result when applied
    to it again. *)
Theorem normalize_idempotent_once_settled url parsed :
  Str.isascii url = true ->
  urlparse url = inr parsed ->
  let h := URLNormalizer.normalize_netloc (netloc parsed) in
  let p := URLNormalizer.normalize_path (path parsed) in
  URLNormalizer.normalize_netloc h = h ->
  check_netloc_brackets h = inr tt ->
  (h <> "" \/ Str.startswith "//" p = false) ->
  (Str.In_list (scheme parsed) uses_params = true ->
   Str.mem ";" (last_segment p) = false) ->
  exists n,
    URLNormalizer.normalize url = Some n /\ URLNormalizer.normalize n = Some n.
Proof.
  intros Hascii Hparse h p Hh Hbr Hd Hsemi.
  destruct (urlparse_shape url parsed Hparse)
    as (Hs & Hhost & _ & Hpath & _ & Hhl & Hquery).
  set (q := Query.urlencode (URLNormalizer.sorted_params (query parsed))).
  exists (urlunparse (scheme parsed) h p "" q "").
  split.
  { unfold URLNormalizer.normalize, URLNormalizer.normalize_body. by rewrite Hparse. }
  assert (Str.isascii (query parsed) = true) as Hq.
  { rewrite isascii_all. apply Hquery. rewrite <- isascii_all. by apply cleaned_isascii. }
  unfold URLNormalizer.normalize, URLNormalizer.normalize_body.
  rewrite urlparse_written.
  - cbn [scheme netloc path query]. rewrite Hh.
    rewrite (normalize_path_written _ _ (path parsed)) by reflexivity.
    unfold q at 1. rewrite sorted_params_urlencode by done. fold q.
    by rewrite !urlunparse_body, body_path_written.
  - exact Hs.
  - by apply normalize_netloc_shape.
  - exact Hbr.
  - apply normalize_path_nonempty.
  - by apply normalize_path_shape.
  - apply urlencode_ok.
  - exact Hd.
  - intros Hnil. apply normalize_path_headless. by apply Hhl.
  - exact Hsemi.
Qed.

(** ** Runs on concrete URLs, with the reference libraries *)

Section Concrete.
Import Reference.

Lemma reference_libraries_ok : LibrariesOK.
Proof.
  split; simpl; eauto.
  intros s bf bf' [= <-]. unfold Str.In_list. simpl. by rewrite String.eqb_refl.
Qed.

(** C1. With the default filter and [max_cache_size = 2], three new URLs
    leave three keys in the cache: the filter branch returns before the
    eviction check. *)
Lemma filter_branch_skips_eviction :
  let self := snd (run [IsDuplicate "http://a.example/1";
                        IsDuplicate "http://a.example/2";
                        IsDuplicate "http://a.example/3"]
                       (init 2 true 10000000 rate_0_01)) in
  max_cache_size self = 2
  /\ size (seen_urls self) = 3%nat
  /\ cache_evictions (stats self) = 0.
Proof. vm_compute. done. Qed.

(** C2, as stated, fails: an exact-only deduplicator with [max_cache_size = 1]
    evicts the key it has just recorded, so the second submission is new
    again; and a URL that normalises to one the second query pass cannot
    parse is reported as a duplicate at its first submission. *)
Lemma second_submission_not_always_exact_duplicate :
  (let self0 := init 1 false 10000000 rate_0_01 in
   let url := "https://example.com/page" in
   URLNormalizer.normalize url = Some "https://example.com/page"
   /\ DeduplicationResult.is_duplicate (fst (is_duplicate url self0)) = false
   /\ ~ (DeduplicationResult.is_duplicate
           (fst (is_duplicate url (snd (is_duplicate url self0)))) = true
         /\ DeduplicationResult.reason
              (fst (is_duplicate url (snd (is_duplicate url self0))))
            = Some "Exact duplicate"))
  /\ (let url := "http://[v1.www.]/" in
      URLNormalizer.normalize url = Some "http://[v1.]/"
      /\ fst (is_duplicate url init_default)
         = DeduplicationResult.mk true "" url (Some "Error: IPvFuture address is invalid")).
Proof.
  split.
  - vm_compute. split; [done|]. split; [done|]. by intros [? _].
  - vm_compute. done.
Qed.

Lemma second_submission_is_exact_duplicate_witness :
  exists h,
    _compute_url_hash "https://example.com/page" = inr h
    /\ fst (is_duplicate "https://www.example.com/page/" (init 1000000 true 10000000 rate_0_01))
       = DeduplicationResult.mk false h "https://example.com/page" None
    /\ fst (is_duplicate "https://www.example.com/page/"
              (snd (is_duplicate "https://www.example.com/page/"
                      (init 1000000 true 10000000 rate_0_01))))
       = DeduplicationResult.mk true h "https://example.com/page" (Some "Exact duplicate").
Proof.
  apply (second_submission_is_exact_duplicate (L := libraries) (OK := reference_libraries_ok)
           1000000 true 10000000 rate_0_01 "https://www.example.com/page/"
           "https://example.com/page" "https://example.com/page").
  - reflexivity.
  - left. reflexivity.
  - reflexivity.
  - reflexivity.
Defined.

(** C3. A string with neither scheme nor host is normalised, not refused. *)
Lemma normalize_accepts_missing_scheme_and_host :
  UrllibParse.urlparse "example.com/page"
    = inr (UrllibParse.mkParseResult "" "" "example.com/page" "" "" "")
  /\ URLNormalizer.normalize "example.com/page" = Some "example.com/page"
  /\ URLNormalizer.normalize "" = Some "/".
Proof. repeat split; reflexivity. Qed.

Lemma eviction_keeps_the_most_frequent_witness :
  let self := snd (run [IsDuplicate "http://a.example/1";
                        IsDuplicate "http://a.example/2";
                        IsDuplicate "http://a.example/2";
                        IsDuplicate "http://a.example/3"]
                       (init 2 true 10000000 rate_0_01)) in
  fst (_evict_cache self) = inr tt
  /\ Z.of_nat (size (seen_urls (snd (_evict_cache self)))) = 1
  /\ seen_urls (snd (_evict_cache self)) = {[ "4ae4b05e7a9fbf410daa476e20c08134" ]}.
Proof.
  intros self.
  destruct (eviction_keeps_the_most_frequent self) as (Hran & Hsize & _).
  - apply run_invariant, init_invariant.
  - vm_compute. split; [discriminate|reflexivity].
  - vm_compute. reflexivity.
  - split; [exact Hran|]. split; [exact Hsize|]. vm_compute. reflexivity.
Defined.




Lemma checks_in_declared_order_witness :
  URLValidator.is_valid_url "http://example.com/report.pdf"
    = URLValidator.mkValidation false "Blocked file extension"
  /\ String.length long_url = 2001%nat
  /\ URLValidator.is_valid_url long_url
     = URLValidator.mkValidation false "URL too long"
  /\ URLValidator.is_valid_url "http://www.facebook.com/report.pdf"
     = URLValidator.mkValidation false "Blocked domain"
  /\ URLValidator.is_valid_url "//example.com/report.pdf"
     = URLValidator.mkValidation false "Invalid URL format".
Proof.
  split; [|split; [reflexivity|split; [|split]]].
  - destruct (checks_in_declared_order (T := tldextract) "http://example.com/report.pdf"
                (UrllibParse.mkParseResult "http" "example.com" "/report.pdf" "" "" ""))
      as (_ & _ & _ & Hrest); [reflexivity|reflexivity|].
    destruct (Hrest (URLValidator.mkExtract "" "example" "com"))
      as (_ & Hpdf & _); [reflexivity|reflexivity|reflexivity|].
    apply Hpdf; reflexivity.
  - destruct (checks_in_declared_order (T := tldextract) long_url
                (UrllibParse.mkParseResult "http" "example.com"
                   (String.substring 18 1983 long_url) "" "" ""))
      as (_ & _ & _ & Hrest); [vm_compute; reflexivity|vm_compute; reflexivity|].
    destruct (Hrest (URLValidator.mkExtract "" "example" "com"))
      as (_ & _ & _ & Hlong & _);
      [vm_compute; reflexivity|vm_compute; reflexivity|vm_compute; reflexivity|].
    apply Hlong; [vm_compute; reflexivity|vm_compute; reflexivity|].
    apply Nat.ltb_lt. vm_compute. reflexivity.
  - destruct (checks_in_declared_order (T := tldextract) "http://www.facebook.com/report.pdf"
                (UrllibParse.mkParseResult "http" "www.facebook.com" "/report.pdf" "" "" ""))
      as (_ & _ & _ & Hrest); [reflexivity|reflexivity|].
    destruct (Hrest (URLValidator.mkExtract "www" "facebook" "com"))
      as (Hdom & _); [reflexivity|reflexivity|reflexivity|].
    apply Hdom; reflexivity.
  - destruct (checks_in_declared_order (T := tldextract) "//example.com/report.pdf"
                (UrllibParse.mkParseResult "" "example.com" "/report.pdf" "" "" ""))
      as (_ & Hfmt & _); [reflexivity|reflexivity|].
    apply Hfmt; reflexivity.
Defined.
(** C7, as stated, fails: the host substitutions are applied once each, so a
    host such as [www-mobile.example.com] loses its mobile marker in the first
    pass and its [www.] prefix only in the second; a semicolon that the first
    pass leaves in the last path segment is read as a parameter by the
    second; a path that begins with two slashes is written without a host
    and read back as one; and a bracketed host can be rewritten into one
    that [urlparse] refuses. *)
Lemma normalize_twice_rewrites_again :
  (URLNormalizer.normalize "https://www-mobile.example.com/" = Some "https://www.example.com/"
   /\ URLNormalizer.normalize "https://www.example.com/" = Some "https://example.com/")
  /\ (URLNormalizer.normalize "http://example.com/a;b/" = Some "http://example.com/a;b"
      /\ URLNormalizer.normalize "http://example.com/a;b" = Some "http://example.com/a")
  /\ (URLNormalizer.normalize "http:////x" = Some "http://x"
      /\ URLNormalizer.normalize "http://x" = Some "http://x/")
  /\ (URLNormalizer.normalize "http://[v1.www.]/" = Some "http://[v1.]/"
      /\ URLNormalizer.normalize "http://[v1.]/" = None)
  /\ ~ (forall u n, URLNormalizer.normalize u = Some n -> URLNormalizer.normalize n = Some n).
Proof.
  do 4 (split; [split; vm_compute; reflexivity|]).
  intros Hidem.
  specialize (Hidem "https://www-mobile.example.com/" "https://www.example.com/" eq_refl).
  vm_compute in Hidem. discriminate Hidem.
Qed.

Lemma normalize_idempotent_once_settled_witness :
  exists n,
    URLNormalizer.normalize "https://WWW.Example.com/Path/?b=2&utm_source=x&a=1" = Some n
    /\ URLNormalizer.normalize n = Some n.
Proof.
  apply (normalize_idempotent_once_settled
           "https://WWW.Example.com/Path/?b=2&utm_source=x&a=1"
           (UrllibParse.mkParseResult "https" "WWW.Example.com" "/Path/" ""
                                      "b=2&utm_source=x&a=1" "")).
  - reflexivity.
  - reflexivity.
  - reflexivity.
  - reflexivity.
  - left. discriminate.
  - intros _. reflexivity.
Defined.

End Concrete.

Import Further.

(** * Further properties of the deduplicator *)

Section DedupMore.
Context `{L : Libraries}.

(** ** One call, forwards *)

Lemma canonical_inv url n h :
  canonical url = inr (n, h) ->
  exists c n0, URLNormalizer.normalize url = Some (String c n0)
               /\ _normalize_query_parameters (String c n0) = inr n
               /\ _compute_url_hash n = inr h.
Proof.
  unfold canonical. destruct (URLNormalizer.normalize url) as [[|c n0]|]; [done| |done].
  destruct (_normalize_query_parameters _) as [e|n'] eqn:Hq; [done|].
  destruct (_compute_url_hash n') as [e|h'] eqn:Hh; [done|].
  intros [= <- <-]. by exists c, n0.
Qed.

Ltac step_body Hcan :=
  destruct (canonical_inv _ _ _ Hcan) as (c & n0 & Hn & Hq & Hh);
  unfold is_duplicate, is_duplicate_try, bloom_fast_path, bind, lift, modify, get, ret;
  rewrite Hn, Hq, Hh; simpl.

Lemma is_duplicate_filter_new url self n h bf bf' :
  canonical url = inr (n, h) ->
  use_bloom_filter self = true -> bloom_filter self = Some bf ->
  bloom_contains n bf = inr false -> bloom_add n bf = inr bf' ->
  is_duplicate url self
  = (DeduplicationResult.mk false h n None,
     recorded h (set_bloom_filter (Some bf') (counted self))).
Proof.
  intros Hcan Huse Hbf Hc Ha. step_body Hcan.
  rewrite Huse, Hbf, Hc. simpl. by rewrite Ha.
Qed.

Lemma is_duplicate_repeat url self n h :
  canonical url = inr (n, h) -> falls_through n self -> h ∈ seen_urls self ->
  is_duplicate url self
  = (DeduplicationResult.mk true h n (Some "Exact duplicate"), repeated h (counted self)).
Proof.
  intros Hcan Hft Hin. step_body Hcan.
  destruct Hft as [Huse|(bf & Huse & Hbf & Hc)].
  - rewrite Huse. simpl. by rewrite bool_decide_eq_true_2.
  - rewrite Huse, Hbf, Hc. simpl. by rewrite bool_decide_eq_true_2.
Qed.

Lemma is_duplicate_new url self n h self' :
  canonical url = inr (n, h) -> falls_through n self -> h ∉ seen_urls self ->
  _evict_cache (recorded h (counted self)) = (inr tt, self') ->
  is_duplicate url self = (DeduplicationResult.mk false h n None, self').
Proof.
  intros Hcan Hft Hin Hev. step_body Hcan. unfold recorded, counted in Hev.
  destruct Hft as [Huse|(bf & Huse & Hbf & Hc)].
  - rewrite Huse. simpl. rewrite bool_decide_eq_false_2 by done. simpl.
    simpl in Hev. by rewrite Hev.
  - rewrite Huse, Hbf, Hc. simpl. rewrite bool_decide_eq_false_2 by done. simpl.
    simpl in Hev. by rewrite Hev.
Qed.

(** ** Malformed input *)

Lemma normalize_None url :
  URLNormalizer.normalize url = None <-> exists e, UrllibParse.urlparse url = inl e.
Proof.
  unfold URLNormalizer.normalize, URLNormalizer.normalize_body.
  destruct (UrllibParse.urlparse url) as [e|parsed]; split; try done.
  - by exists e.
  - by intros [e' ?].
Qed.

(** X1. On an ASCII input, [is_duplicate] answers "Invalid URL format"
    exactly when [urlparse] raises on the raw input; the call then changes
    nothing but [total_urls]. *)
Theorem invalid_format_exactly_when_urlparse_raises url self :
  Str.isascii url = true ->
  ((exists e, UrllibParse.urlparse url = inl e)
   <-> fst (is_duplicate url self)
       = DeduplicationResult.mk true "" url (Some "Invalid URL format"))
  /\ ((exists e, UrllibParse.urlparse url = inl e) ->
      snd (is_duplicate url self) = counted self).
Proof.
  intros _.
  assert (Hfwd : (exists e, UrllibParse.urlparse url = inl e) ->
                 is_duplicate url self
                 = (DeduplicationResult.mk true "" url (Some "Invalid URL format"),
                    counted self)).
  { intros He. apply normalize_None in He.
    unfold is_duplicate, is_duplicate_try, bind, modify, ret. by rewrite He. }
  split; [split|].
  - intros He. by rewrite (Hfwd He).
  - intros Hres. apply normalize_None.
    destruct (URLNormalizer.normalize url) as [n|] eqn:Hn; [exfalso|done].
    pose proof (normalize_nonempty _ _ Hn) as Hne.
    revert Hres. unfold is_duplicate.
    destruct (is_duplicate_try url self) as [[e|r] self'] eqn:Htry; simpl.
    + intros [=].
    + revert Htry. unfold is_duplicate_try, bloom_fast_path, bind, lift, modify, get, ret.
      rewrite Hn. destruct n as [|c n]; [done|].
      repeat case_match; intros; simplify_eq/=.
  - intros He. by rewrite (Hfwd He).
Qed.

(** ** The frequency dict: lookup after update *)

Lemma dict_get_set_same k v d default : dict_get k default (dict_set k v d) = v.
Proof.
  induction d as [|[k' v'] d IH]; simpl.
  - by rewrite String.eqb_refl.
  - destruct (String.eqb_spec k k') as [->|Hne]; simpl.
    + by rewrite String.eqb_refl.
    + by destruct (String.eqb_spec k k').
Qed.

Lemma dict_get_set_other k k' v d default :
  k' <> k -> dict_get k' default (dict_set k v d) = dict_get k' default d.
Proof.
  intros Hne. induction d as [|[k0 v0] d IH]; simpl.
  - by destruct (String.eqb_spec k' k).
  - destruct (String.eqb_spec k k0) as [->|Hk]; simpl.
    + by destruct (String.eqb_spec k' k0).
    + destruct (String.eqb_spec k' k0); [done|apply IH].
Qed.

(** X2. On an ASCII input, a result with the reason "Exact duplicate" is
    given only for a key that is in the membership cache when the call is
    made, whatever the filter says; the call leaves the cache as it is,
    adds one to the frequency of that key and to [duplicates], and leaves
    every other frequency alone. *)
Theorem exact_duplicate_only_for_cached_key url self r :
  Str.isascii url = true ->
  fst (is_duplicate url self) = r ->
  DeduplicationResult.reason r = Some "Exact duplicate" ->
  let self' := snd (is_duplicate url self) in
  let h := DeduplicationResult.hash_value r in
  canonical url = inr (DeduplicationResult.normalized_url r, h)
  /\ DeduplicationResult.is_duplicate r = true
  /\ h ∈ seen_urls self
  /\ seen_urls self' = seen_urls self
  /\ dict_get h 0 (url_frequency self') = dict_get h 0 (url_frequency self) + 1
  /\ (forall k, k <> h ->
        dict_get k 0 (url_frequency self') = dict_get k 0 (url_frequency self))
  /\ duplicates (stats self') = duplicates (stats self) + 1
  /\ unique_urls (stats self') = unique_urls (stats self).
Proof.
  intros _ Hr Hreason self' h. subst self' h.
  pose proof (is_duplicate_outcome url self) as Hout. rewrite Hr in Hout.
  destruct Hout; simpl in Hreason; try discriminate Hreason.
  simpl. repeat split; try done.
  - apply dict_get_set_same.
  - intros k Hk. by apply dict_get_set_other.
Qed.

(** ** Submissions to a new deduplicator *)

Section Fresh.
Context {OK : LibrariesOK}.

Lemma hash_total n : exists h, _compute_url_hash n = inr h.
Proof.
  destruct (hash128_total n) as [x Hx]. exists (hex_tail x).
  unfold _compute_url_hash. by rewrite Hx.
Qed.

(** the first submission of a URL that has a canonical form *)
Lemma first_submission max use size rate url n h :
  use_bloom_filter (init max use size rate) = true \/ 2 <= max ->
  canonical url = inr (n, h) ->
  exists self1,
    is_duplicate url (init max use size rate)
    = (DeduplicationResult.mk false h n None, self1)
    /\ falls_through n self1
    /\ seen_urls self1 = {[h]}
    /\ url_frequency self1 = [(h, 1)]
    /\ total_urls (stats self1) = 1
    /\ duplicates (stats self1) = 0
    /\ unique_urls (stats self1) = 1.
Proof.
  intros Hcfg Hcan.
  destruct (init_fields max use size rate) as (Hseen & Hfreq & Hmax).
  assert (stats (init max use size rate) = mkStats 0 0 0 0) as Hstats.
  { unfold init, _initialize_bloom_filter. by destruct use, pybloom_installed. }
  set (s0 := init max use size rate) in *.
  destruct (use_bloom_filter s0) eqn:Huse.
  - pose proof (init_filter_on _ _ _ _ Huse) as Hbf. fold s0 in Hbf.
    destruct (bloom_add_total n (bloom_new size rate)) as [bf' Hadd].
    eexists. split.
    { eapply is_duplicate_filter_new; eauto. apply bloom_new_empty. }
    split.
    { right. exists bf'. repeat split; [done|]. by apply bloom_no_false_negative in Hadd. }
    simpl. rewrite Hseen, Hfreq, Hstats. simpl.
    repeat split; try done. by rewrite union_empty_r_L.
  - destruct Hcfg as [?|Hcfg]; [done|].
    exists (recorded h (counted s0)). split.
    { apply is_duplicate_new with (n := n) (h := h); [done|by left| |].
      - rewrite Hseen. apply not_elem_of_empty.
      - apply evict_idle. unfold _should_evict_cache. simpl.
        rewrite Hseen, Hmax. apply Z.leb_gt.
        rewrite union_empty_r_L, size_singleton. lia. }
    split; [by left|].
    simpl. rewrite Hseen, Hfreq, Hstats. simpl.
    repeat split; try done. by rewrite union_empty_r_L.
Qed.

(** [k] further submissions of a URL whose key is cached *)
Lemma repeats_are_duplicates k url n h self :
  canonical url = inr (n, h) -> falls_through n self -> h ∈ seen_urls self ->
  exists self',
    add_batch (replicate k url) self
    = (replicate k (DeduplicationResult.mk true h n (Some "Exact duplicate")), self')
    /\ falls_through n self'
    /\ seen_urls self' = seen_urls self
    /\ dict_get h 0 (url_frequency self') = dict_get h 0 (url_frequency self) + Z.of_nat k
    /\ total_urls (stats self') = total_urls (stats self) + Z.of_nat k
    /\ duplicates (stats self') = duplicates (stats self) + Z.of_nat k
    /\ unique_urls (stats self') = unique_urls (stats self).
Proof.
  intros Hcan. revert self. induction k as [|k IH]; intros self Hft Hin.
  - exists self. simpl. repeat split; try done; lia.
  - simpl. rewrite (is_duplicate_repeat _ _ _ _ Hcan Hft Hin).
    destruct (IH (repeated h (counted self))) as (self' & Hb & Hft' & Hs & Hf & Ht & Hd & Hu).
    { exact Hft. }
    { exact Hin. }
    exists self'. rewrite Hb. split; [done|]. split; [done|].
    split; [by rewrite Hs|].
    simpl in Hf, Ht, Hd, Hu. rewrite dict_get_set_same in Hf.
    repeat split; lia.
Qed.

(** X3. Two ASCII URLs with the same canonical form are one URL to a new
    deduplicator (whose filter is in use, or whose bound is at least 2,
    with libraries that behave): the first is new, the second an exact
    duplicate with the same key. *)
Theorem same_canonical_form_is_duplicate max use size rate u1 u2 n h :
  Str.isascii u1 = true -> Str.isascii u2 = true ->
  use_bloom_filter (init max use size rate) = true \/ 2 <= max ->
  canonical u1 = inr (n, h) -> canonical u2 = inr (n, h) ->
  fst (is_duplicate u1 (init max use size rate))
    = DeduplicationResult.mk false h n None
  /\ fst (is_duplicate u2 (snd (is_duplicate u1 (init max use size rate))))
     = DeduplicationResult.mk true h n (Some "Exact duplicate").
Proof.
  intros _ _ Hcfg H1 H2.
  destruct (first_submission _ _ _ _ _ _ _ Hcfg H1) as (self1 & -> & Hft & Hseen & _).
  split; [done|]. simpl.
  rewrite (is_duplicate_repeat _ _ _ _ H2 Hft); [done|].
  rewrite Hseen. by apply elem_of_singleton.
Qed.

(** X4. [add_batch] with [k + 1] copies of an ASCII URL, on a new
    deduplicator as above, returns one new result followed by [k] exact
    duplicates, and leaves the key with frequency [k + 1], [total_urls] at
    [k + 1], [duplicates] at [k] and [unique_urls] at 1. *)
Theorem frequency_counts_submissions max use size rate url n h k :
  Str.isascii url = true ->
  use_bloom_filter (init max use size rate) = true \/ 2 <= max ->
  canonical url = inr (n, h) ->
  let out := add_batch (replicate (S k) url) (init max use size rate) in
  fst out = DeduplicationResult.mk false h n None
            :: replicate k (DeduplicationResult.mk true h n (Some "Exact duplicate"))
  /\ seen_urls (snd out) = {[h]}
  /\ dict_get h 0 (url_frequency (snd out)) = Z.of_nat k + 1
  /\ total_urls (stats (snd out)) = Z.of_nat k + 1
  /\ duplicates (stats (snd out)) = Z.of_nat k
  /\ unique_urls (stats (snd out)) = 1.
Proof.
  intros _ Hcfg Hcan out. subst out. simpl.
  destruct (first_submission _ _ _ _ _ _ _ Hcfg Hcan)
    as (self1 & -> & Hft & Hseen & Hfreq & Ht & Hd & Hu).
  destruct (repeats_are_duplicates k _ _ _ self1 Hcan Hft)
    as (self' & -> & _ & Hs' & Hf' & Ht' & Hd' & Hu').
  { rewrite Hseen. by apply elem_of_singleton. }
  simpl. rewrite Hfreq in Hf'. simpl in Hf'. rewrite String.eqb_refl in Hf'.
  repeat split; [by rewrite Hs'|lia..].
Qed.

Lemma clear_cache_fields self :
  seen_urls (clear_cache self) = ∅
  /\ url_frequency (clear_cache self) = []
  /\ max_cache_size (clear_cache self) = max_cache_size self
  /\ use_bloom_filter (clear_cache self) = use_bloom_filter self && pybloom_installed
  /\ stats (clear_cache self)
     = mkStats (total_urls (stats self)) (duplicates (stats self))
               (unique_urls (stats self)) (cache_evictions (stats self) + 1).
Proof.
  unfold clear_cache, _initialize_bloom_filter.
  by destruct (use_bloom_filter self) eqn:Hu, pybloom_installed; simpl; rewrite ?Hu.
Qed.

(** X5. [clear_cache] forgets every URL: it empties the membership cache
    and the frequency table, adds one to [cache_evictions] and leaves the
    other counters alone; and (with libraries that behave and a bound that
    a float can hold) the next submission of any ASCII URL that has a
    canonical form is new, whatever was submitted before. *)
Theorem clear_cache_forgets self url n h :
  Str.isascii url = true ->
  float_range (max_cache_size self) ->
  canonical url = inr (n, h) ->
  seen_urls (clear_cache self) = ∅
  /\ url_frequency (clear_cache self) = []
  /\ stats (clear_cache self)
     = mkStats (total_urls (stats self)) (duplicates (stats self))
               (unique_urls (stats self)) (cache_evictions (stats self) + 1)
  /\ fst (is_duplicate url (clear_cache self)) = DeduplicationResult.mk false h n None.
Proof.
  intros _ Hrange Hcan.
  assert (seen_urls (clear_cache self) = ∅) as Hseen.
  { unfold clear_cache, _initialize_bloom_filter.
    by destruct (use_bloom_filter _), pybloom_installed. }
  split; [done|]. split.
  { unfold clear_cache, _initialize_bloom_filter.
    by destruct (use_bloom_filter _), pybloom_installed. }
  split.
  { unfold clear_cache, _initialize_bloom_filter.
    by destruct (use_bloom_filter _), pybloom_installed. }
  assert (max_cache_size (clear_cache self) = max_cache_size self) as Hmax.
  { unfold clear_cache, _initialize_bloom_filter.
    by destruct (use_bloom_filter _), pybloom_installed. }
  assert (use_bloom_filter (clear_cache self) = false
          \/ (use_bloom_filter (clear_cache self) = true
              /\ bloom_filter (clear_cache self) = Some (bloom_new 10000000 rate_0_01)))
    as [Huse|[Huse Hbf]].
  { unfold clear_cache, _initialize_bloom_filter. simpl.
    destruct (use_bloom_filter self) eqn:Hu, pybloom_installed; simpl; auto. }
  - set (s := recorded h (counted (clear_cache self))).
    destruct (evict_cases s) as [[_ Hev]|[(k & _ & _ & Hev)|(e & _ & Hk & _)]].
    + erewrite is_duplicate_new; eauto; [by left|].
      rewrite Hseen. apply not_elem_of_empty.
    + erewrite is_duplicate_new; eauto; [by left|].
      rewrite Hseen. apply not_elem_of_empty.
    + exfalso. change (max_cache_size s) with (max_cache_size (clear_cache self)) in Hk.
      rewrite Hmax in Hk.
      destruct (keep_count_in_range _ Hrange) as [k Hk']. congruence.
  - destruct (bloom_add_total n (bloom_new 10000000 rate_0_01)) as [bf' Hadd].
    erewrite is_duplicate_filter_new; eauto. apply bloom_new_empty.
Qed.

End Fresh.

(** ** Batches *)

(** X6. [add_batch] returns one result per URL, in order, and a batch in two
    parts is the first part followed by the second on the state the first
    left: [add_batch(us + vs)] gives the results and the state of
    [add_batch(us)] followed by [add_batch(vs)]; a batch of one URL is one
    call of [is_duplicate]. *)
Theorem add_batch_app us vs self :
  add_batch (us ++ vs) self
  = (fst (add_batch us self) ++ fst (add_batch vs (snd (add_batch us self))),
     snd (add_batch vs (snd (add_batch us self))))
  /\ length (fst (add_batch us self)) = length us
  /\ (forall url, add_batch [url] self
                  = ([fst (is_duplicate url self)], snd (is_duplicate url self))).
Proof.
  split; [|split].
  - revert self. induction us as [|u us IH]; intros self; simpl.
    + by destruct (add_batch vs self).
    + destruct (is_duplicate u self) as [r self1]. rewrite IH.
      destruct (add_batch us self1) as [rs self2]. simpl.
      by destruct (add_batch vs self2).
  - revert self. induction us as [|u us IH]; intros self; simpl; [done|].
    destruct (is_duplicate u self) as [r self1]. specialize (IH self1).
    destruct (add_batch us self1). simpl in *. by rewrite IH.
  - intros url. simpl. by destruct (is_duplicate url self).
Qed.

(** ** The size of the cache *)

Lemma evict_subseteq self :
  cache_invariant self -> seen_urls (snd (_evict_cache self)) ⊆ seen_urls self.
Proof.
  intros (Hdom & _ & _).
  destruct (evict_cases self) as [[_ H]|[(k & _ & _ & H)|(e & _ & _ & H)]];
    rewrite H; simpl; [done| |done].
  intros x Hx. apply elem_of_list_to_set in Hx. unfold keys in Hx.
  apply list_elem_of_fmap in Hx as ([k' v] & -> & Hkv).
  apply Hdom, list_elem_of_fmap. exists (k', v). split; [done|].
  by apply kept_sublist in Hkv.
Qed.

Lemma size_record_new (h : string) (X : gset string) :
  h ∉ X -> size ({[h]} ∪ X) = S (size X).
Proof.
  intros Hh. rewrite size_union by (by apply disjoint_singleton_l).
  by rewrite size_singleton.
Qed.

Lemma size_record_le (h : string) (X : gset string) : (size ({[h]} ∪ X) <= S (size X))%nat.
Proof.
  destruct (decide (h ∈ X)) as [Hin|Hout].
  - rewrite (subseteq_union_1_L {[h]} X) by (by apply singleton_subseteq_l). lia.
  - rewrite size_record_new by done. lia.
Qed.

Lemma evict_use_bloom self :
  use_bloom_filter (snd (_evict_cache self)) = use_bloom_filter self.
Proof.
  destruct (evict_cases self) as [[_ H]|[(k & _ & _ & H)|(e & _ & _ & H)]];
    by rewrite H.
Qed.

(** the size of the cache that an eviction leaves *)
Lemma evict_size self :
  cache_invariant self -> 0 <= max_cache_size self < 2 ^ 51 ->
  _should_evict_cache self = true ->
  fst (_evict_cache self) = inr tt
  /\ Z.of_nat (size (seen_urls (snd (_evict_cache self)))) = 3 * max_cache_size self / 4
  /\ cache_evictions (stats (snd (_evict_cache self))) = cache_evictions (stats self) + 1.
Proof.
  intros Hinv Hmax He.
  rewrite (evict_run _ _ He (keep_count_floor _ Hmax)). simpl.
  split; [done|]. split; [|done].
  destruct Hinv as (Hdom & Hnd & Hpos).
  rewrite size_list_to_set by (by apply kept_NoDup).
  unfold keys. rewrite length_fmap. apply kept_length; [done|lia|done].
Qed.

Lemma eviction_makes_room_aux self :
  cache_invariant self -> 1 <= max_cache_size self < 2 ^ 51 ->
  Z.of_nat (size (seen_urls (snd (_evict_cache self)))) < max_cache_size self.
Proof.
  intros Hinv Hmax. destruct (_should_evict_cache self) eqn:He.
  - destruct (evict_size self Hinv) as (_ & -> & _); [lia|done|].
    apply Z.div_lt_upper_bound; lia.
  - rewrite (evict_idle _ He). simpl.
    unfold _should_evict_cache in He. by apply Z.leb_gt in He.
Qed.

(** X7. An eviction makes room: on a cache that agrees with its frequency
    table, with a bound from 1 up to the range where the float product is
    exact, the cache that [_evict_cache] leaves is below the bound, so that
    a second eviction at once does nothing; [cache_evictions] goes up by
    one when keys are dropped and stays otherwise. *)
Theorem eviction_makes_room self :
  cache_invariant self ->
  1 <= max_cache_size self < 2 ^ 51 ->
  let self' := snd (_evict_cache self) in
  fst (_evict_cache self) = inr tt
  /\ Z.of_nat (size (seen_urls self')) < max_cache_size self
  /\ _evict_cache self' = (inr tt, self')
  /\ cache_evictions (stats self')
     = cache_evictions (stats self) + (if _should_evict_cache self then 1 else 0).
Proof.
  intros Hinv Hmax self'.
  assert (Z.of_nat (size (seen_urls self')) < max_cache_size self
          /\ fst (_evict_cache self) = inr tt
          /\ cache_evictions (stats self')
             = cache_evictions (stats self) + (if _should_evict_cache self then 1 else 0))
    as (Hlt & Hok & Hcnt).
  { subst self'. destruct (_should_evict_cache self) eqn:He.
    - destruct (evict_size self Hinv) as (Hok & Hsz & Hc); [lia|done|].
      rewrite Hsz, Hc. repeat split; [|done].
      apply Z.div_lt_upper_bound; lia.
    - rewrite (evict_idle _ He). simpl. repeat split; [|lia].
      unfold _should_evict_cache in He. by apply Z.leb_gt in He. }
  repeat split; [done|done| |done].
  apply evict_idle. unfold _should_evict_cache.
  apply Z.leb_gt. subst self'. by rewrite evict_max.
Qed.

(** *** Without the filter the cache stays below its bound *)

Lemma below_bound_counted max self : below_bound max self -> below_bound max (counted self).
Proof. by intros (? & ? & ? & ?). Qed.

Lemma below_bound_evict max self :
  1 <= max < 2 ^ 51 ->
  cache_invariant self -> use_bloom_filter self = false -> max_cache_size self = max ->
  below_bound max (snd (_evict_cache self)).
Proof.
  intros Hmax Hinv Huse Hm. subst max.
  pose proof (eviction_makes_room_aux self Hinv Hmax) as Hlt.
  repeat split; try apply (evict_invariant _ Hinv).
  - by rewrite evict_use_bloom.
  - apply evict_max.
  - exact Hlt.
Qed.

Lemma below_bound_outcome max url self r self' :
  1 <= max < 2 ^ 51 ->
  outcome url self r self' -> below_bound max self -> below_bound max self'.
Proof.
  intros Hmax Hout (Hinv & Huse & Hm & Hlt).
  destruct Hout.
  - by apply below_bound_counted.
  - by apply below_bound_counted.
  - exfalso.
    match goal with
    | He : fst (_evict_cache ?s) = inl _ |- _ =>
        destruct (_evict_cache s) as [[e'|u] s'] eqn:Hev; [|done];
        apply evict_raise_inv in Hev as [_ Hk]
    end.
    simpl in Hk. rewrite Hm, keep_count_floor in Hk by lia. done.
  - congruence.
  - split; [by apply repeated_invariant|done].
  - apply below_bound_evict; try done. by apply recorded_invariant.
Qed.

Lemma below_bound_is_duplicate max url self :
  1 <= max < 2 ^ 51 ->
  below_bound max self -> below_bound max (snd (is_duplicate url self)).
Proof.
  intros Hmax. apply below_bound_outcome with url (fst (is_duplicate url self)); [done|].
  apply is_duplicate_outcome.
Qed.

Lemma below_bound_add_batch max urls self :
  1 <= max < 2 ^ 51 ->
  below_bound max self -> below_bound max (snd (add_batch urls self)).
Proof.
  intros Hmax. revert self. induction urls as [|url urls IH]; intros self Hb; simpl; [done|].
  pose proof (below_bound_is_duplicate max url self Hmax Hb) as Hstep.
  destruct (is_duplicate url self) as [r self1]; simpl in Hstep.
  specialize (IH self1 Hstep). by destruct (add_batch urls self1).
Qed.

Lemma below_bound_apply max op self :
  1 <= max < 2 ^ 51 ->
  below_bound max self -> below_bound max (snd (apply op self)).
Proof.
  intros Hmax Hb. destruct op as [url|urls| |]; simpl.
  - pose proof (below_bound_is_duplicate max url self Hmax Hb).
    by destruct (is_duplicate url self).
  - by apply below_bound_add_batch.
  - destruct Hb as (Hinv & Huse & Hm & Hlt).
    destruct (clear_cache_fields self) as (Hs & _ & Hm' & Hu & _).
    split; [apply clear_cache_invariant|].
    rewrite Hs, Hm', Hu, Huse, size_empty. repeat split; [done|lia].
  - destruct Hb as (Hinv & Huse & Hm & Hlt). by apply below_bound_evict.
Qed.

Lemma below_bound_run max ops self :
  1 <= max < 2 ^ 51 ->
  below_bound max self -> below_bound max (snd (run ops self)).
Proof.
  intros Hmax. revert self. induction ops as [|op ops IH]; intros self Hb; simpl; [done|].
  pose proof (below_bound_apply max op self Hmax Hb) as Hstep.
  destruct (apply op self) as [rs self1]; simpl in Hstep.
  specialize (IH self1 Hstep). by destruct (run ops self1).
Qed.

(** X8. Without the filter the bound is kept: on a deduplicator made with
    [use_bloom_filter=False] and a bound from 1 up to the range where the
    float product is exact, after any sequence of [is_duplicate],
    [add_batch], [clear_cache] and [_evict_cache] the membership cache
    holds fewer keys than [max_cache_size], and [get_stats] reports that
    size. *)
Theorem exact_only_cache_stays_below_bound max bsize rate ops :
  1 <= max < 2 ^ 51 ->
  let self := snd (run ops (init max false bsize rate)) in
  Z.of_nat (size (seen_urls self)) < max
  /\ snd (get_stats self) < max
  /\ use_bloom_filter self = false.
Proof.
  intros Hmax self.
  destruct (below_bound_run max ops (init max false bsize rate) Hmax) as (_ & Huse & _ & Hlt).
  { split; [apply init_invariant|]. repeat split.
    destruct (init_fields max false bsize rate) as (-> & _ & _). rewrite size_empty. lia. }
  by repeat split.
Qed.

(** *** The cache holds no more keys than were counted as new *)

Lemma within_unique_outcome url self r self' :
  outcome url self r self' -> within_unique self -> within_unique self'.
Proof.
  intros Hout [Hinv Hle]. pose proof (outcome_invariant _ _ _ _ Hout Hinv) as Hinv'.
  split; [done|]. clear Hinv'.
  destruct Hout; simpl; try done.
  - pose proof (size_record_le h (seen_urls self)). lia.
  - pose proof (size_record_le h (seen_urls self)). lia.
  - set (s := recorded h (counted self)).
    assert (cache_invariant s) as Hs by (by apply recorded_invariant).
    pose proof (subseteq_size _ _ (evict_subseteq s Hs)) as Hsub.
    destruct (evict_counters s) as (_ & _ & ->).
    pose proof (size_record_le h (seen_urls self)). simpl in *. lia.
Qed.

Lemma within_unique_add_batch urls self :
  within_unique self -> within_unique (snd (add_batch urls self)).
Proof.
  revert self. induction urls as [|url urls IH]; intros self Hb; simpl; [done|].
  pose proof (within_unique_outcome url self _ _ (is_duplicate_outcome url self) Hb) as Hstep.
  destruct (is_duplicate url self) as [r self1]; simpl in Hstep.
  specialize (IH self1 Hstep). by destruct (add_batch urls self1).
Qed.

Lemma within_unique_apply op self :
  within_unique self -> within_unique (snd (apply op self)).
Proof.
  intros Hb. destruct op as [url|urls| |]; simpl.
  - pose proof (within_unique_outcome url self _ _ (is_duplicate_outcome url self) Hb).
    by destruct (is_duplicate url self).
  - by apply within_unique_add_batch.
  - destruct Hb as [Hinv Hle]. split; [apply clear_cache_invariant|].
    destruct (clear_cache_fields self) as (-> & _ & _ & _ & ->).
    rewrite size_empty. simpl. lia.
  - destruct Hb as [Hinv Hle]. split; [by apply evict_invariant|].
    pose proof (subseteq_size _ _ (evict_subseteq self Hinv)) as Hsub.
    destruct (evict_counters self) as (_ & _ & ->). lia.
Qed.

Lemma within_unique_run ops self :
  within_unique self -> within_unique (snd (run ops self)).
Proof.
  revert self. induction ops as [|op ops IH]; intros self Hb; simpl; [done|].
  pose proof (within_unique_apply op self Hb) as Hstep.
  destruct (apply op self) as [rs self1]; simpl in Hstep.
  specialize (IH self1 Hstep). by destruct (run ops self1).
Qed.

(** X9. What [get_stats] reports is coherent: after any sequence of
    operations on a new deduplicator, [cache_size] is the number of entries
    of the frequency table and is at most [unique_urls]. *)
Theorem cache_size_at_most_unique_urls max use size rate ops :
  let self := snd (run ops (init max use size rate)) in
  snd (get_stats self) = Z.of_nat (length (url_frequency self))
  /\ snd (get_stats self) <= unique_urls (fst (get_stats self)).
Proof.
  intros self.
  destruct (within_unique_run ops (init max use size rate)) as [Hinv Hle].
  { split; [apply init_invariant|].
    destruct (init_fields max use size rate) as (-> & _ & _). rewrite size_empty.
    unfold init, _initialize_bloom_filter.
    destruct use, pybloom_installed; simpl; lia. }
  fold self in Hinv, Hle. unfold get_stats. simpl.
  by rewrite (invariant_size _ Hinv) in *.
Qed.

(** ** The key of a URL *)

Lemma hex_value_digit x : (x < 16)%N -> Query.hex_value (hex_digit x) = x.
Proof.
  intros Hx. apply N.ltb_lt in Hx.
  destruct x as [|p]; [reflexivity|].
  do 5 (try destruct p as [p|p|]); try reflexivity; discriminate Hx.
Qed.

Lemma hex_digit_lower x : (x < 16)%N -> lower_hexdigit (hex_digit x) = true.
Proof.
  intros Hx. apply N.ltb_lt in Hx.
  destruct x as [|p]; [reflexivity|].
  do 5 (try destruct p as [p|p|]); try reflexivity; discriminate Hx.
Qed.

Lemma int16_fold l a :
  fold_left (fun acc c => (acc * 16 + Query.hex_value c)%N) l a
  = (a * 16 ^ N.of_nat (length l)
     + fold_left (fun acc c => (acc * 16 + Query.hex_value c)%N) l 0)%N.
Proof.
  revert a. induction l as [|c l IH]; intros a.
  - simpl. lia.
  - cbn [fold_left length]. rewrite IH, (IH (0 * 16 + Query.hex_value c)%N).
    rewrite Nat2N.inj_succ, N.pow_succ_r'. lia.
Qed.

Lemma int16_cons c s :
  int16 (String c s)
  = (Query.hex_value c * 16 ^ N.of_nat (String.length s) + int16 s)%N.
Proof.
  unfold int16. cbn [list_ascii_of_string fold_left]. rewrite int16_fold.
  f_equal. f_equal. f_equal. f_equal.
  induction s as [|d s IH]; [done|]. simpl. by rewrite IH.
Qed.

Lemma hex_pos_value fuel p acc :
  (Npos p < 2 ^ N.of_nat fuel)%N ->
  int16 (hex_pos p fuel acc)
  = (Npos p * 16 ^ N.of_nat (String.length acc) + int16 acc)%N.
Proof.
  revert p acc. induction fuel as [|fuel IH]; intros p acc Hp.
  - simpl in Hp. lia.
  - cbn [hex_pos].
    assert (Npos p mod 16 < 16)%N as Hmod by (apply N.mod_lt; lia).
    pose proof (N.div_mod (Npos p) 16 ltac:(lia)) as Hdm.
    destruct (Npos p / 16)%N as [|q] eqn:Hq.
    + rewrite int16_cons, hex_value_digit by done.
      rewrite N.mul_0_r, N.add_0_l in Hdm. by rewrite <- Hdm.
    + rewrite IH.
      * rewrite int16_cons, hex_value_digit by done.
        cbn [String.length]. rewrite Nat2N.inj_succ, N.pow_succ_r'.
        set (X := (16 ^ N.of_nat (String.length acc))%N).
        set (m := (N.pos p mod 16)%N) in *. clearbody X m. clear IH Hp. nia.
      * rewrite Nat2N.inj_succ, N.pow_succ_r' in Hp.
        set (Y := (2 ^ N.of_nat fuel)%N) in *. clearbody Y. clear IH.
        assert (N.pos p / 16 <= N.pos p / 2)%N as Hle by (apply N.div_le_compat_l; lia).
        assert (N.pos p / 2 < Y)%N as Hlt by (apply N.Div0.div_lt_upper_bound; lia).
        rewrite Hq in Hle. lia.
Qed.

Lemma hex_pos_lower fuel p acc :
  Str.all lower_hexdigit acc = true -> Str.all lower_hexdigit (hex_pos p fuel acc) = true.
Proof.
  revert p acc. induction fuel as [|fuel IH]; intros p acc Hacc; [done|].
  cbn [hex_pos].
  assert (Str.all lower_hexdigit (String (hex_digit (Npos p mod 16)) acc) = true) as Hacc'.
  { cbn [Str.all]. rewrite hex_digit_lower, Hacc; [done|]. apply N.mod_lt. lia. }
  destruct (Npos p / 16)%N; [done|]. by apply IH.
Qed.

Lemma hex_pos_nonempty fuel p acc : acc <> "" -> hex_pos p fuel acc <> "".
Proof.
  revert p acc. induction fuel as [|fuel IH]; intros p acc Hacc; [done|].
  cbn [hex_pos]. destruct (Npos p / 16)%N; [done|]. by apply IH.
Qed.

Lemma hex_tail_value x : int16 (hex_tail x) = x.
Proof.
  destruct x as [|p]; [reflexivity|]. unfold hex_tail.
  rewrite hex_pos_value.
  - change (int16 "") with 0%N. simpl. lia.
  - rewrite positive_nat_N. pose proof (Pos.size_gt p) as Hgt.
    change (2 ^ N.pos (Pos.size p))%N with (N.pos (2 ^ Pos.size p)). lia.
Qed.

(** X10. The key that [_compute_url_hash] returns is [hash128(url)] written
    in base 16 with the digits [0-9a-f]: it is not empty, and read back in
    base 16 it is the hash.  So two URLs have the same key exactly when
    they have the same 128-bit hash. *)
Theorem url_key_reads_back_as_hash url h :
  _compute_url_hash url = inr h ->
  hash128 url = inr (int16 h)
  /\ h <> ""
  /\ Str.all lower_hexdigit h = true
  /\ (forall url', _compute_url_hash url' = inr h <-> hash128 url' = inr (int16 h)).
Proof.
  unfold _compute_url_hash.
  destruct (hash128 url) as [e|x] eqn:Hx; [done|]. intros [= <-].
  rewrite hex_tail_value. split; [done|].
  assert (hex_tail x <> "") as Hne.
  { destruct x as [|p]; [done|]. unfold hex_tail.
    destruct (Pos.to_nat (Pos.size p)) as [|fuel] eqn:Hf; [lia|].
    cbn [hex_pos]. destruct (Npos p / 16)%N; [done|]. by apply hex_pos_nonempty. }
  split; [done|]. split.
  { destruct x as [|p]; [reflexivity|]. by apply hex_pos_lower. }
  intros url'. destruct (hash128 url') as [e|y] eqn:Hy; split; try done.
  - intros [= Heq]. f_equal. by rewrite <- (hex_tail_value y), Heq, hex_tail_value.
  - by intros [= ->].
Qed.

End DedupMore.

(** * The second pass of [is_duplicate] on what [normalize] wrote *)

Section SecondPass.
Import UrllibParse Shape.
Context `{L : Libraries}.

Lemma parse_field_any b k v :
  utf8_valid k -> utf8_valid v -> v <> "" ->
  Query.parse_field b (field (k, v)) = [(k, v)].
Proof.
  intros Hk Hv Hne. unfold Query.parse_field, field. cbn [fst snd].
  change ("=" +:+ encode v) with (String "=" (encode v)).
  destruct (String.eqb_spec (encode k +:+ String "=" (encode v)) "") as [Heq|_].
  { by apply append_eq_nil in Heq as [_ ?]. }
  rewrite partition_app by (by apply encode_mem).
  destruct (String.eqb_spec (encode v) "") as [Heq|_].
  { by apply encode_nonempty in Heq. }
  cbn [negb orb]. by rewrite !unquote_encode.
Qed.

Lemma parse_qsl_urlencode_any b d :
  Forall (fun kv => utf8_valid (fst kv) /\ utf8_valid (snd kv) /\ snd kv <> "") (pairs_of d) ->
  Query.parse_qsl (Query.urlencode d) b = pairs_of d.
Proof.
  intros Hwf. rewrite urlencode_fields. unfold Query.parse_qsl.
  destruct (pairs_of d) as [|kv l] eqn:Hp; [done|].
  destruct (String.eqb_spec (Str.join "&" (map field (kv :: l))) "") as [Heq|_].
  { by apply join_nonempty in Heq; [|apply field_nonempty]. }
  rewrite split_join; [|done|].
  - clear Hp. induction Hwf as [|[k v] l' (Hk & Hv & Hne) Hl IH]; [done|].
    cbn [map concat]. rewrite parse_field_any by done. cbn [app]. f_equal. exact IH.
  - apply Forall_forall. intros x [kv' [-> _]]%list_elem_of_fmap. apply field_no_amp.
Qed.

(** [parse_qs] reads back what [urlencode] wrote, blank values kept or not *)
Lemma parse_qs_urlencode_any b d :
  dict_wf d -> Query.parse_qs (Query.urlencode d) b = d.
Proof.
  intros (Hnd & Hall). unfold Query.parse_qs. rewrite parse_qsl_urlencode_any.
  - apply (fold_dict_add_pairs [] d); [done|].
    eapply Forall_impl; [exact Hall|]. by intros kv (_ & ? & _).
  - unfold pairs_of. apply Forall_concat, Forall_fmap.
    eapply Forall_impl; [exact Hall|]. intros [k vs] (Hk & _ & Hvs). cbn [fst snd] in *.
    apply Forall_fmap. eapply Forall_impl; [exact Hvs|].
    intros v [? ?]. by cbn.
Qed.

Lemma dict_pop_fixed key (d : Query.pydict) :
  Forall (fun kv => fst kv <> key) d -> Query.dict_pop key d = d.
Proof.
  intros Hall. unfold Query.dict_pop. apply filter_fixed.
  eapply Forall_impl; [exact Hall|]. intros kv Hkv.
  apply Is_true_true, negb_true_iff, String.eqb_neq. by intros ->.
Qed.

Lemma pop_tracking_fixed (d : Query.pydict) :
  Forall (fun kv => negb (Str.In_list (fst kv) URLNormalizer.remove_params)) d ->
  fold_left (fun d p => Query.dict_pop p d) tracking_params d = d.
Proof.
  intros Hall.
  assert (Hk : forall key, Str.In_list key URLNormalizer.remove_params = true ->
                           Query.dict_pop key d = d).
  { intros key Hin. apply dict_pop_fixed. eapply Forall_impl; [exact Hall|].
    intros kv Hkv Heq. cbn beta in Hkv. rewrite Heq, Hin in Hkv. done. }
  unfold tracking_params. cbn [fold_left]. by rewrite !Hk by reflexivity.
Qed.

Lemma urlencode_nil_iff d :
  Forall (fun kv => snd kv <> []) d -> Query.urlencode d = "" -> d = [].
Proof.
  intros Hall. rewrite urlencode_fields.
  destruct d as [|[k vs] d]; [done|]. apply Forall_cons in Hall as [Hvs _].
  destruct vs as [|v vs]; [done|]. unfold pairs_of. cbn [map concat fst snd app].
  intros Heq. by apply join_nonempty in Heq; [|apply field_nonempty].
Qed.

(** X11. For an ASCII URL with a scheme whose rewritten host is not empty
    and passes the bracket check (and, under a scheme that takes
    parameters, whose rewritten path has no semicolon in its last segment),
    the second pass of [is_duplicate] changes nothing:
    [_normalize_query_parameters] returns what [normalize] wrote, so the
    key of the URL is the hash of [normalize(url)]. *)
Theorem second_pass_is_identity url parsed :
  Str.isascii url = true ->
  urlparse url = inr parsed ->
  scheme parsed <> "" ->
  let h := URLNormalizer.normalize_netloc (netloc parsed) in
  let p := URLNormalizer.normalize_path (path parsed) in
  h <> "" ->
  check_netloc_brackets h = inr tt ->
  (Str.In_list (scheme parsed) uses_params = true ->
   Str.mem ";" (last_segment p) = false) ->
  exists n,
    URLNormalizer.normalize url = Some n
    /\ _normalize_query_parameters n = inr n
    /\ (forall k, _compute_url_hash n = inr k -> canonical url = inr (n, k)).
Proof.
  intros Hascii Hparse Hscheme h p Hh Hbr Hsemi.
  destruct (urlparse_shape url parsed Hparse)
    as (Hs & Hhost & _ & Hpath & _ & Hhl & Hquery).
  assert (Str.isascii (query parsed) = true) as Hq.
  { rewrite isascii_all. apply Hquery. rewrite <- isascii_all. by apply cleaned_isascii. }
  destruct (sorted_params_wf _ Hq) as (Hwf & Hsorted & Hkept).
  set (d := URLNormalizer.sorted_params (query parsed)) in *.
  set (n := urlunparse (scheme parsed) h p "" (Query.urlencode d) "").
  assert (Hn : URLNormalizer.normalize url = Some n).
  { unfold URLNormalizer.normalize, URLNormalizer.normalize_body. by rewrite Hparse. }
  assert (Hw : writes_netloc (scheme parsed) h p = true).
  { unfold writes_netloc. by destruct (String.eqb_spec h ""). }
  assert (Hsecond : _normalize_query_parameters n = inr n).
  { unfold _normalize_query_parameters, n. rewrite urlparse_written.
    - cbn [scheme netloc path query].
      rewrite parse_qs_urlencode_any by done.
      rewrite pop_tracking_fixed by done.
      rewrite sorted_items_fixed by done.
      rewrite urlunparse_body. unfold body, path_written. rewrite Hw.
      destruct (String.eqb_spec (scheme parsed) "") as [?|_]; [done|].
      destruct d as [|kv d'] eqn:Hd.
      + change (Query.urlencode []) with "". cbn [String.eqb].
        by rewrite !append_assoc, append_nil_r.
      + destruct (String.eqb_spec (Query.urlencode (kv :: d')) "") as [Heq|_].
        { apply urlencode_nil_iff in Heq; [done|].
          destruct Hwf as [_ Hall]. eapply Forall_impl; [exact Hall|].
          by intros x (_ & ? & _). }
        by rewrite !append_assoc.
    - exact Hs.
    - by apply normalize_netloc_shape.
    - exact Hbr.
    - apply normalize_path_nonempty.
    - by apply normalize_path_shape.
    - apply urlencode_ok.
    - by left.
    - intros Hnil. by destruct Hscheme.
    - exact Hsemi. }
  exists n. split; [done|]. split; [done|].
  intros k Hk. unfold canonical. rewrite Hn.
  pose proof (normalize_nonempty _ _ Hn) as Hne.
  destruct n as [|c n0]; [done|]. by rewrite Hsecond, Hk.
Qed.

End SecondPass.

(** * Further properties of the normalizer and of the validator *)

(** ** Reversal and suffixes *)

Lemma rev_onto_app s acc : Str.rev_onto s acc = Str.rev_onto s "" +:+ acc.
Proof.
  revert acc. induction s as [|c s IH]; intros acc; simpl; [done|].
  rewrite (IH (String c acc)), (IH (String c "")). by rewrite append_assoc.
Qed.

Lemma rev_app a b : Str.rev (a +:+ b) = Str.rev b +:+ Str.rev a.
Proof.
  unfold Str.rev. induction a as [|c a IH]; simpl; [by rewrite append_nil_r|].
  rewrite (rev_onto_app (a +:+ b)), IH, (rev_onto_app a (String c "")).
  by rewrite append_assoc.
Qed.

Lemma rev_rev s : Str.rev (Str.rev s) = s.
Proof.
  induction s as [|c s IH]; [done|].
  change (String c s) with (String c "" +:+ s) at 1.
  rewrite rev_app, rev_app, IH. reflexivity.
Qed.

Lemma endswith_inv p s : Str.endswith p s = true -> exists a, s = a +:+ p.
Proof.
  unfold Str.endswith. intros [t Ht]%startswith_inv.
  exists (Str.rev t). by rewrite <- (rev_rev s), Ht, rev_app, rev_rev.
Qed.


Lemma rstrip_length P s : (String.length (Str.rstrip P s) <= String.length s)%nat.
Proof.
  induction s as [|c s IH]; simpl; [lia|].
  destruct (Str.rstrip P s); [destruct (P c)|]; simpl in *; lia.
Qed.

Lemma rstrip_snoc P a c : P c = true -> Str.rstrip P (a +:+ String c "") = Str.rstrip P a.
Proof.
  intros Hc. induction a as [|d a IH]; simpl; [by rewrite Hc|]. by rewrite IH.
Qed.

Lemma length_app a b : String.length (a +:+ b) = (String.length a + String.length b)%nat.
Proof. induction a as [|c a IH]; simpl; [done|]. by rewrite IH. Qed.

Lemma rstrip_fixed_no_suffix P c s :
  P c = true -> Str.rstrip P s = s -> Str.endswith (String c "") s = false.
Proof.
  intros Hc Hs. destruct (Str.endswith (String c "") s) eqn:He; [exfalso|done].
  apply endswith_inv in He as [a ->]. rewrite rstrip_snoc in Hs by done.
  pose proof (rstrip_length P a) as Hlen. rewrite Hs, length_app in Hlen. simpl in Hlen. lia.
Qed.

(** ** The path that [normalize] writes *)

(** X12. The path rewriting of [normalize] (lower-case, trailing slashes
    stripped, "/" for an empty path) gives a path that is not empty, is
    lower-case, is "/" or does not end with a slash, and is left as it is
    when rewritten again. *)
Theorem normalize_path_is_canonical x :
  let p := URLNormalizer.normalize_path x in
  p <> ""
  /\ Str.lower p = p
  /\ (p = "/" \/ Str.endswith "/" p = false)
  /\ URLNormalizer.normalize_path p = p.
Proof.
  intros p. split; [apply normalize_path_nonempty|].
  split; [|split; [|apply normalize_path_fixed]].
  - destruct (normalize_path_cases x) as [H|(_ & _ & H & _)]; fold p in H; [|done].
    by rewrite H.
  - destruct (normalize_path_cases x) as [H|(_ & _ & _ & H)]; fold p in H; [by left|].
    right. by apply (rstrip_fixed_no_suffix (Str.char_eqb "/")).
Qed.

(** ** What [normalize] writes holds no fragment *)

Lemma body_all (P : ascii -> bool) s h p q :
  P "/"%char = true -> P "?"%char = true ->
  Str.all P h = true -> Str.all P p = true -> Str.all P q = true ->
  Str.all P (body s h p q) = true.
Proof.
  intros Hslash Hqm Hh Hp Hq. unfold body. rewrite all_app. apply andb_true_iff. split.
  - destruct (writes_netloc s h p); [|done].
    change ("//" +:+ h +:+ rooted p) with (String "/" (String "/" (h +:+ rooted p))).
    cbn [Str.all]. rewrite Hslash, all_app, Hh. by rewrite rooted_all.
  - destruct (String.eqb q ""); [done|]. cbn [Str.all]. by rewrite Hqm.
Qed.

Lemma scheme_char_no_query c : in_scheme_chars c = true -> no_query_char c = true.
Proof. destruct c as [[] [] [] [] [] [] [] []]; vm_compute; done. Qed.

Lemma host_ok_no_query c : host_ok c = true -> no_query_char c = true.
Proof. destruct c as [[] [] [] [] [] [] [] []]; vm_compute; done. Qed.

Lemma path_ok_no_query c : path_ok c = true -> no_query_char c = true.
Proof. destruct c as [[] [] [] [] [] [] [] []]; vm_compute; done. Qed.

Lemma query_ok_no_fragment c : query_ok c = true -> no_fragment_char c = true.
Proof. destruct c as [[] [] [] [] [] [] [] []]; vm_compute; done. Qed.

Lemma no_query_no_fragment c : no_query_char c = true -> no_fragment_char c = true.
Proof. unfold no_query_char. by intros [_ ?]%andb_true_iff. Qed.

Lemma scheme_all (P : ascii -> bool) s :
  (forall c, in_scheme_chars c = true -> P c = true) -> P ":"%char = true ->
  scheme_wf s -> Str.all P (if String.eqb s "" then "" else s +:+ ":") = true.
Proof.
  intros HP Hcolon Hs. destruct (String.eqb_spec s "") as [->|Hne]; [done|].
  destruct (scheme_wf_chars s Hs Hne) as (_ & _ & Hall & _).
  rewrite all_app, (all_impl _ _ _ HP Hall). cbn [Str.all]. by rewrite Hcolon.
Qed.

(** X13. What [normalize] returns for an ASCII URL holds no fragment: the
    string contains no [#], and no TAB, CR or LF either. *)
Theorem normalize_writes_no_fragment url n :
  Str.isascii url = true ->
  URLNormalizer.normalize url = Some n ->
  Str.mem "#" n = false /\ Str.mem TAB n = false
  /\ Str.mem CR n = false /\ Str.mem LF n = false.
Proof.
  intros _ Hn. unfold URLNormalizer.normalize, URLNormalizer.normalize_body in Hn.
  destruct (urlparse url) as [e|parsed] eqn:Hparse; [done|]. injection Hn as <-.
  destruct (urlparse_shape url parsed Hparse) as (Hs & Hhost & _ & Hpath & _).
  assert (Str.all no_fragment_char
            (urlunparse (scheme parsed)
               (URLNormalizer.normalize_netloc (netloc parsed))
               (URLNormalizer.normalize_path (path parsed)) ""
               (Query.urlencode (URLNormalizer.sorted_params (query parsed))) "") = true)
    as Hall.
  { rewrite urlunparse_body, all_app. apply andb_true_iff. split.
    - apply scheme_all; [|done|done].
      intros c Hc. by apply no_query_no_fragment, scheme_char_no_query.
    - apply body_all; [done|done| | |].
      + apply (all_impl host_ok); [|by apply normalize_netloc_shape].
        intros c Hc. by apply no_query_no_fragment, host_ok_no_query.
      + apply (all_impl path_ok); [|by apply normalize_path_shape].
        intros c Hc. by apply no_query_no_fragment, path_ok_no_query.
      + apply (all_impl query_ok); [apply query_ok_no_fragment|apply urlencode_ok]. }
  repeat split; by apply (all_mem no_fragment_char).
Qed.

(** ** [get_domain] *)

Lemma split_hd_no_sep c s : Str.mem c (List.hd "" (Str.split c s)) = false.
Proof.
  induction s as [|d s IH]; [done|]. cbn [Str.split].
  destruct (Str.char_eqb c d) eqn:Hcd; [done|].
  destruct (Str.split c s) as [|x xs]; cbn [List.hd Str.mem] in *; by rewrite Hcd.
Qed.

Lemma split_lower c s :
  Str.char_isalpha c = false ->
  Str.split c (Str.lower s) = map Str.lower (Str.split c s).
Proof.
  intros Hc. induction s as [|d s IH]; [done|]. cbn [Str.lower Str.split].
  rewrite char_lower_eqb by done.
  destruct (Str.char_eqb c d); cbn [map]; [by rewrite IH|].
  rewrite IH. by destruct (Str.split c s).
Qed.

Lemma char_lower_no_upper c : no_upper (Str.char_lower c) = true.
Proof. by_cases_on_char c. Qed.

Lemma lower_no_upper s : Str.all no_upper (Str.lower s) = true.
Proof. induction s as [|c s IH]; simpl; [done|]. by rewrite char_lower_no_upper. Qed.

Lemma lower_fixed s : Str.all no_upper s = true -> Str.lower s = s.
Proof.
  induction s as [|c s IH]; simpl; [done|]. intros [Hc Hs]%andb_true_iff.
  rewrite IH by done. f_equal. unfold no_upper in Hc. unfold Str.char_lower.
  by destruct (Str.char_isupper c).
Qed.

Lemma hd_all (P : ascii -> bool) l :
  Forall (fun x => Str.all P x = true) l -> Str.all P (List.hd "" l) = true.
Proof. by destruct 1. Qed.

Lemma variations_all (P : ascii -> bool) s :
  P "."%char = true -> Str.all P s = true ->
  Str.all P (fold_left (fun d vr => Str.replace (fst vr) (snd vr) d)
                       URLNormalizer.domain_variations s) = true.
Proof.
  intros Hdot Hs. unfold URLNormalizer.domain_variations. cbn [fold_left fst snd].
  unfold Str.replace.
  repeat (apply replace_go_all; [by cbn [Str.all]; rewrite ?Hdot|]). done.
Qed.

Lemma re_sub_no_colon pat s :
  Str.mem ":" pat = true -> Str.mem ":" s = false -> Str.re_sub_at_end pat s = s.
Proof.
  intros Hpat Hs. unfold Str.re_sub_at_end.
  destruct (Str.endswith pat s) eqn:H1.
  { apply (endswith_mem ":") in H1; [congruence|done]. }
  destruct (Str.endswith (pat +:+ _) s) eqn:H2; [|done].
  apply (endswith_mem ":") in H2; [congruence|].
  rewrite mem_app, Hpat. done.
Qed.

(** X14. [get_domain] fails on the ASCII inputs on which [normalize] fails,
    and on no others; the domain it returns holds no colon (so neither a
    port nor the text after the first colon of the netloc) and is in lower
    case. *)
Theorem get_domain_has_no_port url :
  Str.isascii url = true ->
  (URLNormalizer.get_domain url = None <-> URLNormalizer.normalize url = None)
  /\ (forall d, URLNormalizer.get_domain url = Some d ->
                Str.mem ":" d = false /\ Str.lower d = d).
Proof.
  intros _. unfold URLNormalizer.get_domain, URLNormalizer.normalize,
    URLNormalizer.normalize_body.
  destruct (urlparse url) as [e|parsed]; [done|]. split; [done|].
  intros d [= <-].
  set (x := List.hd "" (Str.split ":" (Str.lower (netloc parsed)))).
  assert (Str.all no_colon x = true) as Hcolon.
  { apply (mem_all ":"). apply split_hd_no_sep. }
  assert (Str.all no_upper x = true) as Hupper.
  { apply hd_all, split_all, lower_no_upper. }
  split.
  - apply (all_mem no_colon); [|done]. by apply variations_all.
  - apply lower_fixed. by apply variations_all.
Qed.

(** X15. [get_domain] is the host rewriting of [normalize] applied to the
    netloc cut at its first colon: any port is dropped, not only the
    default ones, and on a netloc without a colon the two methods write
    the same host. *)
Theorem get_domain_is_normalized_host url parsed :
  Str.isascii url = true ->
  urlparse url = inr parsed ->
  URLNormalizer.get_domain url
  = Some (URLNormalizer.normalize_netloc (List.hd "" (Str.split ":" (netloc parsed))))
  /\ (Str.mem ":" (netloc parsed) = false ->
      URLNormalizer.get_domain url
      = Some (URLNormalizer.normalize_netloc (netloc parsed))).
Proof.
  intros _ Hparse.
  assert (URLNormalizer.get_domain url
          = Some (URLNormalizer.normalize_netloc (List.hd "" (Str.split ":" (netloc parsed)))))
    as Hmain.
  { unfold URLNormalizer.get_domain, URLNormalizer.normalize_netloc. rewrite Hparse.
    f_equal. f_equal.
    set (x := List.hd "" (Str.split ":" (netloc parsed))).
    assert (List.hd "" (Str.split ":" (Str.lower (netloc parsed))) = Str.lower x) as ->.
    { rewrite split_lower by reflexivity. unfold x.
      by destruct (Str.split ":" (netloc parsed)). }
    assert (Str.mem ":" (Str.lower x) = false) as Hx.
    { rewrite lower_mem by reflexivity. apply split_hd_no_sep. }
    rewrite (re_sub_no_colon ":80") by (reflexivity || exact Hx).
    by rewrite (re_sub_no_colon ":443") by (reflexivity || exact Hx). }
  split; [done|]. intros Hno. rewrite Hmain. by rewrite split_plain.
Qed.

(** ** The validator *)

(** X16. A URL that [is_valid_url] accepts has passed every check: on an
    ASCII input, [is_valid] is true only if [urlparse] succeeds with the
    scheme [http] or [https] and a netloc that is not empty, the extractor
    succeeds with a registered domain that is not blocked, the URL in lower
    case ends with none of the skipped extensions, and it is at most 2000
    characters long; the reason is then empty. *)
Theorem valid_url_passed_every_check `{T : URLValidator.Tldextract} url :
  Str.isascii url = true ->
  URLValidator.is_valid (URLValidator.is_valid_url url) = true ->
  exists parsed ext,
    urlparse url = inr parsed
    /\ (scheme parsed = "http" \/ scheme parsed = "https")
    /\ netloc parsed <> ""
    /\ URLValidator.extract url = inr ext
    /\ ((URLValidator.domain ext +:+ "." +:+ URLValidator.suffix ext)
          ∉ URLValidator.blocked_domains)
    /\ Forall (fun e => Str.endswith e (Str.lower url) = false) URLValidator.skip_extensions
    /\ (String.length url <= 2000)%nat
    /\ URLValidator.is_valid_url url = URLValidator.mkValidation true "".
Proof.
  intros _. unfold URLValidator.is_valid_url.
  destruct (urlparse url) as [e|parsed]; [done|].
  destruct (URLValidator.check_format parsed) eqn:Hfmt; [|done].
  destruct (URLValidator.check_scheme parsed) eqn:Hsch; [|done].
  cbn [negb].
  destruct (URLValidator.extract url) as [e|ext]; [done|].
  destruct (URLValidator.check_domain ext) eqn:Hdom; [|done].
  destruct (URLValidator.check_extension url) eqn:Hext; [|done].
  destruct (URLValidator.check_length url) eqn:Hlen; [|done].
  intros _. exists parsed, ext. split; [done|].
  unfold URLValidator.check_format in Hfmt.
  apply andb_true_iff in Hfmt as [_ Hnl]. apply negb_true_iff, String.eqb_neq in Hnl.
  unfold URLValidator.check_scheme in Hsch. apply In_list_spec in Hsch.
  unfold URLValidator.check_domain in Hdom. apply negb_true_iff in Hdom.
  unfold URLValidator.check_extension in Hext. apply negb_true_iff in Hext.
  unfold URLValidator.check_length in Hlen. apply negb_true_iff, Z.ltb_ge in Hlen.
  split.
  { apply elem_of_cons in Hsch as [?|Hsch]; [by left|].
    apply elem_of_cons in Hsch as [?|Hsch]; [by right|]. by apply elem_of_nil in Hsch. }
  split; [done|]. split; [done|]. split.
  { intros Hin. apply In_list_spec in Hin. congruence. }
  split.
  { apply Forall_forall. intros e He.
    destruct (Str.endswith e (Str.lower url)) eqn:Hend; [|done].
    assert (existsb (fun ext0 => Str.endswith ext0 (Str.lower url))
                    URLValidator.skip_extensions = true) as Hex.
    { apply existsb_exists. exists e. split; [by apply list_elem_of_In|done]. }
    congruence. }
  split; [lia|done].
Qed.


(** ** The parameters that [normalize] emits *)

Lemma parse_qsl_join b fs :
  Forall (fun f => Str.mem "&" f = false) fs ->
  Query.parse_qsl (Str.join "&" fs) b = concat (map (Query.parse_field b) fs).
Proof.
  intros Hfs. unfold Query.parse_qsl.
  destruct (String.eqb_spec (Str.join "&" fs) "") as [Heq|Hne].
  - destruct fs as [|f [|g fs]]; [done| |].
    + cbn [Str.join] in Heq. by subst f.
    + exfalso. cbn [Str.join] in Heq. apply append_eq_nil in Heq as [_ Heq].
      by apply append_eq_nil in Heq as [Heq _].
  - rewrite split_join; [done| |done]. by intros ->.
Qed.

Lemma filter_dict_add k v (d : Query.pydict) :
  filter (fun kv => negb (Str.In_list (fst kv) URLNormalizer.remove_params))
         (Query.dict_add k v d)
  = if negb (Str.In_list k URLNormalizer.remove_params)
    then Query.dict_add k v
           (filter (fun kv => negb (Str.In_list (fst kv) URLNormalizer.remove_params)) d)
    else filter (fun kv => negb (Str.In_list (fst kv) URLNormalizer.remove_params)) d.
Proof.
  unfold Query.pydict in *.
  induction d as [|[k' vs] d IH]; cbn [Query.dict_add].
  - destruct (negb (Str.In_list k URLNormalizer.remove_params)) eqn:Hk.
    + rewrite filter_cons_True by (apply Is_true_true; exact Hk). done.
    + rewrite filter_cons_False by (intros Hc%Is_true_true; cbn [fst] in Hc; congruence). done.
  - destruct (String.eqb_spec k k') as [->|Hne].
    + destruct (negb (Str.In_list k' URLNormalizer.remove_params)) eqn:Hk.
      * rewrite !filter_cons_True by (apply Is_true_true; exact Hk).
        cbn [Query.dict_add]. by rewrite String.eqb_refl.
      * by rewrite !filter_cons_False by (intros Hc%Is_true_true; cbn [fst] in Hc; congruence).
    + destruct (negb (Str.In_list k' URLNormalizer.remove_params)) eqn:Hk'.
      * rewrite !filter_cons_True by (apply Is_true_true; exact Hk'). rewrite IH.
        destruct (negb (Str.In_list k URLNormalizer.remove_params)); [|done].
        cbn [Query.dict_add]. by apply String.eqb_neq in Hne as ->.
      * rewrite !filter_cons_False by (intros Hc%Is_true_true; cbn [fst] in Hc; congruence). by rewrite IH.
Qed.

Lemma filter_group (l : list (string * string)) (d : Query.pydict) :
  filter (fun kv => negb (Str.In_list (fst kv) URLNormalizer.remove_params))
         (fold_left (fun d nv => Query.dict_add (fst nv) (snd nv) d) l d)
  = fold_left (fun d nv => Query.dict_add (fst nv) (snd nv) d)
      (filter (fun nv => negb (Str.In_list (fst nv) URLNormalizer.remove_params)) l)
      (filter (fun kv => negb (Str.In_list (fst kv) URLNormalizer.remove_params)) d).
Proof.
  unfold Query.pydict in *.
  revert d. induction l as [|[k v] l IH]; intros d; [done|]. cbn [fold_left fst snd].
  rewrite IH, filter_dict_add.
  destruct (negb (Str.In_list k URLNormalizer.remove_params)) eqn:Hk.
  - by rewrite filter_cons_True by (apply Is_true_true; exact Hk).
  - by rewrite filter_cons_False by (intros Hc%Is_true_true; cbn [fst] in Hc; congruence).
Qed.

(** the parameters that [normalize] emits, from the fields of the query *)
Lemma sorted_params_fields fs :
  Forall (fun f => Str.mem "&" f = false) fs ->
  URLNormalizer.sorted_params (Str.join "&" fs)
  = Query.sorted_items
      (fold_left (fun d nv => Query.dict_add (fst nv) (snd nv) d)
         (filter (fun nv => negb (Str.In_list (fst nv) URLNormalizer.remove_params))
                 (concat (map (Query.parse_field false) fs))) []).
Proof.
  intros Hfs. unfold URLNormalizer.sorted_params, Query.parse_qs.
  by rewrite parse_qsl_join, filter_group.
Qed.

Lemma blocked_name_plain name :
  Str.In_list name URLNormalizer.remove_params = true ->
  Str.mem "=" name = false /\ name <> ""
  /\ Query.unquote (Str.replace_char "+" " " name) = name.
Proof.
  intros Hin. apply In_list_spec in Hin. unfold URLNormalizer.remove_params in Hin.
  repeat (apply elem_of_cons in Hin as [->|Hin]; [by repeat split|]).
  by apply elem_of_nil in Hin.
Qed.

Lemma parse_field_blocked name v :
  Str.In_list name URLNormalizer.remove_params = true ->
  filter (fun nv => negb (Str.In_list (fst nv) URLNormalizer.remove_params))
         (Query.parse_field false (name +:+ "=" +:+ v)) = [].
Proof.
  intros Hin. destruct (blocked_name_plain name Hin) as (Heq & Hne & Hun).
  unfold Query.parse_field. change ("=" +:+ v) with (String "=" v).
  destruct (String.eqb (name +:+ String "=" v) ""); [done|].
  rewrite partition_app by done.
  destruct (negb (String.eqb v "") || false); [|done].
  rewrite Hun. rewrite filter_cons_False; [done|].
  intros Hc%Is_true_true. cbn [fst] in Hc. by rewrite Hin in Hc.
Qed.

(** X18. A blocked parameter leaves no trace: when two URLs parse to the
    same scheme, netloc and path, and the query of the first is that of the
    second with one more field [name=value] (anywhere among the fields),
    where [name] is one of the nine blocked names, [normalize] returns the
    same for both. *)
Theorem blocked_parameter_is_ignored u1 u2 p1 p2 fs1 fs2 name v :
  Str.isascii u1 = true -> Str.isascii u2 = true ->
  urlparse u1 = inr p1 -> urlparse u2 = inr p2 ->
  scheme p1 = scheme p2 -> netloc p1 = netloc p2 -> path p1 = path p2 ->
  Str.In_list name URLNormalizer.remove_params = true ->
  Forall (fun f => Str.mem "&" f = false) (fs1 ++ fs2) -> Str.mem "&" v = false ->
  query p1 = Str.join "&" (fs1 ++ [name +:+ "=" +:+ v] ++ fs2) ->
  query p2 = Str.join "&" (fs1 ++ fs2) ->
  URLNormalizer.normalize u1 = URLNormalizer.normalize u2.
Proof.
  intros _ _ H1 H2 Hs Hn Hp Hname Hfs Hv Hq1 Hq2.
  unfold URLNormalizer.normalize, URLNormalizer.normalize_body.
  rewrite H1, H2, Hs, Hn, Hp. do 3 f_equal.
  rewrite Hq1, Hq2. apply Forall_app in Hfs as [Hf1 Hf2].
  rewrite !sorted_params_fields.
  - do 2 f_equal. rewrite !map_app, !concat_app, !filter_app. cbn [map concat].
    rewrite app_nil_r, parse_field_blocked by done. done.
  - apply Forall_app. by split.
  - apply Forall_app. split; [done|]. constructor; [|done].
    change ("=" +:+ v) with (String "=" v). rewrite mem_app. cbn [Str.mem].
    destruct (blocked_name_plain name Hname) as (_ & _ & _).
    rewrite Hv, orb_false_r.
    apply In_list_spec in Hname. unfold URLNormalizer.remove_params in Hname.
    repeat (apply elem_of_cons in Hname as [->|Hname]; [reflexivity|]).
    by apply elem_of_nil in Hname.
Qed.

(** *** The order of the fields *)

Lemma dict_add_swap k1 v1 k2 v2 (d : Query.pydict) :
  k1 <> k2 ->
  Query.dict_add k2 v2 (Query.dict_add k1 v1 d)
  ≡ₚ Query.dict_add k1 v1 (Query.dict_add k2 v2 d).
Proof.
  intros Hne. induction d as [|[k vs] d IH]; cbn [Query.dict_add].
  - apply String.eqb_neq in Hne as Hne1. rewrite Hne1.
    assert (String.eqb k2 k1 = false) as -> by (apply String.eqb_neq; congruence).
    apply Permutation_swap.
  - destruct (String.eqb_spec k1 k) as [->|H1]; destruct (String.eqb_spec k2 k) as [->|H2];
      cbn [Query.dict_add]; rewrite ?String.eqb_refl; try done.
    + by apply String.eqb_neq in H2 as ->.
    + by apply String.eqb_neq in H1 as ->.
    + apply String.eqb_neq in H1 as ->. apply String.eqb_neq in H2 as ->.
      by constructor.
Qed.

Lemma dict_add_NoDup k v (d : Query.pydict) :
  NoDup (map fst d) -> NoDup (map fst (Query.dict_add k v d)).
Proof.
  induction d as [|[k' vs] d IH]; cbn [map fst Query.dict_add]; intros Hnd.
  - apply NoDup_singleton.
  - apply NoDup_cons in Hnd as [Hnotin Hnd].
    destruct (String.eqb_spec k k') as [->|Hneq]; cbn [map fst].
    + by apply NoDup_cons.
    + apply NoDup_cons. split; [|by apply IH].
      intros [Heq|Hin]%dict_add_keys; [by apply Hneq|done].
Qed.

Lemma dict_add_in k v (d : Query.pydict) :
  k ∈ map fst d -> NoDup (map fst d) ->
  Query.dict_add k v d
  = map (fun kv => if String.eqb k (fst kv) then (fst kv, snd kv ++ [v]) else kv) d.
Proof.
  induction d as [|[k' vs] d IH]; cbn [map fst snd Query.dict_add].
  - by intros ?%elem_of_nil.
  - intros Hin Hnd. apply NoDup_cons in Hnd as [Hnotin Hnd].
    destruct (String.eqb_spec k k') as [->|Hneq].
    + f_equal. clear IH Hin Hnd. induction d as [|[k0 v0] d IH]; [done|].
      cbn [map fst] in *. apply not_elem_of_cons in Hnotin as [Hne Hnotin].
      apply String.eqb_neq in Hne as ->. by rewrite <- IH.
    + f_equal. apply elem_of_cons in Hin as [?|Hin]; [done|]. by apply IH.
Qed.

Lemma dict_add_Permutation k v (d d' : Query.pydict) :
  NoDup (map fst d) -> d ≡ₚ d' -> Query.dict_add k v d ≡ₚ Query.dict_add k v d'.
Proof.
  intros Hnd Hp.
  assert (NoDup (map fst d')) as Hnd' by (by rewrite <- Hp).
  destruct (decide (k ∈ map fst d)) as [Hin|Hout].
  - rewrite !dict_add_in; [by rewrite Hp| |done|done|done]. by rewrite <- Hp.
  - rewrite !dict_add_new; [by rewrite Hp| |done]. by rewrite <- Hp.
Qed.

Lemma group_NoDup (l : list (string * string)) (d : Query.pydict) :
  NoDup (map fst d) ->
  NoDup (map fst (fold_left (fun d nv => Query.dict_add (fst nv) (snd nv) d) l d)).
Proof.
  revert d. induction l as [|x l IH]; intros d Hnd; [done|].
  cbn [fold_left]. by apply IH, dict_add_NoDup.
Qed.

Lemma group_Permutation (l : list (string * string)) (d d' : Query.pydict) :
  NoDup (map fst d) -> d ≡ₚ d' ->
  fold_left (fun d nv => Query.dict_add (fst nv) (snd nv) d) l d
  ≡ₚ fold_left (fun d nv => Query.dict_add (fst nv) (snd nv) d) l d'.
Proof.
  revert d d'. induction l as [|x l IH]; intros d d' Hnd Hp; [done|].
  cbn [fold_left]. apply IH; [by apply dict_add_NoDup|by apply dict_add_Permutation].
Qed.

Lemma sorted_by_key_unique (l l' : Query.pydict) :
  StronglySorted key_le l -> StronglySorted key_le l' ->
  NoDup (map fst l) -> l ≡ₚ l' -> l = l'.
Proof.
  intros Hs. revert l'. induction Hs as [|x l Hs IH Hall]; intros l' Hs' Hnd Hp.
  - by apply Permutation_nil_l in Hp.
  - destruct Hs' as [|y l' Hs' Hall'].
    { by apply Permutation_nil_r in Hp. }
    cbn [map] in Hnd. apply NoDup_cons in Hnd as [Hnotin Hnd].
    assert (x = y) as <-.
    { destruct (decide (x = y)) as [|Hne]; [done|exfalso].
      assert (x ∈ l') as Hx.
      { assert (x ∈ y :: l') as Hin by (rewrite <- Hp; apply elem_of_cons; by left).
        by apply elem_of_cons in Hin as [?|?]. }
      assert (y ∈ l) as Hy.
      { assert (y ∈ x :: l) as Hin by (rewrite Hp; apply elem_of_cons; by left).
        apply elem_of_cons in Hin as [?|?]; [congruence|done]. }
      eapply Forall_forall in Hall; [|exact Hy].
      eapply Forall_forall in Hall'; [|exact Hx].
      unfold key_le in Hall, Hall'.
      assert (fst x = fst y) as Heq by (by apply (anti_symm String.le)).
      apply Hnotin. rewrite Heq. apply list_elem_of_fmap. by exists y. }
    f_equal. apply IH; [done|done|]. by apply Permutation_cons_inv in Hp.
Qed.

Lemma sorted_items_Permutation_eq (d d' : Query.pydict) :
  NoDup (map fst d) -> d ≡ₚ d' -> Query.sorted_items d = Query.sorted_items d'.
Proof.
  intros Hnd Hp. apply sorted_by_key_unique.
  - apply sorted_items_sorted.
  - apply sorted_items_sorted.
  - by rewrite sorted_items_Permutation.
  - by rewrite !sorted_items_Permutation.
Qed.

Lemma group_swap (a b : list (string * string)) x y :
  fst x <> fst y ->
  Query.sorted_items
    (fold_left (fun d nv => Query.dict_add (fst nv) (snd nv) d) (a ++ x :: y :: b) [])
  = Query.sorted_items
      (fold_left (fun d nv => Query.dict_add (fst nv) (snd nv) d) (a ++ y :: x :: b) []).
Proof.
  intros Hne. apply sorted_items_Permutation_eq; [apply group_NoDup, NoDup_nil_2|].
  rewrite !fold_left_app. cbn [fold_left].
  apply group_Permutation.
  - do 2 apply dict_add_NoDup. apply group_NoDup, NoDup_nil_2.
  - by apply dict_add_swap.
Qed.

Lemma parse_field_short b f :
  Query.parse_field b f = [] \/ exists x, Query.parse_field b f = [x].
Proof.
  unfold Query.parse_field. destruct (String.eqb f ""); [by left|].
  destruct (Str.partition "=" f) as [[n v]|].
  - destruct (negb (String.eqb v "") || b); [right; by eexists|by left].
  - destruct b; [|by left]. cbn [negb orb String.eqb]. right. by eexists.
Qed.

(** X19. The order of two neighbouring fields with different names does
    not matter: when two URLs parse to the same scheme, netloc and path and
    their queries differ only in that two adjacent fields, which decode to
    different names, are exchanged, [normalize] returns the same for
    both. *)
Theorem parameter_order_is_irrelevant u1 u2 p1 p2 fs1 fs2 f g :
  Str.isascii u1 = true -> Str.isascii u2 = true ->
  urlparse u1 = inr p1 -> urlparse u2 = inr p2 ->
  scheme p1 = scheme p2 -> netloc p1 = netloc p2 -> path p1 = path p2 ->
  Forall (fun f => Str.mem "&" f = false) (fs1 ++ f :: g :: fs2) ->
  (forall x y, x ∈ Query.parse_field false f -> y ∈ Query.parse_field false g ->
               fst x <> fst y) ->
  query p1 = Str.join "&" (fs1 ++ f :: g :: fs2) ->
  query p2 = Str.join "&" (fs1 ++ g :: f :: fs2) ->
  URLNormalizer.normalize u1 = URLNormalizer.normalize u2.
Proof.
  intros _ _ H1 H2 Hs Hn Hp Hfs Hnames Hq1 Hq2.
  unfold URLNormalizer.normalize, URLNormalizer.normalize_body.
  rewrite H1, H2, Hs, Hn, Hp. do 3 f_equal. rewrite Hq1, Hq2.
  assert (Forall (fun f => Str.mem "&" f = false) (fs1 ++ g :: f :: fs2)) as Hfs'.
  { apply Forall_app in Hfs as [Hf1 Hf2]. apply Forall_cons in Hf2 as [Hf Hf2].
    apply Forall_cons in Hf2 as [Hg Hf2]. apply Forall_app. by repeat constructor. }
  rewrite (sorted_params_fields _ Hfs), (sorted_params_fields _ Hfs').
  rewrite !map_app. cbn [map]. rewrite !concat_app. cbn [concat].
  destruct (parse_field_short false f) as [Hf|[x Hf]]; rewrite Hf in *.
  { done. }
  destruct (parse_field_short false g) as [Hg|[y Hg]]; rewrite Hg in *.
  { done. }
  assert (fst x <> fst y) as Hne by (apply Hnames; by apply list_elem_of_singleton).
  cbn [app]. rewrite !filter_app, !filter_cons.
  destruct (decide _); destruct (decide _); try done.
  by apply group_swap.
Qed.

(** * The middlewares *)

(** ** The user agents *)

Section UserAgents.
Import UserAgentMiddleware.

Lemma build_nonempty m c r b : _build_user_agent_list m c r b <> [].
Proof.
  unfold _build_user_agent_list. destruct (String.eqb m "single"); [done|].
  destruct r as [|x r], b; simpl; done.
Qed.

Lemma process_request_fields k self ua self' :
  process_request k self = Some (ua, self') ->
  ua ∈ user_agents self
  /\ user_agents self' = user_agents self /\ mode self' = mode self.
Proof.
  unfold process_request, choice.
  destruct (String.eqb (mode self) "random").
  { destruct (user_agents self !! k) as [x|] eqn:Hk; [|done].
    intros [= <- <-]. split; [by eapply list_elem_of_lookup_2|done]. }
  destruct (String.eqb (mode self) "rotate").
  { destruct (user_agents self !! current_index self) as [x|] eqn:Hk; [|done].
    intros [= <- <-]. split; [by eapply list_elem_of_lookup_2|done]. }
  destruct (user_agents self !! 0%nat) as [x|] eqn:Hk; [|done].
  intros [= <- <-]. split; [by eapply list_elem_of_lookup_2|done].
Qed.

(** X20. The list of user agents that [__init__] builds is never empty,
    whatever the configuration (with every key absent it is the single
    entry [None]); [process_request] hands out an entry of that list and
    leaves the list as it is; and it cannot fail with an [IndexError] as
    long as the index is within the list and, in the mode [random], the
    number drawn is. *)
Theorem user_agent_list_is_never_empty cfg :
  user_agents (init cfg) <> []
  /\ current_index (init cfg) = 0%nat
  /\ user_agents (init (mkConfig None None None None)) = [None]
  /\ (forall k self ua self',
        process_request k self = Some (ua, self') ->
        ua ∈ user_agents self /\ user_agents self' = user_agents self)
  /\ (forall k self,
        (current_index self < length (user_agents self))%nat ->
        (mode self = "random" -> (k < length (user_agents self))%nat) ->
        exists ua self', process_request k self = Some (ua, self')).
Proof.
  split; [apply build_nonempty|]. split; [done|]. split; [done|]. split.
  { intros k self ua self' H. by destruct (process_request_fields _ _ _ _ H) as (? & ? & _). }
  intros k self Hidx Hk. unfold process_request, choice.
  destruct (String.eqb_spec (mode self) "random") as [Hm|_].
  { destruct (lookup_lt_is_Some_2 (user_agents self) k (Hk Hm)) as [x ->]. by eexists _, _. }
  destruct (String.eqb (mode self) "rotate").
  { destruct (lookup_lt_is_Some_2 (user_agents self) _ Hidx) as [x ->]. by eexists _, _. }
  destruct (lookup_lt_is_Some_2 (user_agents self) 0) as [x ->]; [lia|]. by eexists _, _.
Qed.

Lemma rotate_from j ks self :
  mode self = "rotate" -> current_index self = j ->
  (j < length (user_agents self))%nat ->
  exists uas self',
    process_requests ks self = Some (uas, self')
    /\ length uas = length ks
    /\ (forall i, (i < length ks)%nat ->
          uas !! i = user_agents self !! ((j + i) mod length (user_agents self))%nat)
    /\ current_index self' = ((j + length ks) mod length (user_agents self))%nat
    /\ user_agents self' = user_agents self
    /\ mode self' = "rotate".
Proof.
  revert j self. induction ks as [|k ks IH]; intros j self Hmode Hj Hlt.
  - exists [], self. simpl. repeat split; try done; [lia|].
    rewrite Nat.add_0_r, Nat.mod_small by done. done.
  - cbn [process_requests]. unfold process_request at 1.
    rewrite Hmode. cbn [String.eqb Ascii.eqb Bool.eqb].
    rewrite Hj. destruct (lookup_lt_is_Some_2 (user_agents self) j Hlt) as [x Hx].
    rewrite Hx. set (n := length (user_agents self)) in *.
    set (self1 := mkState _ _ _ _ _ _).
    destruct (IH ((j + 1) mod n)%nat self1) as (uas & self' & Hrun & Hlen & Hget & Hidx & Hua & Hm).
    { done. } { done. } { simpl. apply Nat.mod_upper_bound. lia. }
    rewrite Hrun. exists (x :: uas), self'. simpl in Hget, Hidx, Hua. fold n in Hget, Hidx.
    split; [done|]. split; [simpl; by rewrite Hlen|]. split; [|split; [|done]].
    + intros [|i] Hi.
      * simpl. rewrite Nat.add_0_r, Nat.mod_small by done. done.
      * simpl. simpl in Hi. rewrite Hget by lia. f_equal.
        rewrite Nat.Div0.add_mod_idemp_l. f_equal. lia.
    + rewrite Hidx. simpl. rewrite Nat.Div0.add_mod_idemp_l. f_equal. lia.
Qed.

(** X21. In the mode [rotate] the user agents are handed out round robin:
    request number [i] (from 0) after [__init__] is given entry
    [i mod len(user_agents)] of the list, no request fails, and after [m]
    requests the index is [m mod len(user_agents)]. *)
Theorem rotate_is_round_robin cfg ks :
  cfg_mode cfg = Some "rotate" ->
  let agents := user_agents (init cfg) in
  exists uas self',
    process_requests ks (init cfg) = Some (uas, self')
    /\ length uas = length ks
    /\ (forall i, (i < length ks)%nat -> uas !! i = agents !! (i mod length agents)%nat)
    /\ current_index self' = (length ks mod length agents)%nat
    /\ user_agents self' = agents.
Proof.
  intros Hmode agents.
  destruct (rotate_from 0 ks (init cfg)) as (uas & self' & Hrun & Hlen & Hget & Hidx & Hua & _).
  { unfold init. by rewrite Hmode. }
  { done. }
  { pose proof (build_nonempty (default "single" (cfg_mode cfg)) (cfg_custom_agent cfg)
                  (default [] (cfg_rotate_list cfg))
                  (default true (cfg_use_common_browsers cfg))) as Hne.
    unfold init. simpl. destruct (_build_user_agent_list _ _ _ _); [done|simpl; lia]. }
  exists uas, self'. by repeat split.
Qed.

End UserAgents.

(** ** The proxies *)

Section Proxies.
Import RotateProxyMiddleware.

Lemma remove_first_sublist x l : remove_first x l `sublist_of` l.
Proof.
  induction l as [|y l IH]; simpl; [done|].
  destruct (String.eqb x y); [by apply sublist_cons|by apply sublist_skip].
Qed.



Lemma process_response_sublist status self :
  proxies (snd (process_response status self)) `sublist_of` proxies self.
Proof.
  unfold process_response. destruct ((status =? 403) || (status =? 429)); [|done].
  destruct (current_proxy self) as [p|]; [|done].
  destruct (Str.In_list p (proxies self)); [|done]. apply remove_first_sublist.
Qed.

Lemma process_request_proxies k self p self' :
  process_request k self = Some (p, self') ->
  proxies self' = proxies self
  /\ (forall x, p = Some x -> x ∈ proxies self /\ current_proxy self' = Some x)
  /\ (p = None -> proxies self = [] /\ self' = self).
Proof.
  unfold process_request, UserAgentMiddleware.choice.
  destruct (proxies self) as [|y l] eqn:Hp.
  { intros [= <- <-]. by rewrite Hp. }
  destruct ((y :: l) !! k) as [x|] eqn:Hk; [|done].
  intros [= <- <-]. simpl. split; [done|]. split; [|done].
  intros x' [= <-]. split; [by eapply list_elem_of_lookup_2|done].
Qed.

Lemma run_sublist evs self ps self' :
  run evs self = Some (ps, self') ->
  proxies self' `sublist_of` proxies self
  /\ (forall x, Some x ∈ ps -> x ∈ proxies self).
Proof.
  revert self ps self'. induction evs as [|[k|status] evs IH]; intros self ps self'; simpl.
  - intros [= <- <-]. split; [done|]. by intros x ?%elem_of_nil.
  - destruct (process_request k self) as [[p s1]|] eqn:Hreq; [|done].
    destruct (run evs s1) as [[ps1 s2]|] eqn:Hrun; [|done]. intros [= <- <-].
    destruct (process_request_proxies _ _ _ _ Hreq) as (Hsame & Hp & _).
    destruct (IH _ _ _ Hrun) as [Hsub Hin]. rewrite Hsame in Hsub, Hin.
    split; [done|]. intros x [Hx|Hx]%elem_of_cons; [|by apply Hin].
    by destruct (Hp x).
  - intros Hrun. destruct (IH _ _ _ Hrun) as [Hsub Hin].
    pose proof (process_response_sublist status self) as Hstep. split.
    + by etrans.
    + intros x Hx. eapply elem_of_sublist; [|exact Hstep]. by apply Hin.
Qed.

(** X22. The proxy list only shrinks: whatever requests are sent and
    responses received, the list that is left is a sublist of the list the
    middleware began with, and every proxy given to a request is from that
    list; a response with a status other than 403 and 429 is passed on and
    changes nothing; with 403 or 429 the request is returned for another
    try; and when no proxy is left requests go out without one. *)
Theorem proxy_list_only_shrinks evs self ps self' :
  run evs self = Some (ps, self') ->
  proxies self' `sublist_of` proxies self
  /\ (forall x, Some x ∈ ps -> x ∈ proxies self)
  /\ (forall status s, status <> 403 -> status <> 429 ->
        process_response status s = (Response, s))
  /\ (forall status s, status = 403 \/ status = 429 ->
        fst (process_response status s) = Request)
  /\ (forall k s, proxies s = [] -> process_request k s = Some (None, s)).
Proof.
  intros Hrun. destruct (run_sublist _ _ _ _ Hrun) as [Hsub Hin].
  split; [done|]. split; [done|]. split; [|split].
  - intros status s H1 H2. unfold process_response.
    destruct (Z.eqb_spec status 403); [done|]. by destruct (Z.eqb_spec status 429).
  - intros status s [->| ->]; unfold process_response; simpl;
      destruct (current_proxy s); [destruct (Str.In_list _ _)| |destruct (Str.In_list _ _)|];
      done.
  - intros k s Hs. unfold process_request. by rewrite Hs.
Qed.


End Proxies.

(** ** Further runs on concrete inputs *)

Section ConcreteMore.
Import Reference.

Lemma invalid_format_exactly_when_urlparse_raises_witness :
  fst (is_duplicate "http://[::1/" init_default)
  = DeduplicationResult.mk true "" "http://[::1/" (Some "Invalid URL format").
Proof.
  destruct (invalid_format_exactly_when_urlparse_raises "http://[::1/" init_default)
    as [[Hfwd _] _].
  - reflexivity.
  - apply Hfwd. exists (ValueError "Invalid IPv6 URL"). reflexivity.
Defined.

Lemma exact_duplicate_only_for_cached_key_witness :
  let self := snd (is_duplicate "https://example.com/page" init_default) in
  let self' := snd (is_duplicate "https://www.example.com/page/" self) in
  "db82fa702d5f58adfc5ed242595076f0" ∈ seen_urls self
  /\ dict_get "db82fa702d5f58adfc5ed242595076f0" 0 (url_frequency self') = 2.
Proof.
  intros self self'.
  destruct (exact_duplicate_only_for_cached_key "https://www.example.com/page/" self
              (DeduplicationResult.mk true "db82fa702d5f58adfc5ed242595076f0"
                 "https://example.com/page" (Some "Exact duplicate")))
    as (_ & _ & Hin & _ & Hfreq & _).
  - reflexivity.
  - vm_compute. reflexivity.
  - reflexivity.
  - split; [exact Hin|]. fold self' in Hfreq. cbn [DeduplicationResult.hash_value] in Hfreq.
    rewrite Hfreq. vm_compute. reflexivity.
Defined.

Lemma same_canonical_form_is_duplicate_witness :
  fst (is_duplicate "https://example.com/page" init_default)
    = DeduplicationResult.mk false "db82fa702d5f58adfc5ed242595076f0"
        "https://example.com/page" None
  /\ fst (is_duplicate "https://www.example.com/page/"
            (snd (is_duplicate "https://example.com/page" init_default)))
     = DeduplicationResult.mk true "db82fa702d5f58adfc5ed242595076f0"
         "https://example.com/page" (Some "Exact duplicate").
Proof.
  apply (same_canonical_form_is_duplicate (L := libraries) (OK := reference_libraries_ok)
           1000000 true 10000000 rate_0_01).
  - reflexivity.
  - reflexivity.
  - left. reflexivity.
  - vm_compute. reflexivity.
  - vm_compute. reflexivity.
Defined.

Lemma frequency_counts_submissions_witness :
  let out := add_batch ["https://example.com/page"; "https://example.com/page";
                        "https://example.com/page"]
                       (init 2 false 10000000 rate_0_01) in
  length (fst out) = 3%nat
  /\ dict_get "db82fa702d5f58adfc5ed242595076f0" 0 (url_frequency (snd out)) = 3
  /\ duplicates (stats (snd out)) = 2.
Proof.
  destruct (frequency_counts_submissions (L := libraries) (OK := reference_libraries_ok)
              2 false 10000000 rate_0_01 "https://example.com/page"
              "https://example.com/page" "db82fa702d5f58adfc5ed242595076f0" 2)
    as (Hres & _ & Hfreq & _ & Hdup & _).
  - reflexivity.
  - right. lia.
  - vm_compute. reflexivity.
  - intros out. split; [|split].
    + change (fst out) with
        (fst (add_batch (replicate 3 "https://example.com/page")
                        (init 2 false 10000000 rate_0_01))).
      by rewrite Hres.
    + exact Hfreq.
    + exact Hdup.
Defined.

Lemma clear_cache_forgets_witness :
  let self := snd (is_duplicate "https://example.com/page" init_default) in
  fst (is_duplicate "https://example.com/page" self)
    = DeduplicationResult.mk true "db82fa702d5f58adfc5ed242595076f0"
        "https://example.com/page" (Some "Exact duplicate")
  /\ fst (is_duplicate "https://example.com/page" (clear_cache self))
     = DeduplicationResult.mk false "db82fa702d5f58adfc5ed242595076f0"
         "https://example.com/page" None.
Proof.
  intros self. split; [vm_compute; reflexivity|].
  destruct (clear_cache_forgets (L := libraries) (OK := reference_libraries_ok)
              self "https://example.com/page" "https://example.com/page"
              "db82fa702d5f58adfc5ed242595076f0") as (_ & _ & _ & Hnew).
  - reflexivity.
  - vm_compute. split; reflexivity.
  - vm_compute. reflexivity.
  - exact Hnew.
Defined.

Lemma eviction_makes_room_witness :
  let self := snd (run [IsDuplicate "http://a.example/1";
                        IsDuplicate "http://a.example/2";
                        IsDuplicate "http://a.example/3"]
                       (init 2 true 10000000 rate_0_01)) in
  size (seen_urls self) = 3%nat
  /\ Z.of_nat (size (seen_urls (snd (_evict_cache self)))) < 2.
Proof.
  intros self. split; [vm_compute; reflexivity|].
  destruct (eviction_makes_room self) as (_ & Hlt & _).
  - apply run_invariant, init_invariant.
  - vm_compute. split; [discriminate|reflexivity].
  - exact Hlt.
Defined.

Lemma exact_only_cache_stays_below_bound_witness :
  let self := snd (run [IsDuplicate "http://a.example/1";
                        AddBatch ["http://a.example/2"; "http://a.example/3"];
                        IsDuplicate "http://a.example/4"]
                       (init 2 false 10000000 rate_0_01)) in
  Z.of_nat (size (seen_urls self)) < 2 /\ unique_urls (stats self) = 4.
Proof.
  intros self.
  destruct (exact_only_cache_stays_below_bound (L := libraries) 2 10000000 rate_0_01
              [IsDuplicate "http://a.example/1";
               AddBatch ["http://a.example/2"; "http://a.example/3"];
               IsDuplicate "http://a.example/4"]) as (Hlt & _).
  - vm_compute. split; [discriminate|reflexivity].
  - split; [exact Hlt|]. vm_compute. reflexivity.
Defined.

Lemma url_key_reads_back_as_hash_witness :
  hash128 "https://example.com/page"
  = inr (int16 "db82fa702d5f58adfc5ed242595076f0").
Proof.
  destruct (url_key_reads_back_as_hash (L := libraries) "https://example.com/page"
              "db82fa702d5f58adfc5ed242595076f0") as (Hhash & _).
  - vm_compute. reflexivity.
  - exact Hhash.
Defined.

Lemma second_pass_is_identity_witness :
  exists n,
    URLNormalizer.normalize "https://WWW.Example.com/Path/?b=2&utm_source=x&a=1" = Some n
    /\ _normalize_query_parameters n = inr n.
Proof.
  destruct (second_pass_is_identity (L := libraries)
              "https://WWW.Example.com/Path/?b=2&utm_source=x&a=1"
              (UrllibParse.mkParseResult "https" "WWW.Example.com" "/Path/" ""
                                         "b=2&utm_source=x&a=1" ""))
    as (n & Hn & Hsecond & _).
  - reflexivity.
  - reflexivity.
  - discriminate.
  - discriminate.
  - reflexivity.
  - intros _. reflexivity.
  - exists n. by split.
Defined.

Lemma normalize_writes_no_fragment_witness :
  URLNormalizer.normalize "https://Example.com/a b/?x=1#frag" = Some "https://example.com/a b?x=1"
  /\ Str.mem "#" "https://example.com/a b?x=1" = false.
Proof.
  split; [reflexivity|].
  destruct (normalize_writes_no_fragment "https://Example.com/a b/?x=1#frag"
              "https://example.com/a b?x=1") as (Hno & _).
  - reflexivity.
  - reflexivity.
  - exact Hno.
Defined.

Lemma get_domain_has_no_port_witness :
  URLNormalizer.get_domain "https://WWW.Example.COM:8443/x" = Some "example.com"
  /\ Str.mem ":" "example.com" = false.
Proof.
  split; [reflexivity|].
  destruct (get_domain_has_no_port "https://WWW.Example.COM:8443/x") as (_ & Hshape).
  - reflexivity.
  - destruct (Hshape "example.com") as (Hno & _); [reflexivity|exact Hno].
Defined.

Lemma get_domain_is_normalized_host_witness :
  URLNormalizer.get_domain "https://WWW.Example.COM:8443/x"
  = Some (URLNormalizer.normalize_netloc "WWW.Example.COM").
Proof.
  destruct (get_domain_is_normalized_host "https://WWW.Example.COM:8443/x"
              (UrllibParse.mkParseResult "https" "WWW.Example.COM:8443" "/x" "" "" ""))
    as (Hmain & _).
  - reflexivity.
  - reflexivity.
  - exact Hmain.
Defined.

Lemma valid_url_passed_every_check_witness :
  exists parsed,
    UrllibParse.urlparse "https://example.com/page" = inr parsed
    /\ (UrllibParse.scheme parsed = "http" \/ UrllibParse.scheme parsed = "https").
Proof.
  destruct (valid_url_passed_every_check (T := tldextract) "https://example.com/page")
    as (parsed & ext & Hparse & Hscheme & _).
  - reflexivity.
  - reflexivity.
  - exists parsed. by split.
Defined.


Lemma blocked_parameter_is_ignored_witness :
  URLNormalizer.normalize "https://example.com/p?b=2&utm_source=x&a=1"
  = URLNormalizer.normalize "https://example.com/p?b=2&a=1".
Proof.
  apply (blocked_parameter_is_ignored
           "https://example.com/p?b=2&utm_source=x&a=1" "https://example.com/p?b=2&a=1"
           (UrllibParse.mkParseResult "https" "example.com" "/p" "" "b=2&utm_source=x&a=1" "")
           (UrllibParse.mkParseResult "https" "example.com" "/p" "" "b=2&a=1" "")
           ["b=2"] ["a=1"] "utm_source" "x"); try reflexivity.
  repeat constructor.
Defined.

Lemma parameter_order_is_irrelevant_witness :
  URLNormalizer.normalize "https://e.com/p?b=2&a=1"
  = URLNormalizer.normalize "https://e.com/p?a=1&b=2".
Proof.
  apply (parameter_order_is_irrelevant
           "https://e.com/p?b=2&a=1" "https://e.com/p?a=1&b=2"
           (UrllibParse.mkParseResult "https" "e.com" "/p" "" "b=2&a=1" "")
           (UrllibParse.mkParseResult "https" "e.com" "/p" "" "a=1&b=2" "")
           [] [] "b=2" "a=1"); try reflexivity.
  - repeat constructor.
  - intros x y Hx Hy. vm_compute in Hx, Hy.
    apply list_elem_of_singleton in Hx as ->. apply list_elem_of_singleton in Hy as ->.
    discriminate.
Defined.

End ConcreteMore.

Section ConcreteMiddleware.

Lemma rotate_is_round_robin_witness :
  UserAgentMiddleware.process_requests [0; 0; 0]%nat
    (UserAgentMiddleware.init
       (UserAgentMiddleware.mkConfig (Some "rotate") None (Some ["A"; "B"]) (Some false)))
  = Some ([Some "A"; Some "B"; Some "A"],
          UserAgentMiddleware.mkState "rotate" None ["A"; "B"] false
            [Some "A"; Some "B"] 1).
Proof.
  destruct (rotate_is_round_robin
              (UserAgentMiddleware.mkConfig (Some "rotate") None (Some ["A"; "B"]) (Some false))
              [0; 0; 0]%nat) as (uas & self' & Hrun & _).
  - reflexivity.
  - rewrite Hrun. vm_compute in Hrun. by injection Hrun as <- <-.
Defined.

Lemma proxy_list_only_shrinks_witness :
  RotateProxyMiddleware.run
    [RotateProxyMiddleware.Send 1; RotateProxyMiddleware.Receive 429;
     RotateProxyMiddleware.Send 0; RotateProxyMiddleware.Receive 200]
    (RotateProxyMiddleware.init ["http://p1"; "http://p2"])
  = Some ([Some "http://p2"; Some "http://p1"],
          RotateProxyMiddleware.mkState ["http://p1"] (Some "http://p1"))
  /\ ["http://p1"] `sublist_of` ["http://p1"; "http://p2"].
Proof.
  split; [reflexivity|].
  destruct (proxy_list_only_shrinks
              [RotateProxyMiddleware.Send 1; RotateProxyMiddleware.Receive 429;
               RotateProxyMiddleware.Send 0; RotateProxyMiddleware.Receive 200]
              (RotateProxyMiddleware.init ["http://p1"; "http://p2"])
              [Some "http://p2"; Some "http://p1"]
              (RotateProxyMiddleware.mkState ["http://p1"] (Some "http://p1")))
    as (Hsub & _).
  - reflexivity.
  - exact Hsub.
Defined.


End ConcreteMiddleware.
